(** * SponsorGuard: the email intake and classification pipeline

    A shallow embedding of the Chrome extension's content script
    (chrome-extension/content.js), of the analysis part of its background
    service worker (chrome-extension/background.js) and of the risk summary
    of its popup (chrome-extension/popup.js), with the properties of the
    pipeline proved over it.

    Conventions of the embedding.
    - A JavaScript string is the list of its UTF-16 code units, so that
      [length], [slice] and [charCodeAt] count what the engine counts.
    - A value that the code only tests ([if (x)], [x || y], [x && y]) is kept
      up to its truthiness.
    - The regular-expression engine is a parameter: every [String.match] of
      the source is a function from the subject string to the captured
      group, about which nothing is assumed.
    - Code after an [await] runs later, in its own turn of the event loop;
      [processEmail] is therefore cut at its [await]s into phases, and
      each phase reads the node as the page has it by then.
    - An exception is a value: code that can throw returns the message of
      the exception or its result, and [try]/[catch] is a function. *)

From Stdlib Require Import ZArith Lia List String Ascii Bool.
From stdpp Require Import base tactics option list gmap sets.

Local Open Scope Z_scope.

(** ** JavaScript strings *)

Module Js.

Abbreviation jsstring := (list Z).

(** The code units of a string literal of the source (ASCII only). *)
Definition lit (s : string) : jsstring :=
  List.map (fun a => Z.of_N (N_of_ascii a)) (list_ascii_of_string s).

(** [s.slice(0, n)] for [n >= 0]. *)
Definition slice0 (n : nat) (s : jsstring) : jsstring := take n s.

(** [String.prototype.toLowerCase].  Besides [A-Z], two code units have a
    lower case with an ASCII letter in it: the Kelvin sign U+212A gives 'k',
    and the capital I with a dot above, U+0130, gives 'i' followed by
    U+0307.  The lower case of any other code unit above 127 holds no
    ASCII code unit; such a code unit is kept as it is, which a search for
    an ASCII text cannot tell from its lower case. *)
Definition lowerUnits (c : Z) : jsstring :=
  if (65 <=? c) && (c <=? 90) then [c + 32]
  else if c =? 8490 then [107]
  else if c =? 304 then [105; 775]
  else [c].

Definition toLowerCase (s : jsstring) : jsstring := flat_map lowerUnits s.

(** [s.startsWith(p)]. *)
Fixpoint startsWith (s p : jsstring) : bool :=
  match p, s with
  | [], _ => true
  | _ :: _, [] => false
  | x :: p', y :: s' => (x =? y) && startsWith s' p'
  end.

(** [s.includes(k)]. *)
Fixpoint includes (s k : jsstring) : bool :=
  startsWith s k ||
  match s with
  | [] => false
  | _ :: s' => includes s' k
  end.

(** [keywords.some(keyword => text.includes(keyword))]. *)
Definition someIncluded (keywords : list jsstring) (text : jsstring) : bool :=
  existsb (fun keyword => includes text keyword) keywords.

(** The truthiness of a string, and of a value that may be absent. *)
Definition truthyStr (s : jsstring) : bool :=
  match s with [] => false | _ => true end.

Definition truthyOpt (o : option jsstring) : bool :=
  match o with Some s => truthyStr s | None => false end.

(** The truthiness of a number that may be absent. *)
Definition truthyNum (o : option Z) : bool :=
  match o with Some n => negb (n =? 0) | None => false end.

(** [a || b] on strings: the first truthy operand, else the last. *)
Definition orStr (a : option jsstring) (b : jsstring) : jsstring :=
  match a with
  | Some s => if truthyStr s then s else b
  | None => b
  end.

(** White space of [String.prototype.trim]. *)
Definition isWhiteSpace (c : Z) : bool :=
  ((9 <=? c) && (c <=? 13)) || (c =? 32) || (c =? 160) || (c =? 5760) ||
  ((8192 <=? c) && (c <=? 8202)) || (c =? 8232) || (c =? 8233) ||
  (c =? 8239) || (c =? 8287) || (c =? 12288) || (c =? 65279).

Fixpoint trimStart (s : jsstring) : jsstring :=
  match s with
  | c :: s' => if isWhiteSpace c then trimStart s' else s
  | [] => []
  end.

Definition trim (s : jsstring) : jsstring :=
  rev (trimStart (rev (trimStart s))).

(** [s.split('\n')[0]]: the text before the first line feed. *)
Fixpoint firstLine (s : jsstring) : jsstring :=
  match s with
  | [] => []
  | c :: s' => if c =? 10 then [] else c :: firstLine s'
  end.

(** *** Numbers to strings *)

Definition digitChar (d : Z) : Z := if d <? 10 then 48 + d else 87 + d.

(** The digits of [n >= 0], most significant first, in front of [acc]. *)
Fixpoint digits (fuel : nat) (radix n : Z) (acc : jsstring) : jsstring :=
  match fuel with
  | O => acc
  | S fuel' =>
      let acc' := digitChar (n mod radix) :: acc in
      if n <? radix then acc' else digits fuel' radix (n / radix) acc'
  end.

(** [n.toString(radix)] for an integer [n]. *)
Definition toStringRadix (radix n : Z) : jsstring :=
  if n <? 0
  then 45 :: digits (S (Z.to_nat (Z.log2 (- n)))) radix (- n) []
  else digits (S (Z.to_nat (Z.log2 n))) radix n [].

(** The integer that a string of digits denotes ([parseInt(s, radix)] on
    digits), to check [toStringRadix] against. *)
Definition digitValue (c : Z) : Z := if c <? 58 then c - 48 else c - 87.

Definition digitsValue (radix : Z) (s : jsstring) : Z :=
  fold_left (fun acc c => acc * radix + digitValue c) s 0.

(** *** 32-bit integer operators *)

(** ToInt32: reduction modulo 2^32 into [-2^31, 2^31). *)
Definition toInt32 (z : Z) : Z :=
  let m := z mod 2 ^ 32 in
  if 2 ^ 31 <=? m then m - 2 ^ 32 else m.

(** [x << n]. *)
Definition shl32 (x n : Z) : Z := toInt32 (Z.shiftl (toInt32 x) (n mod 32)).

(** [x & y]. *)
Definition and32 (x y : Z) : Z := toInt32 (Z.land (toInt32 x) (toInt32 y)).

End Js.

Import Js.

(** ** The host: regular expressions, clock and location

    [String.match] with the patterns of the source, each as the function
    that gives the captured group ([None] when the pattern does not match),
    the regex-based extractors of background.js that only feed the message
    to the popup, [new Date().toISOString()] and [window.location.href]. *)
Class Host := {
  (* /Subject:\s*(.+?)(?:\n|From:|$)/i, group 1 *)
  matchSubjectMarker : jsstring -> option jsstring;
  (* /^(.+?)\n/, group 1 *)
  matchLeadingLine : jsstring -> option jsstring;
  (* /([a-zA-Z0-9._%+-]+@[a-zA-Z0-9.-]+\.[a-zA-Z]{2,})/, group 1 *)
  matchEmailAddress : jsstring -> option jsstring;
  (* /(?:from|at|with|representing)\s+([A-Z][a-zA-Z\s&]+(?:Inc|LLC|Corp|Company|Ltd))/i,
     group 1 *)
  matchCompany : jsstring -> option jsstring;
  (* /https?:\/\/[^\s<>{}|\\^`[\]]+/ (and the double quote), group 0 *)
  matchWebsite : jsstring -> option jsstring;
  now : jsstring;
  location_href : jsstring
}.

(** ** The identity of an email node (content.js) *)

(** What [getEmailId], [extractEmailData] and [markAsSponsorEmail] read from
    a DOM element. *)
Record SenderElement := {
  se_email : option jsstring;   (* getAttribute('email') *)
  se_name : option jsstring;    (* getAttribute('name') *)
  se_textContent : jsstring
}.

Record Element := {
  textContent : jsstring;
  innerText : jsstring;
  data_thread_id : option jsstring;
  data_message_id : option jsstring;
  data_legacy_thread_id : option jsstring;
  element_id : jsstring;
  (* index of the element in [parentNode.children]; [None] without parent *)
  sibling_index : option nat;
  (* text of the first match of the subject selectors *)
  subjectElement : option jsstring;
  (* first match of the sender selectors *)
  senderElement : option SenderElement;
  (* element.querySelector('.sponsor-guard-label') is not null *)
  has_sponsor_label : bool
}.

Definition simpleHash_step (hash char : Z) : Z :=
  let hash := (shl32 hash 5 - hash) + char in
  and32 hash hash.

Definition simpleHash_loop (str : jsstring) : Z :=
  fold_left simpleHash_step str 0.

Definition simpleHash (str : jsstring) : jsstring :=
  toStringRadix 36 (Z.abs (simpleHash_loop str)).

(** [Array.from(element.parentNode?.children || []).indexOf(element)]. *)
Definition position (element : Element) : Z :=
  match sibling_index element with
  | Some i => Z.of_nat i
  | None => -1
  end.

Definition fallbackId (element : Element) : jsstring :=
  let content := textContent element in
  let contentHash := simpleHash (slice0 200 content) in
  lit "content_" ++ contentHash ++ lit "_" ++ toStringRadix 10 (position element).

Definition getEmailId (element : Element) : jsstring :=
  let threadId := data_thread_id element in
  let messageId := data_message_id element in
  let legacyId := data_legacy_thread_id element in
  let elementId := element_id element in
  if truthyOpt threadId then lit "thread_" ++ default [] threadId
  else if truthyOpt messageId then lit "msg_" ++ default [] messageId
  else if truthyOpt legacyId then lit "legacy_" ++ default [] legacyId
  else if truthyStr elementId then lit "elem_" ++ elementId
  else fallbackId element.

(** ** Extraction and the keyword prefilter (content.js) *)

Record EmailData := {
  id : jsstring;
  subject : jsstring;
  sender : jsstring;
  body : jsstring;
  timestamp : jsstring;
  url : jsstring
}.

Definition prefilterKeywords : list jsstring :=
  List.map lit
    ["sponsor"; "partnership"; "collaboration"; "brand deal";
     "influencer"; "campaign"; "promotion"; "advertising";
     "content creator"; "social media"; "youtube"; "instagram";
     "tiktok"; "brand ambassador"; "affiliate"; "marketing";
     "product placement"; "endorsement"; "paid post"; "review";
     "feature"; "shoutout"; "mention"; "brand"; "company";
     "business"; "opportunity"; "proposal"; "deal"; "offer"]%string.

(** The text that every keyword check of the source searches. *)
Definition emailText (emailData : EmailData) : jsstring :=
  toLowerCase (subject emailData ++ lit " " ++ body emailData).

Definition hasSponsortKeywords (emailData : EmailData) : bool :=
  someIncluded prefilterKeywords (emailText emailData).

Section Extraction.
Context `{Host}.

Definition extractEmailData (element : Element) : option EmailData :=
  let text :=
    if truthyStr (textContent element) then textContent element
    else innerText element in
  if negb (truthyStr text) || (Z.of_nat (length text) <? 20) then None
  else
    let subject0 := orStr (subjectElement element) (lit "No Subject") in
    let sender0 :=
      match senderElement element with
      | Some se =>
          if truthyOpt (se_email se) then default [] (se_email se)
          else if truthyOpt (se_name se) then default [] (se_name se)
          else if truthyStr (se_textContent se) then se_textContent se
          else lit "Unknown Sender"
      | None => lit "Unknown Sender"
      end in
    (* text patterns, when the elements were not found *)
    let subject1 :=
      if negb (bool_decide (is_Some (subjectElement element)))
         || bool_decide (subject0 = lit "No Subject")
      then
        match matchSubjectMarker text with
        | Some g => trim g
        | None =>
            match matchLeadingLine text with
            | Some g => trim g
            | None => subject0
            end
        end
      else subject0 in
    let sender1 :=
      if negb (bool_decide (is_Some (senderElement element)))
         || bool_decide (sender0 = lit "Unknown Sender")
      then
        match matchEmailAddress text with
        | Some g => g
        | None => sender0
        end
      else sender0 in
    (* still no subject: first part of the text *)
    let subject2 :=
      if bool_decide (subject1 = lit "No Subject")
      then slice0 50 (firstLine text) ++ lit "..."
      else subject1 in
    Some {| id := getEmailId element;
            subject := slice0 200 subject2;
            sender := slice0 100 sender1;
            body := slice0 5000 text;
            timestamp := now;
            url := location_href |}.

End Extraction.

(** ** Analysis results *)

Record Flag := {
  flag_type : jsstring;      (* 'green', 'yellow' or 'red' *)
  flag_message : jsstring
}.

Record ExtractedInfo := {
  companyName : option jsstring;
  website : option jsstring;
  contactPerson : option jsstring;
  offer : option jsstring;
  agenda : option jsstring
}.

(** The JSON object that the remote endpoint answers with. *)
Record RemoteResult := {
  r_error : option jsstring;
  r_riskScore : option Z;
  r_status : option jsstring;
  r_extractedInfo : option ExtractedInfo;
  r_flags : option (list Flag);
  r_summary : option jsstring
}.

(** What [analyzeEmailWithAI] answers and [processEmail] receives: the
    remote fields, [isSponsor] (up to truthiness), and the fields that the
    two ends add.  A field that is absent is [None]. *)
Record AnalysisResult := {
  error : option jsstring;
  isSponsor : bool;
  originalEmail : option EmailData;
  riskScore : option Z;
  status : option jsstring;
  flags : option (list Flag);
  extractedInfo : option ExtractedInfo;
  summary : option jsstring;
  processedAt : option jsstring
}.

(** [info?.field]. *)
Definition info (field : ExtractedInfo -> option jsstring)
    (o : option ExtractedInfo) : option jsstring :=
  o ≫= field.

(** The flag kinds of the data model, as the code spells them. *)
Definition positive : jsstring := lit "green".
Definition caution : jsstring := lit "yellow".
Definition negative : jsstring := lit "red".

(** ** The reconciler (content.js) *)

Definition isSponsorEmail (result : AnalysisResult) : bool :=
  isSponsor result
  || truthyOpt (info companyName (extractedInfo result))
  || truthyOpt (info offer (extractedInfo result))
  || (truthyNum (riskScore result)
      && match riskScore result with Some n => n <? 50 | None => false end)
  || match flags result with
     | Some fs => existsb (fun flag => bool_decide (flag_type flag = lit "green")) fs
     | None => false
     end.

(** The confidence shown on the label of [markAsSponsorEmail]; a comparison
    with an absent score is false. *)
Definition confidence (result : AnalysisResult) : jsstring :=
  match riskScore result with
  | Some n => if n <? 30 then lit "HIGH"
              else if n <? 50 then lit "MEDIUM" else lit "LOW"
  | None => lit "LOW"
  end.

(** ** The risk summary of the popup (popup.js) *)

Definition scoreClass (riskScore : Z) : jsstring :=
  if riskScore >? 70 then lit "danger"
  else if riskScore >? 40 then lit "warning"
  else lit "safe".

Definition recommendation (riskScore : Z) : jsstring :=
  if riskScore >? 70 then lit "NOT RECOMMENDED"
  else if riskScore >? 40 then lit "PROCEED WITH CAUTION"
  else lit "SAFE TO PROCEED".

(** A child of the checklist container. *)
Inductive ChecklistNode :=
  | ChecklistItem (text : jsstring)
  | ChecklistSummary (scoreClass recommendation : jsstring) (overallRisk : Z).

Definition isSummary (n : ChecklistNode) : bool :=
  match n with ChecklistSummary _ _ _ => true | ChecklistItem _ => false end.

(** Removal of the first node that [querySelector('.checklist-summary')]
    finds. *)
Fixpoint removeSummary (children : list ChecklistNode) : list ChecklistNode :=
  match children with
  | [] => []
  | n :: rest => if isSummary n then rest else n :: removeSummary rest
  end.

Definition addChecklistSummary (data_riskScore : Z)
    (checklistContainer : list ChecklistNode) : list ChecklistNode :=
  removeSummary checklistContainer ++
  [ChecklistSummary (scoreClass data_riskScore) (recommendation data_riskScore)
     data_riskScore].

(** ** The analysis client (background.js) *)

Record Activity := {
  act_type : jsstring;
  act_message : jsstring;
  act_timestamp : jsstring
}.

Record SponsorData := {
  sd_companyName : jsstring;
  sd_website : jsstring;
  sd_agenda : jsstring;
  sd_riskScore : Z;
  sd_contactPerson : jsstring;
  sd_moneyOffered : jsstring;
  sd_emailSubject : jsstring;
  sd_timestamp : jsstring;
  sd_extractedInfo : ExtractedInfo
}.

(** A message given to [chrome.runtime.sendMessage]. *)
Inductive Message :=
  | MsgActivity (data : Activity)
  | MsgSponsorDetected (data : SponsorData).

(** The part of the service's state that the analysis touches, with the
    messages it has sent, oldest first. *)
Record BackgroundService := {
  recentActivities : list Activity;
  sentMessages : list Message
}.

Definition maxActivities : nat := 20.

(** What [await fetch(...)] and [await response.json()] can come to. *)
Inductive JsonBody :=
  | JsonInvalid (message : jsstring)     (* response.json() rejects *)
  | JsonNull                             (* the body is the JSON null *)
  | JsonObject (result : RemoteResult).

Inductive FetchOutcome :=
  | FetchRejected (message : jsstring)   (* transport failure *)
  | Response (status : Z) (json : JsonBody).

(** [response.ok]. *)
Definition response_ok (status : Z) : bool :=
  (200 <=? status) && (status <=? 299).

(** The regex-based extractors of background.js that fill the message to
    the popup.  Four of them, which return whatever their patterns find,
    are taken as functions of the record; of [extractWebsiteFromEmail],
    which can throw, the first pattern is taken. *)
Class SponsorExtractors := {
  extractCompanyFromEmail : EmailData -> option jsstring;
  (* text.matchAll(/https?:\/\/(?:www\.)?([a-zA-Z0-9.-]+\.[a-zA-Z]{2,})/g):
     group 1 of every match, in the order of the text *)
  matchUrlDomains : jsstring -> list jsstring;
  extractAgendaFromEmail : EmailData -> jsstring;
  extractContactFromEmail : EmailData -> option jsstring;
  extractMoneyFromEmail : EmailData -> jsstring
}.

(** The message of the TypeError of [String.prototype.matchAll] on a
    pattern without the [g] flag. *)
Definition matchAllNonGlobal : jsstring :=
  lit "String.prototype.matchAll called with a non-global RegExp argument".

(** [domain && !domain.includes('gmail') && !domain.includes('google')]. *)
Definition usableDomain (domain : jsstring) : bool :=
  truthyStr domain && negb (includes domain (lit "gmail"))
  && negb (includes domain (lit "google")).

(** [extractWebsiteFromEmail]: the exception ([inl], with its message) or
    the website ([inr]).  The loop over the two patterns returns at the
    first usable domain that the first pattern finds in the body.  When
    there is none the loop comes to the second pattern, which has no [g]
    flag, and [matchAll] throws: the lines that take the domain of the
    sender or return [null] are never reached. *)
Definition extractWebsiteFromEmail `{SponsorExtractors} (emailData : EmailData)
    : jsstring + jsstring :=
  let text := body emailData in
  match List.find usableDomain (matchUrlDomains text) with
  | Some domain =>
      inr (if startsWith domain (lit "www.") then domain
           else lit "www." ++ domain)
  | None => inl matchAllNonGlobal
  end.

(** [a || b] where the evaluation of [b] can throw. *)
Definition orThrowing (a : option jsstring) (b : jsstring + jsstring)
    : jsstring + jsstring :=
  if truthyOpt a then inr (default [] a) else b.

(** A website is at hand for the details of a sponsor: the answer of the
    analysis carries one, or the first pattern finds a usable domain in
    the body. *)
Definition websiteAtHand `{SponsorExtractors} (given : option jsstring)
    (emailData : EmailData) : Prop :=
  truthyOpt given = true
  \/ exists domain,
       In domain (matchUrlDomains (body emailData))
       /\ usableDomain domain = true.

(** The object [{}]. *)
Definition emptyInfo : ExtractedInfo :=
  {| companyName := None; website := None; contactPerson := None;
     offer := None; agenda := None |}.

(** Computations of the service: a state, and an exception or a value. *)
Module Svc.

Definition t (A : Type) : Type :=
  BackgroundService -> (jsstring + A) * BackgroundService.

Definition ret {A} (a : A) : t A := fun s => (inr a, s).

Definition throw {A} (message : jsstring) : t A := fun s => (inl message, s).

Definition bind {A B} (m : t A) (k : A -> t B) : t B :=
  fun s =>
    match m s with
    | (inr a, s') => k a s'
    | (inl e, s') => (inl e, s')
    end.

(** [try { m } catch (error) { handler(error.message) }]: the state that
    [m] reached when it threw is the one the handler starts from. *)
Definition tryCatch {A} (m : t A) (handler : jsstring -> t A) : t A :=
  fun s =>
    match m s with
    | (inr a, s') => (inr a, s')
    | (inl e, s') => handler e s'
    end.

Definition modify (f : BackgroundService -> BackgroundService) : t unit :=
  fun s => (inr tt, f s).

(** A computation that touches no state. *)
Definition lift {A} (r : jsstring + A) : t A := fun s => (r, s).

End Svc.

#[global] Instance svc_ret : MRet Svc.t := @Svc.ret.
#[global] Instance svc_bind : MBind Svc.t := fun A B k m => Svc.bind m k.

Definition sendMessage (m : Message) : Svc.t unit :=
  Svc.modify (fun s =>
    {| recentActivities := recentActivities s;
       sentMessages := sentMessages s ++ [m] |}).

Definition addActivity (activity : Activity) : Svc.t unit :=
  Svc.modify (fun s =>
    let unshifted := activity :: recentActivities s in
    {| recentActivities :=
         if (maxActivities <? length unshifted)%nat
         then removelast unshifted else unshifted;
       sentMessages := sentMessages s |}) ;;
  sendMessage (MsgActivity activity).

Definition sponsorStatusKeywords : list jsstring :=
  List.map lit
    ["sponsor"; "partnership"; "collaboration"; "brand deal";
     "influencer"; "campaign"; "promotion"; "advertising";
     "content creator"; "social media"; "youtube"; "instagram";
     "tiktok"; "brand ambassador"; "affiliate"; "marketing";
     "product placement"; "endorsement"; "paid post"]%string.

Definition lowRisk (analysisResult : RemoteResult) : bool :=
  truthyNum (r_riskScore analysisResult)
  && match r_riskScore analysisResult with Some n => n <? 40 | None => false end.

Definition hasBusinessInfo (analysisResult : RemoteResult) : bool :=
  truthyOpt (info companyName (r_extractedInfo analysisResult))
  || truthyOpt (info website (r_extractedInfo analysisResult)).

Definition professionalSender (emailData : EmailData) : bool :=
  truthyStr (sender emailData)
  && negb (includes (sender emailData) (lit "gmail.com"))
  && negb (includes (sender emailData) (lit "yahoo.com"))
  && negb (includes (sender emailData) (lit "hotmail.com")).

Definition determineSponsorStatus (analysisResult : RemoteResult)
    (emailData : EmailData) : bool :=
  let hasKeywords := someIncluded sponsorStatusKeywords (emailText emailData) in
  hasKeywords
  && (lowRisk analysisResult || hasBusinessInfo analysisResult
      || professionalSender emailData).

Definition fallbackKeywords : list jsstring :=
  List.map lit
    ["sponsor"; "partnership"; "collaboration"; "brand deal";
     "influencer"; "campaign"; "promotion"; "advertising"]%string.

Definition fallbackSponsorDetection (emailData : EmailData) : bool :=
  someIncluded fallbackKeywords (emailText emailData).

(** The request payload: the template literal, trimmed. *)
Definition emailContent (emailData : EmailData) : jsstring :=
  trim ([10] ++ lit "Subject: " ++ subject emailData ++ [10]
        ++ lit "From: " ++ sender emailData ++ [10]
        ++ lit "Body: " ++ body emailData ++ [10] ++ lit "          ").

Section Analysis.
Context `{Host} `{SponsorExtractors}.

Definition extractBasicInfo (emailData : EmailData) : ExtractedInfo :=
  let text := toLowerCase (body emailData) in
  let companyMatch := matchCompany text in
  let websiteMatch := matchWebsite (body emailData) in
  {| companyName :=
       Some (match companyMatch with
             | Some g => trim g
             | None => lit "Not specified"
             end);
     website :=
       Some (match websiteMatch with
             | Some g => g
             | None => lit "Not specified"
             end);
     contactPerson := None;
     offer := Some (lit "Potential business opportunity detected");
     agenda := None |}.

(** The object literal [sponsorData]: its fields are evaluated in their
    order, and the evaluation ends at [website] when
    [extractWebsiteFromEmail] is called and throws. *)
Definition sponsorData (result : RemoteResult) (emailData : EmailData)
    : jsstring + SponsorData :=
  let ei := r_extractedInfo result in
  let companyName :=
    orStr (info companyName ei)
      (orStr (extractCompanyFromEmail emailData) (lit "Unknown Company")) in
  match orThrowing (info website ei) (extractWebsiteFromEmail emailData) with
  | inl message => inl message
  | inr found =>
      inr {| sd_companyName := companyName;
             sd_website := orStr (Some found) (lit "Not provided");
             sd_agenda :=
               orStr (info offer ei)
                 (orStr (info agenda ei)
                    (orStr (Some (extractAgendaFromEmail emailData))
                       (lit "Sponsorship opportunity")));
             sd_riskScore := default 0 (r_riskScore result);
             sd_contactPerson :=
               orStr (info contactPerson ei)
                 (orStr (extractContactFromEmail emailData)
                    (orStr (Some (sender emailData)) (lit "Not specified")));
             sd_moneyOffered :=
               orStr (Some (extractMoneyFromEmail emailData))
                 (lit "Not specified");
             sd_emailSubject := subject emailData;
             sd_timestamp := now;
             sd_extractedInfo := default emptyInfo ei |}
  end.

(** The fallback analysis of the [catch] block. *)
Definition fallbackAnalysis (message : jsstring) (emailData : EmailData)
    : AnalysisResult :=
  {| error := Some message;
     isSponsor := fallbackSponsorDetection emailData;
     originalEmail := Some emailData;
     riskScore := Some 50;
     status := Some (lit "warning");
     flags :=
       Some [ {| flag_type := lit "yellow";
                 flag_message :=
                   lit "API unavailable - using fallback detection" |} ];
     extractedInfo := Some (extractBasicInfo emailData);
     summary := None;
     processedAt := None |}.

(** The object [finalResult]: the remote object with the verdict, the
    record and the time. *)
Definition finalResult (result : RemoteResult) (isSponsor : bool)
    (emailData : EmailData) : AnalysisResult :=
  {| error := r_error result;
     isSponsor := isSponsor;
     originalEmail := Some emailData;
     riskScore := r_riskScore result;
     status := r_status result;
     flags := r_flags result;
     extractedInfo := r_extractedInfo result;
     summary := r_summary result;
     processedAt := Some now |}.

(** [await fetch(...)], the status test and [await response.json()]. *)
Definition fetchResult (outcome : FetchOutcome) : Svc.t RemoteResult :=
  match outcome with
  | FetchRejected message => Svc.throw message
  | Response status json =>
      if negb (response_ok status)
      then Svc.throw (lit "Analysis failed: " ++ toStringRadix 10 status)
      else
        match json with
        | JsonInvalid message => Svc.throw message
        | JsonNull =>
            (* [analysisResult.riskScore] in determineSponsorStatus *)
            Svc.throw (lit "Cannot read properties of null (reading 'riskScore')")
        | JsonObject result => Svc.ret result
        end
  end.

Definition analyzeEmailWithAI (fetch : jsstring -> FetchOutcome)
    (emailData : EmailData) : Svc.t AnalysisResult :=
  Svc.tryCatch
    (addActivity {| act_type := lit "scanned";
                    act_message := lit "Analyzing: " ++ subject emailData;
                    act_timestamp := now |} ;;
     result ← fetchResult (fetch (emailContent emailData));
     let isSponsor := determineSponsorStatus result emailData in
     let finalResult := finalResult result isSponsor emailData in
     (if isSponsor
      then
        addActivity {| act_type := lit "sponsor";
                       act_message :=
                         lit "Sponsor detected: " ++ subject emailData;
                       act_timestamp := now |} ;;
        data ← Svc.lift (sponsorData result emailData);
        sendMessage (MsgSponsorDetected data)
      else Svc.ret tt) ;;
     Svc.ret finalResult)
    (fun message => Svc.ret (fallbackAnalysis message emailData)).

End Analysis.

(** ** The pipeline (content.js) *)

Record SponsorGuardAgent := {
  processedEmails : gset jsstring;
  sponsorEmails : list AnalysisResult
}.

(** What an invocation does to the ledger and to the outside, in the order
    in which it does it. *)
Inductive Event :=
  | EvHas (emailId : jsstring) (found : bool)   (* processedEmails.has *)
  | EvAdd (emailId : jsstring)                  (* processedEmails.add *)
  | EvSave (stored : gset jsstring)             (* chrome.storage.local.set *)
  | EvAnalyze (emailId : jsstring) (emailData : EmailData)
                                                (* the 'analyzeEmail' message *)
  | EvLabel (emailId : jsstring) (confidence : jsstring)
                                                (* the label put on the node *)
  | EvGoogleDocs (result : AnalysisResult)      (* the 'saveToGoogleDocs' message *)
  | EvClear.                                    (* processedEmails.clear *)

(** The text of the label, a briefcase (U+1F4BC, two code units) in
    front. *)
Definition labelText (confidence : jsstring) : jsstring :=
  [55357; 56508] ++ lit " SPONSOR DETECTED (" ++ confidence
  ++ lit " CONFIDENCE)".

(** [markAsSponsorEmail]: nothing when a label is found in the node, else
    the label becomes the first child of the node.  From then on the text
    of the label is part of the text of the node and of every node around
    it, [querySelector('.sponsor-guard-label')] finds the label from each
    of them, and the children of the node have moved by one place: a later
    read of any of these nodes gives another [Element]. *)
Definition markAsSponsorEmail (emailId : jsstring) (element : Element)
    (result : AnalysisResult) : list Event :=
  if has_sponsor_label element then []
  else [EvLabel emailId (confidence result)].

(** The node that got the label, as the code reads it from then on: the
    text of the label comes first in its text, and the label is found in
    it.  ([innerText] is only read when [textContent] is empty, which it
    no longer is.) *)
Definition labelled (confidence : jsstring) (element : Element) : Element :=
  {| textContent := labelText confidence ++ textContent element;
     innerText := labelText confidence ++ innerText element;
     data_thread_id := data_thread_id element;
     data_message_id := data_message_id element;
     data_legacy_thread_id := data_legacy_thread_id element;
     element_id := element_id element;
     sibling_index := sibling_index element;
     subjectElement := subjectElement element;
     senderElement := senderElement element;
     has_sponsor_label := true |}.

(** The result that [processEmail] makes up when the reply carries an error. *)
Definition contentFallbackResult (emailData : EmailData) : AnalysisResult :=
  {| error := None;
     isSponsor := true;
     originalEmail := Some emailData;
     riskScore := Some 30;
     status := Some (lit "sponsor");
     flags := None;
     extractedInfo :=
       Some {| companyName := Some (lit "Unknown Company");
               website := None;
               contactPerson := None;
               offer := Some (lit "Sponsor opportunity detected");
               agenda := None |};
     summary := None;
     processedAt := None |}.

(** The agent of a session that starts. *)
Definition newAgent : SponsorGuardAgent :=
  {| processedEmails := ∅; sponsorEmails := [] |}.

Definition pushSponsor (result : AnalysisResult) (a : SponsorGuardAgent)
    : SponsorGuardAgent :=
  {| processedEmails := processedEmails a;
     sponsorEmails := sponsorEmails a ++ [result] |}.

(** [this.processedEmails.clear()]. *)
Definition clearProcessed (a : SponsorGuardAgent) : SponsorGuardAgent :=
  {| processedEmails := ∅; sponsorEmails := sponsorEmails a |}.

(** [processEmail] up to [await this.saveProcessedEmails()]: the identity
    when the invocation goes on, [None] when it returns. *)
Definition processEmail_start (element : Element) (a : SponsorGuardAgent)
    : SponsorGuardAgent * list Event * option jsstring :=
  let emailId := getEmailId element in
  if bool_decide (emailId ∈ processedEmails a)
  then (a, [EvHas emailId true], None)
  else
    let a' := {| processedEmails := processedEmails a ∪ {[ emailId ]};
                 sponsorEmails := sponsorEmails a |} in
    (a', [EvHas emailId false; EvAdd emailId; EvSave (processedEmails a')],
     Some emailId).

(** [processEmail] after the reply to the 'analyzeEmail' message: what is
    left to do does not touch the ledger. *)
Definition processEmail_afterAnalysis (emailId : jsstring) (element : Element)
    (emailData : EmailData) (result : AnalysisResult) (a : SponsorGuardAgent)
    : SponsorGuardAgent * list Event :=
  if truthyOpt (error result)
  then
    let fallbackResult := contentFallbackResult emailData in
    (pushSponsor fallbackResult a, markAsSponsorEmail emailId element fallbackResult)
  else if isSponsorEmail result
  then
    (pushSponsor result a,
     markAsSponsorEmail emailId element result ++ [EvGoogleDocs result])
  else (a, []).

(** The node of an invocation as the invocation reads it, each time it
    runs: when it is called, when it goes on after the save, and when it
    goes on after the reply.  While the invocation is suspended the page
    changes: a label is put in the node or in a node around it, mail
    arrives and moves the node among its siblings. *)
Record Reads := {
  atCall : Element;       (* getEmailId(element) *)
  afterSave : Element;    (* extractEmailData(element) *)
  afterReply : Element    (* markAsSponsorEmail(element, ...) *)
}.

(** A node that stays as it is while the invocation runs. *)
Definition still (element : Element) : Reads :=
  {| atCall := element; afterSave := element; afterReply := element |}.

Section Pipeline.
Context `{Host}.

(** From the save to [await this.sendToAnalysis(emailData)]: the record
    that was sent, [None] when the invocation returns. *)
Definition processEmail_afterSave (emailId : jsstring) (element : Element)
    : list Event * option EmailData :=
  match extractEmailData element with
  | None => ([], None)
  | Some emailData =>
      if negb (hasSponsortKeywords emailData) then ([], None)
      else ([EvAnalyze emailId emailData], Some emailData)
  end.

(** One invocation run to its end with nothing else in between, [analysis]
    giving the reply to the 'analyzeEmail' message. *)
Definition processEmail (analysis : EmailData -> AnalysisResult)
    (element : Reads) (a : SponsorGuardAgent)
    : SponsorGuardAgent * list Event :=
  match processEmail_start (atCall element) a with
  | (a1, ev1, None) => (a1, ev1)
  | (a1, ev1, Some emailId) =>
      match processEmail_afterSave emailId (afterSave element) with
      | (ev2, None) => (a1, ev1 ++ ev2)
      | (ev2, Some emailData) =>
          let '(a3, ev3) :=
            processEmail_afterAnalysis emailId (afterReply element) emailData
              (analysis emailData) a1 in
          (a3, ev1 ++ ev2 ++ ev3)
      end
  end.

(** [for (const element of emailElements) await this.processEmail(element)]:
    the nodes were collected before the loop, and each is read when its
    turn comes. *)
Fixpoint processAll (analysis : EmailData -> AnalysisResult)
    (elements : list Reads) (a : SponsorGuardAgent)
    : SponsorGuardAgent * list Event :=
  match elements with
  | [] => (a, [])
  | element :: rest =>
      let '(a1, ev1) := processEmail analysis element a in
      let '(a2, ev2) := processAll analysis rest a1 in
      (a2, ev1 ++ ev2)
  end.

(** *** Invocations in flight

    Nothing awaits the [processEmail] of [sponsorGuardTest], and the
    observer starts [processNewEmails] while an earlier scan is suspended,
    so invocations interleave at their [await]s. *)
Inductive Task :=
  | AwaitSave (emailId : jsstring)
  | AwaitAnalysis (emailId : jsstring) (emailData : EmailData).

Record Session := {
  agent : SponsorGuardAgent;
  inFlight : list Task;
  trace : list Event
}.

(** A session starts with the ledger that [loadProcessedEmails] found under
    the key of the session, and nothing in flight; the key is the time of
    the start, so that the ledger of a new session is empty.  [init]
    awaits the load before it sets up the observer, the first scan and the
    message listener, so that the invocations of the extension come after
    it. *)
Definition startSession (stored : gset jsstring) : Session :=
  {| agent := {| processedEmails := stored; sponsorEmails := [] |};
     inFlight := [];
     trace := [] |}.

Definition newSession : Session := startSession ∅.

(** A call of [processEmail], up to its first [await]. *)
Definition call (element : Element) (s : Session) : Session :=
  match processEmail_start element (agent s) with
  | (a, ev, None) =>
      {| agent := a; inFlight := inFlight s; trace := trace s ++ ev |}
  | (a, ev, Some emailId) =>
      {| agent := a;
         inFlight := inFlight s ++ [AwaitSave emailId];
         trace := trace s ++ ev |}
  end.

(** The suspended invocation at index [i] goes on, from the save to the
    next [await] or from the reply [result] to the end.  [element] is its
    node as it is by then. *)
Definition resume (i : nat) (element : Element) (result : AnalysisResult)
    (s : Session) : Session :=
  match inFlight s !! i with
  | None => s
  | Some (AwaitSave emailId) =>
      match processEmail_afterSave emailId element with
      | (ev, None) =>
          {| agent := agent s;
             inFlight := delete i (inFlight s);
             trace := trace s ++ ev |}
      | (ev, Some emailData) =>
          {| agent := agent s;
             inFlight := <[ i := AwaitAnalysis emailId emailData ]> (inFlight s);
             trace := trace s ++ ev |}
      end
  | Some (AwaitAnalysis emailId emailData) =>
      let '(a, ev) :=
        processEmail_afterAnalysis emailId element emailData result (agent s) in
      {| agent := a;
         inFlight := delete i (inFlight s);
         trace := trace s ++ ev |}
  end.

(** [rescanEmails] up to the scan that it starts: the ledger is cleared;
    the invocations in flight stay. *)
Definition rescan (s : Session) : Session :=
  {| agent := clearProcessed (agent s);
     inFlight := inFlight s;
     trace := trace s ++ [EvClear] |}.

(** The listener of the 'resetProcessed' message, which the Refresh of the
    popup sends, up to the scan that it starts: the ledger is cleared, and
    a save is started that nothing awaits. *)
Definition reset (s : Session) : Session :=
  {| agent := clearProcessed (agent s);
     inFlight := inFlight s;
     trace := trace s ++ [EvClear; EvSave ∅] |}.

(** The steps of the invocations. *)
Inductive step : Session -> Session -> Prop :=
  | step_call element s : step s (call element s)
  | step_resume i element result s : step s (resume i element result s).

(** The sessions in which the ledger is never cleared. *)
Inductive reachable : Session -> Prop :=
  | reachable_start stored : reachable (startSession stored)
  | reachable_step s s' : reachable s -> step s s' -> reachable s'.

(** The steps of a session: those of its invocations, and the clears of
    the ledger; the scan after a clear is a sequence of calls. *)
Inductive sessionStep : Session -> Session -> Prop :=
  | session_invocation s s' : step s s' -> sessionStep s s'
  | session_rescan s : sessionStep s (rescan s)
  | session_reset s : sessionStep s (reset s).

(** All the sessions. *)
Inductive sessionReachable : Session -> Prop :=
  | session_start stored : sessionReachable (startSession stored)
  | session_next s s' :
      sessionReachable s -> sessionStep s s' -> sessionReachable s'.

End Pipeline.

(** The 'analyzeEmail' messages of a trace that were sent for [emailId]. *)
Definition isAnalysisOf (emailId : jsstring) (e : Event) : bool :=
  match e with
  | EvAnalyze emailId' _ => bool_decide (emailId' = emailId)
  | _ => false
  end.

Definition analysesOf (emailId : jsstring) (trace : list Event) : nat :=
  length (List.filter (isAnalysisOf emailId) trace).

(** The ledger was asked for [emailId], answered that it was absent, and
    took it in, at two consecutive places of the trace before place [k]. *)
Definition insertedBefore (emailId : jsstring) (k : nat) (trace : list Event)
    : Prop :=
  exists i, (S i < k)%nat /\
            trace !! i = Some (EvHas emailId false) /\
            trace !! S i = Some (EvAdd emailId).

(** The invocations suspended at the save that hold [emailId]. *)
Definition isAwaitSave (emailId : jsstring) (t : Task) : bool :=
  match t with
  | AwaitSave emailId' => bool_decide (emailId' = emailId)
  | AwaitAnalysis _ _ => false
  end.

Definition pendingSaves (emailId : jsstring) (tasks : list Task) : nat :=
  length (List.filter (isAwaitSave emailId) tasks).

(** What every step of a session keeps: an identity is on its way to the
    analysis, or was analysed, at most once in all, and then it is in the
    ledger and its check and insert are in the trace. *)
Record ledgerInvariant (s : Session) : Prop := {
  inv_once : forall emailId,
    (analysesOf emailId (trace s) + pendingSaves emailId (inFlight s) <= 1)%nat;
  inv_marked : forall emailId,
    (0 < analysesOf emailId (trace s) + pendingSaves emailId (inFlight s))%nat ->
    emailId ∈ processedEmails (agent s);
  inv_pending : forall emailId,
    AwaitSave emailId ∈ inFlight s ->
    insertedBefore emailId (length (trace s)) (trace s);
  inv_analysed : forall k emailId emailData,
    trace s !! k = Some (EvAnalyze emailId emailData) ->
    insertedBefore emailId k (trace s)
}.

(** The clears of the ledger in a trace, and the inserts of [emailId]. *)
Definition isClear (e : Event) : bool :=
  match e with
  | EvClear => true
  | _ => false
  end.

Definition clearsOf (trace : list Event) : nat :=
  length (List.filter isClear trace).

Definition isInsertOf (emailId : jsstring) (e : Event) : bool :=
  match e with
  | EvAdd emailId' => bool_decide (emailId' = emailId)
  | _ => false
  end.

Definition insertsOf (emailId : jsstring) (trace : list Event) : nat :=
  length (List.filter (isInsertOf emailId) trace).

(** Events that neither clear the ledger nor insert into it. *)
Definition ledgerQuiet (ev : list Event) : Prop :=
  forall e, e ∈ ev ->
    isClear e = false /\ forall emailId, isInsertOf emailId e = false.

(** What every step of a session keeps, clears included: an identity was
    inserted at most once since the last clear, so at most once more than
    there were clears; each insert sends at most one invocation on its way
    to the analysis; and the check and the insert are in the trace before
    the analysis. *)
Record epochInvariant (s : Session) : Prop := {
  epoch_inserts : forall emailId,
    (insertsOf emailId (trace s)
     <= clearsOf (trace s)
        + (if bool_decide (emailId ∈ processedEmails (agent s)) then 1 else 0))%nat;
  epoch_analyses : forall emailId,
    (analysesOf emailId (trace s) + pendingSaves emailId (inFlight s)
     <= insertsOf emailId (trace s))%nat;
  epoch_pending : forall emailId,
    AwaitSave emailId ∈ inFlight s ->
    insertedBefore emailId (length (trace s)) (trace s);
  epoch_analysed : forall k emailId emailData,
    trace s !! k = Some (EvAnalyze emailId emailData) ->
    insertedBefore emailId k (trace s)
}.

(** ** The fallback identity in the words of the specification

    A rolling hash that multiplies by 31 and adds each character code, the
    32-bit overflow wrapped to an unsigned value, encoded in base 36 and put
    together with the position as [getEmailId] does. *)
Definition spec_rollingHash (str : jsstring) : Z :=
  fold_left (fun hash char => (hash * 31 + char) mod 2 ^ 32) str 0.

Definition spec_fallbackId (element : Element) : jsstring :=
  lit "content_"
  ++ toStringRadix 36 (spec_rollingHash (slice0 200 (textContent element)))
  ++ lit "_" ++ toStringRadix 10 (position element).

(** The same accumulation without any overflow. *)
Definition poly31 (str : jsstring) : Z :=
  fold_left (fun hash char => 31 * hash + char) str 0.

(** No identifier attribute on the node: the four tests of [getEmailId]
    fail. *)
Definition noHostIdentifier (element : Element) : Prop :=
  truthyOpt (data_thread_id element) = false /\
  truthyOpt (data_message_id element) = false /\
  truthyOpt (data_legacy_thread_id element) = false /\
  truthyStr (element_id element) = false.

(** ** The reconciler in the words of the specification *)
Definition spec_isSponsor (result : AnalysisResult) : Prop :=
  isSponsor result = true
  \/ truthyOpt (info companyName (extractedInfo result)) = true
  \/ truthyOpt (info offer (extractedInfo result)) = true
  \/ (exists n, riskScore result = Some n /\ n < 50)
  \/ (exists fs flag, flags result = Some fs /\ In flag fs
                      /\ flag_type flag = positive).

(** ** Outcomes of the remote call *)

(** The remote call fails: the transport fails or the status is not a
    success. *)
Definition remoteFailed (outcome : FetchOutcome) : Prop :=
  match outcome with
  | FetchRejected _ => True
  | Response status _ => response_ok status = false
  end.

(** The remote call succeeds with the JSON object [result]. *)
Definition remoteSucceeded (outcome : FetchOutcome) (result : RemoteResult)
    : Prop :=
  exists status,
    outcome = Response status (JsonObject result) /\ response_ok status = true.

Definition newService : BackgroundService :=
  {| recentActivities := []; sentMessages := [] |}.

(** ** Sample inputs *)

(** The node that [sponsorGuardTest] builds and inserts as the first child
    of the body. *)
Definition testEmailText : jsstring :=
  [10] ++ lit "      From: marketing@testcompany.com" ++ [10]
  ++ lit "      Subject: Brand Partnership Opportunity" ++ [10]
  ++ lit "      Hi! We'd love to partner with you for a sponsored post about our new product. " ++ [10]
  ++ lit "      We're a growing company looking for influencers to promote our brand. " ++ [10]
  ++ lit "      This is a great business opportunity for collaboration." ++ [10]
  ++ lit "    ".

Definition testEmail : Element :=
  {| textContent := testEmailText;
     innerText := testEmailText;
     data_thread_id := None;
     data_message_id := None;
     data_legacy_thread_id := None;
     element_id := [];
     sibling_index := Some 0%nat;
     subjectElement := None;
     senderElement := None;
     has_sponsor_label := false |}.

(** A node without identifier whose text has no sponsor keyword. *)
Definition plainEmail : Element :=
  {| textContent := lit "Lunch on Friday at noon? Let me know, see you then.";
     innerText := lit "Lunch on Friday at noon? Let me know, see you then.";
     data_thread_id := None;
     data_message_id := None;
     data_legacy_thread_id := None;
     element_id := [];
     sibling_index := Some 3%nat;
     subjectElement := None;
     senderElement := None;
     has_sponsor_label := false |}.


(** A host whose patterns capture what they capture on [testEmailText]. *)
Definition testHost : Host :=
  {| matchSubjectMarker := fun _ => Some (lit "Brand Partnership Opportunity");
     matchLeadingLine := fun _ => None;
     matchEmailAddress := fun _ => Some (lit "marketing@testcompany.com");
     matchCompany := fun _ => None;
     matchWebsite := fun _ => None;
     now := lit "2024-01-01T00:00:00.000Z";
     location_href := lit "https://mail.google.com/mail/u/0/" |}.

(** A host none of whose patterns match. *)
Definition quietHost : Host :=
  {| matchSubjectMarker := fun _ => None;
     matchLeadingLine := fun _ => None;
     matchEmailAddress := fun _ => None;
     matchCompany := fun _ => None;
     matchWebsite := fun _ => None;
     now := lit "2024-01-01T00:00:00.000Z";
     location_href := lit "https://mail.google.com/mail/u/0/" |}.

(** Extractors whose patterns find what they find in [testEmailText]: a
    company after "We're", no URL, an agenda after "We'd love to partner",
    a contact after "This is", and no amount. *)
Definition testExtractors : SponsorExtractors :=
  {| extractCompanyFromEmail := fun _ => Some (lit "a growing company looking for i");
     matchUrlDomains := fun _ => [];
     extractAgendaFromEmail :=
       fun _ => lit "with you for a sponsored post about our new product";
     extractContactFromEmail := fun _ => Some (lit "a great business opportuni");
     extractMoneyFromEmail := fun _ => lit "Not specified" |}.

(** A record that only the longer keyword lists recognise. *)
Definition youtubeRecord : EmailData :=
  {| id := lit "msg_1";
     subject := lit "Your YouTube channel";
     sender := lit "fan@gmail.com";
     body := lit "I watched every video, thank you for making them.";
     timestamp := lit "2024-01-01T00:00:00.000Z";
     url := lit "https://mail.google.com/mail/u/0/" |}.

(** The record of [testEmail]. *)
Definition testRecord : EmailData :=
  {| id := lit "content_ghdc61_0";
     subject := lit "Brand Partnership Opportunity";
     sender := lit "marketing@testcompany.com";
     body := testEmailText;
     timestamp := lit "2024-01-01T00:00:00.000Z";
     url := lit "https://mail.google.com/mail/u/0/" |}.

(** A pitch with a URL, from a node on which no sender was found. *)
Definition pitchText : jsstring :=
  lit "Hello, we want to sponsor your next video. Details: https://acme.example/creators".

Definition pitchRecord : EmailData :=
  {| id := lit "msg_2";
     subject := lit "Sponsorship proposal";
     sender := lit "Unknown Sender";
     body := pitchText;
     timestamp := lit "2024-01-01T00:00:00.000Z";
     url := lit "https://mail.google.com/mail/u/0/" |}.

(** Extractors whose patterns find what they find in [pitchRecord]: no
    company, the domain of the URL, an agenda after "sponsor", no contact
    and no amount. *)
Definition pitchExtractors : SponsorExtractors :=
  {| extractCompanyFromEmail := fun _ => None;
     matchUrlDomains := fun _ => [lit "acme.example"];
     extractAgendaFromEmail := fun _ => lit "your next video";
     extractContactFromEmail := fun _ => None;
     extractMoneyFromEmail := fun _ => lit "Not specified" |}.

(** An answer of the endpoint with a high risk score and nothing else. *)
Definition highRiskResponse : RemoteResult :=
  {| r_error := None;
     r_riskScore := Some 90;
     r_status := Some (lit "danger");
     r_extractedInfo := None;
     r_flags := Some [];
     r_summary := None |}.

(** The answer of the endpoint in the README of the repository. *)
Definition readmeResponse : RemoteResult :=
  {| r_error := None;
     r_riskScore := Some 25;
     r_status := Some (lit "safe");
     r_extractedInfo :=
       Some {| companyName := Some (lit "Tech Company Inc");
               website := Some (lit "https://company.com");
               contactPerson := Some (lit "John Smith");
               offer := Some (lit "Product review partnership with $500 compensation");
               agenda := None |};
     r_flags := Some [];
     r_summary := None |}.

(** A reply with a risk score of zero and nothing else. *)
Definition zeroScoreResult : AnalysisResult :=
  {| error := None;
     isSponsor := false;
     originalEmail := None;
     riskScore := Some 0;
     status := None;
     flags := None;
     extractedInfo := None;
     summary := None;
     processedAt := None |}.

(** A node without identifier whose hash is negative as a 32-bit integer. *)
Definition zzzzzz : Element :=
  {| textContent := lit "zzzzzz";
     innerText := lit "zzzzzz";
     data_thread_id := None;
     data_message_id := None;
     data_legacy_thread_id := None;
     element_id := [];
     sibling_index := None;
     subjectElement := None;
     senderElement := None;
     has_sponsor_label := false |}.

(** The test email goes to the analysis; the Refresh of the popup clears
    the ledger; the scan that follows calls [processEmail] for the node
    again. *)
Definition refreshedSession : Session :=
  resume (H := testHost) 1 testEmail zeroScoreResult
    (call testEmail
       (reset
          (resume (H := testHost) 0 testEmail zeroScoreResult
             (call testEmail newSession)))).

(** ** Scans and statistics (content.js) *)

(** The test of [getEmailElements] on a node that the selectors found. *)
Definition hasMeaningfulContent (el : Element) : bool :=
  let text :=
    if truthyStr (textContent el) then textContent el else innerText el in
  truthyStr text && (50 <? Z.of_nat (length text))
  && negb (has_sponsor_label el).

(** [getEmailElements]: [found] is the concatenation of what
    [querySelectorAll] gives for the selectors, in their order. *)
Definition getEmailElements (found : list Element) : list Element :=
  List.filter hasMeaningfulContent found.

(** The test of [processNewEmails] on a node, against the ledger as it is
    when the scan starts. *)
Definition isNewEmail (a : SponsorGuardAgent) (el : Element) : bool :=
  let id := getEmailId el in
  truthyStr id && negb (bool_decide (id ∈ processedEmails a)).

(** What [getStats] reports ([isProcessing] is never set). *)
Record AgentStats := {
  stats_processedEmails : nat;
  stats_sponsorEmails : nat;
  stats_isProcessing : bool
}.

Definition getStats (a : SponsorGuardAgent) : AgentStats :=
  {| stats_processedEmails := size (processedEmails a);
     stats_sponsorEmails := length (sponsorEmails a);
     stats_isProcessing := false |}.

(** A node of a scan: as [getEmailElements] finds it when the scan
    starts, and as its invocation reads it when its turn comes. *)
Record ScannedNode := {
  asFound : Element;
  reads : Reads
}.

(** [getEmailElements], on nodes that are read again later. *)
Definition scanEmailElements (found : list ScannedNode) : list ScannedNode :=
  List.filter (fun node => hasMeaningfulContent (asFound node)) found.

Section Scans.
Context `{Host}.

(** The scans, each run to its end with nothing else in between. *)
Definition processExistingEmails (analysis : EmailData -> AnalysisResult)
    (found : list ScannedNode) (a : SponsorGuardAgent)
    : SponsorGuardAgent * list Event :=
  let emailElements := scanEmailElements found in
  processAll analysis (List.map reads emailElements) a.

Definition processNewEmails (analysis : EmailData -> AnalysisResult)
    (found : list ScannedNode) (a : SponsorGuardAgent)
    : SponsorGuardAgent * list Event :=
  let emailElements := scanEmailElements found in
  let newEmails :=
    List.filter (fun node => isNewEmail a (asFound node)) emailElements in
  if (0 <? length newEmails)%nat
  then processAll analysis (List.map reads newEmails) a
  else (a, []).

(** [rescanEmails], the scan it starts run to its end. *)
Definition rescanEmails (analysis : EmailData -> AnalysisResult)
    (found : list ScannedNode) (a : SponsorGuardAgent)
    : SponsorGuardAgent * list Event :=
  let a0 := clearProcessed a in
  let '(a1, ev) := processExistingEmails analysis found a0 in
  (a1, EvClear :: ev).

(** The listener of the 'resetProcessed' message: clear, save, scan. *)
Definition resetProcessed (analysis : EmailData -> AnalysisResult)
    (found : list ScannedNode) (a : SponsorGuardAgent)
    : SponsorGuardAgent * list Event :=
  let a0 := clearProcessed a in
  let '(a1, ev) := processExistingEmails analysis found a0 in
  (a1, EvClear :: EvSave (processedEmails a0) :: ev).

End Scans.

(** An event other than a ledger check that found the identity. *)
Definition isSkip (e : Event) : bool :=
  match e with
  | EvHas _ true => true
  | _ => false
  end.

(** The identities under which the invocations of a list of nodes are
    called. *)
Definition identities (elements : list Reads) : gset jsstring :=
  list_to_set (List.map (fun element => getEmailId (atCall element)) elements).

(** A node of the inbox list that carries a thread identifier. *)
Definition threadRow : Element :=
  {| textContent := lit "Acme Corp - Partnership proposal for your channel - Hi, we would like to";
     innerText := lit "Acme Corp - Partnership proposal for your channel - Hi, we would like to";
     data_thread_id := Some (lit "18c2f0a9");
     data_message_id := None;
     data_legacy_thread_id := Some (lit "18c2f0a9");
     element_id := lit ":2k";
     sibling_index := Some 4%nat;
     subjectElement := Some (lit "Partnership proposal for your channel");
     senderElement :=
       Some {| se_email := Some (lit "deals@acme.example");
               se_name := Some (lit "Acme Corp");
               se_textContent := lit "Acme Corp" |};
     has_sponsor_label := false |}.

(** The reply of the service to the record of [testEmail] when the endpoint
    answers as in the README. *)
Definition sponsorReply : AnalysisResult :=
  {| error := None;
     isSponsor := true;
     originalEmail := Some testRecord;
     riskScore := Some 25;
     status := Some (lit "safe");
     flags := Some [];
     extractedInfo := r_extractedInfo readmeResponse;
     summary := None;
     processedAt := Some (lit "2024-01-01T00:00:00.000Z") |}.

(** A node of a scan that stays as the scan found it. *)
Definition unchanged (element : Element) : ScannedNode :=
  {| asFound := element; reads := still element |}.

(** The result that [sponsorGuardTest] makes up. *)
Definition sponsorGuardTestResult : AnalysisResult :=
  {| error := None;
     isSponsor := true;
     originalEmail := None;
     riskScore := Some 25;
     status := None;
     flags := None;
     extractedInfo :=
       Some {| companyName := Some (lit "Test Company");
               website := None;
               contactPerson := None;
               offer := Some (lit "Brand partnership opportunity");
               agenda := None |};
     summary := None;
     processedAt := None |}.

(** The record that [sponsorGuardTest] gives to [extractSponsorDetails];
    it has no id, timestamp or url. *)
Definition sponsorGuardTestData : EmailData :=
  {| id := [];
     subject := lit "Brand Partnership Opportunity";
     sender := lit "marketing@testcompany.com";
     body := lit "Hi! We'd love to partner with you for a sponsored post about our new product. We're a growing company looking for influencers to promote our brand. This is a great business opportunity for collaboration. We offer $500 per post.";
     timestamp := [];
     url := [] |}.

(** Extractors whose patterns find what they find in that record: as in
    [testEmailText], and an amount. *)
Definition sponsorGuardTestExtractors : SponsorExtractors :=
  {| extractCompanyFromEmail := fun _ => Some (lit "a growing company looking for i");
     matchUrlDomains := fun _ => [];
     extractAgendaFromEmail :=
       fun _ => lit "with you for a sponsored post about our new product";
     extractContactFromEmail := fun _ => Some (lit "a great business opportuni");
     extractMoneyFromEmail := fun _ => lit "$500" |}.

(** An agent that has the test email in its ledger already. *)
Definition seenTestEmail : SponsorGuardAgent :=
  {| processedEmails := {[ getEmailId testEmail ]};
     sponsorEmails := [sponsorReply] |}.

(** ** The message handler of the service (background.js) *)

Record ServiceStats := {
  st_scannedEmails : Z;
  st_sponsorEmails : Z;
  st_docsUpdates : Z
}.

(** The keys of [this.stats]. *)
Inductive StatType := ScannedEmails | SponsorEmails | DocsUpdates.

Definition getStat (statType : StatType) (stats : ServiceStats) : Z :=
  match statType with
  | ScannedEmails => st_scannedEmails stats
  | SponsorEmails => st_sponsorEmails stats
  | DocsUpdates => st_docsUpdates stats
  end.

(** [this.stats[statType]++]. *)
Definition incrementStat (statType : StatType) (stats : ServiceStats)
    : ServiceStats :=
  match statType with
  | ScannedEmails =>
      {| st_scannedEmails := st_scannedEmails stats + 1;
         st_sponsorEmails := st_sponsorEmails stats;
         st_docsUpdates := st_docsUpdates stats |}
  | SponsorEmails =>
      {| st_scannedEmails := st_scannedEmails stats;
         st_sponsorEmails := st_sponsorEmails stats + 1;
         st_docsUpdates := st_docsUpdates stats |}
  | DocsUpdates =>
      {| st_scannedEmails := st_scannedEmails stats;
         st_sponsorEmails := st_sponsorEmails stats;
         st_docsUpdates := st_docsUpdates stats + 1 |}
  end.

(** [updateStats]: the counter goes up, then the write to
    [chrome.storage.local] is awaited; [storageSet] says whether the write
    resolves ([None]) or is rejected with a message. *)
Definition updateStats (storageSet : StatType -> Z -> option jsstring)
    (statType : StatType) (stats : ServiceStats)
    : (jsstring + unit) * ServiceStats :=
  let stats' := incrementStat statType stats in
  match storageSet statType (getStat statType stats') with
  | None => (inr tt, stats')
  | Some message => (inl message, stats')
  end.

(** [sendResponse({ error: error.message })]. *)
Definition errorReply (message : jsstring) : AnalysisResult :=
  {| error := Some message;
     isSponsor := false;
     originalEmail := None;
     riskScore := None;
     status := None;
     flags := None;
     extractedInfo := None;
     summary := None;
     processedAt := None |}.

Section Handler.
Context `{Host} `{SponsorExtractors}.

(** The 'analyzeEmail' case of [handleMessage]: what is given to
    [sendResponse], and the service and its counters afterwards. *)
Definition handleAnalyzeEmail (fetch : jsstring -> FetchOutcome)
    (storageSet : StatType -> Z -> option jsstring) (emailData : EmailData)
    (service : BackgroundService) (stats : ServiceStats)
    : AnalysisResult * BackgroundService * ServiceStats :=
  match analyzeEmailWithAI fetch emailData service with
  | (inl message, service1) => (errorReply message, service1, stats)
  | (inr analysis, service1) =>
      match updateStats storageSet ScannedEmails stats with
      | (inl message, stats1) => (errorReply message, service1, stats1)
      | (inr _, stats1) =>
          if isSponsor analysis
          then
            match updateStats storageSet SponsorEmails stats1 with
            | (inl message, stats2) => (errorReply message, service1, stats2)
            | (inr _, stats2) => (analysis, service1, stats2)
            end
          else (analysis, service1, stats1)
      end
  end.

(** *** The simplified service (background-simple.js) *)

Definition simple_extractBasicInfo (emailData : EmailData) : ExtractedInfo :=
  let text := toLowerCase (body emailData) in
  let companyMatch := matchCompany text in
  let websiteMatch := matchWebsite (body emailData) in
  {| companyName :=
       Some (match companyMatch with
             | Some g => trim g
             | None => lit "Not specified"
             end);
     website :=
       Some (match websiteMatch with
             | Some g => g
             | None => lit "Not specified"
             end);
     contactPerson :=
       Some (orStr (Some (sender emailData)) (lit "Not specified"));
     offer := Some (lit "Please check email for details");
     agenda := None |}.

(** The fallback analysis of its [catch] block. *)
Definition simple_fallbackAnalysis (message : jsstring) (emailData : EmailData)
    : AnalysisResult :=
  {| error := Some message;
     isSponsor := fallbackSponsorDetection emailData;
     originalEmail := Some emailData;
     riskScore := Some 50;
     status := Some (lit "warning");
     flags :=
       Some [ {| flag_type := lit "yellow";
                 flag_message :=
                   lit "API unavailable - using fallback detection" |} ];
     extractedInfo := Some (simple_extractBasicInfo emailData);
     summary := None;
     processedAt := None |}.

Definition simple_analyzeEmailWithAI (fetch : jsstring -> FetchOutcome)
    (emailData : EmailData) : Svc.t AnalysisResult :=
  Svc.tryCatch
    (result ← fetchResult (fetch (emailContent emailData));
     let isSponsor := determineSponsorStatus result emailData in
     Svc.ret (finalResult result isSponsor emailData))
    (fun message => Svc.ret (simple_fallbackAnalysis message emailData)).

End Handler.

(** The fields of a result that carry the verdict. *)
Definition verdict (result : AnalysisResult)
    : option jsstring * bool * option Z * option jsstring * option (list Flag) :=
  (error result, isSponsor result, riskScore result, status result,
   flags result).

(** A storage whose writes all resolve. *)
Definition storageWorks : StatType -> Z -> option jsstring := fun _ _ => None.



(** ** Sponsor details and summaries (the content script of background.js) *)

(** [s.slice(0, e)] for any integer [e]: a negative [e] counts from the
    end. *)
Definition sliceTo (e : Z) (s : jsstring) : jsstring :=
  if e <? 0 then take (Z.to_nat (Z.of_nat (length s) + e)) s
  else take (Z.to_nat e) s.

Definition limitText (text : jsstring) (maxLength : Z) : jsstring :=
  if Z.of_nat (length text) <=? maxLength then text
  else sliceTo (maxLength - 3) text ++ lit "...".

Section SponsorDetails.
Context `{SponsorExtractors}.

(** [extractSponsorDetails]: the exception that
    [extractWebsiteFromEmail] throws ([inl], with its message), or the
    details ([inr]). *)
Definition extractSponsorDetails (result : AnalysisResult)
    (emailData : EmailData) : jsstring + SponsorData :=
  let ei := extractedInfo result in
  let companyName :=
    orStr (info companyName ei)
      (orStr (extractCompanyFromEmail emailData) (lit "Unknown Company")) in
  match orThrowing (info website ei) (extractWebsiteFromEmail emailData) with
  | inl message => inl message
  | inr found =>
      let website := orStr (Some found) (lit "Not provided") in
      let agenda :=
        orStr (info offer ei)
          (orStr (info agenda ei)
             (orStr (Some (extractAgendaFromEmail emailData))
                (lit "Sponsorship opportunity"))) in
      let riskScore := default 0 (riskScore result) in
      let contactPerson :=
        orStr (info contactPerson ei)
          (orStr (extractContactFromEmail emailData)
             (orStr (Some (sender emailData)) (lit "Not specified"))) in
      let moneyOffered :=
        orStr (Some (extractMoneyFromEmail emailData)) (lit "Not specified") in
      inr {| sd_companyName := companyName;
             sd_website := website;
             sd_agenda := limitText agenda 120;
             sd_riskScore := riskScore;
             sd_contactPerson := contactPerson;
             sd_moneyOffered := moneyOffered;
             sd_emailSubject := subject emailData;
             sd_timestamp := timestamp emailData;
             sd_extractedInfo := default emptyInfo ei |}
  end.

End SponsorDetails.

Record Summary := {
  line1 : jsstring;
  line2 : jsstring;
  summary_type : jsstring
}.

Record SummaryData := {
  sum_id : jsstring;
  sum_subject : jsstring;
  sum_sender : jsstring;
  sum_timestamp : jsstring;
  sum_summary : Summary;
  sum_url : jsstring
}.

(** [saveEmailSummary]: the list that is written to the storage, from the
    list that was read from it. *)
Definition saveEmailSummary (emailData : EmailData) (summary : Summary)
    (summaries : list SummaryData) : list SummaryData :=
  let summaryData :=
    {| sum_id := id emailData;
       sum_subject := subject emailData;
       sum_sender := sender emailData;
       sum_timestamp := timestamp emailData;
       sum_summary := summary;
       sum_url := url emailData |} in
  let filteredSummaries :=
    List.filter (fun s => negb (bool_decide (sum_id s = id emailData)))
      summaries in
  let limitedSummaries := take 100 (summaryData :: filteredSummaries) in
  limitedSummaries.

(** [s.split(/[.!?]+/)]: the pieces between the runs of '.', '!' and '?'.
    [cur] is the piece being read, last code unit first; [inRun] says that
    the code unit before was of a run. *)
Definition isSentenceEnd (c : Z) : bool :=
  (c =? 46) || (c =? 33) || (c =? 63).

Fixpoint splitSentences_from (s cur : jsstring) (inRun : bool) : list jsstring :=
  match s with
  | [] => [rev cur]
  | c :: s' =>
      if isSentenceEnd c
      then if inRun then splitSentences_from s' cur true
           else rev cur :: splitSentences_from s' [] true
      else splitSentences_from s' (c :: cur) false
  end.

Definition splitSentences (s : jsstring) : list jsstring :=
  splitSentences_from s [] false.

(** [s.split('@')[0]]: what comes before the first '@'. *)
Fixpoint beforeAt (s : jsstring) : jsstring :=
  match s with
  | [] => []
  | c :: s' => if c =? 64 then [] else c :: beforeAt s'
  end.

Definition generateFallbackSummary (emailData : EmailData) : Summary :=
  let lowered := toLowerCase (body emailData) in
  let '(category, action) :=
    if includes lowered (lit "sponsor") || includes lowered (lit "partnership")
       || includes lowered (lit "collaboration")
    then (lit "Sponsor Opportunity", lit "Review and respond if interested")
    else if includes lowered (lit "meeting") || includes lowered (lit "call")
            || includes lowered (lit "schedule")
    then (lit "Meeting Request", lit "Check calendar and respond")
    else if includes lowered (lit "invoice") || includes lowered (lit "payment")
            || includes lowered (lit "bill")
    then (lit "Financial", lit "Review payment details")
    else if includes lowered (lit "urgent") || includes lowered (lit "important")
            || includes lowered (lit "asap")
    then (lit "Urgent", lit "Requires immediate attention")
    else
      let sentences :=
        List.filter (fun s => (10 <? length (trim s))%nat)
          (splitSentences (body emailData)) in
      match sentences with
      | first :: _ => (lit "Email", slice0 80 (trim first) ++ lit "...")
      | [] => (lit "Email", lit "Read and respond as needed")
      end in
  {| line1 := category ++ lit " from " ++ beforeAt (sender emailData);
     line2 := action;
     summary_type := lit "fallback" |}.

(** ** The popup (popup.js) *)

Definition getRiskLevel (score : Z) : jsstring :=
  if score >? 70 then lit "HIGH RISK"
  else if score >? 40 then lit "MEDIUM RISK"
  else lit "LOW RISK".

(** The status of the risk row of [displayVerificationResult]. *)
Definition riskStatus (riskScore : Z) : jsstring :=
  if riskScore >? 70 then lit "failed"
  else if riskScore >? 40 then lit "warning"
  else lit "passed".

(** The verdict that the three flag checks share: green passes, else red
    fails, else a warning; no flag about the matter is a warning too. *)
Definition hasType (ty : string) (fs : list Flag) : bool :=
  existsb (fun flag => bool_decide (flag_type flag = lit ty)) fs.

Definition aboutDomain (flag : Flag) : bool :=
  includes (toLowerCase (flag_message flag)) (lit "domain")
  && negb (includes (toLowerCase (flag_message flag)) (lit "temporary")).

Definition getDomainStatus (flags : list Flag) : jsstring :=
  let domainFlags := List.filter aboutDomain flags in
  if (length domainFlags =? 0)%nat then lit "warning"
  else
    let hasGreen := hasType "green" domainFlags in
    let hasRed := hasType "red" domainFlags in
    if hasGreen then lit "passed"
    else if hasRed then lit "failed"
    else lit "warning".

Definition aboutWebsite (flag : Flag) : bool :=
  includes (toLowerCase (flag_message flag)) (lit "website")
  || includes (toLowerCase (flag_message flag)) (lit "url")
  || includes (toLowerCase (flag_message flag)) (lit "live").

(** The status and the message of [getWebsiteStatus]. *)
Definition getWebsiteStatus (flags : list Flag) : jsstring * jsstring :=
  let websiteFlags := List.filter aboutWebsite flags in
  if (length websiteFlags =? 0)%nat then (lit "warning", lit "Not checked")
  else
    let hasGreen := hasType "green" websiteFlags in
    let hasRed := hasType "red" websiteFlags in
    if hasGreen then (lit "passed", lit "Accessible")
    else if hasRed then (lit "failed", lit "Not accessible")
    else (lit "warning", lit "Needs verification").

Definition aboutLinkedIn (flag : Flag) : bool :=
  includes (toLowerCase (flag_message flag)) (lit "linkedin")
  || includes (toLowerCase (flag_message flag)) (lit "profile").

(** The status and the message of [extractLinkedInFromFlags]. *)
Definition extractLinkedInFromFlags (flags : list Flag) : jsstring * jsstring :=
  let linkedinFlags := List.filter aboutLinkedIn flags in
  if (length linkedinFlags =? 0)%nat then (lit "warning", lit "Not checked")
  else
    let hasGreen := hasType "green" linkedinFlags in
    let hasRed := hasType "red" linkedinFlags in
    if hasGreen then (lit "passed", lit "Profile verified")
    else if hasRed then (lit "failed", lit "Profile not found")
    else (lit "warning", lit "Needs verification").

(** [addActivity] of the popup: newest first, ten at most. *)
Definition popupMaxActivities : nat := 10.

Definition popup_addActivity {A} (activity : A) (activities : list A) : list A :=
  let unshifted := activity :: activities in
  if (popupMaxActivities <? length unshifted)%nat
  then removelast unshifted else unshifted.

(** * Properties *)

(** ** 32-bit arithmetic *)

Lemma toInt32_congr (a b : Z) :
  a mod 2 ^ 32 = b mod 2 ^ 32 -> toInt32 a = toInt32 b.
Proof. unfold toInt32. intros ->. reflexivity. Qed.

Lemma toInt32_mod (z : Z) : toInt32 z mod 2 ^ 32 = z mod 2 ^ 32.
Proof.
  unfold toInt32. cbv zeta.
  destruct (2 ^ 31 <=? z mod 2 ^ 32).
  - rewrite Zminus_mod, Z_mod_same_full, Z.sub_0_r, !Zmod_mod. reflexivity.
  - apply Zmod_mod.
Qed.

Lemma toInt32_range (z : Z) : - 2 ^ 31 <= toInt32 z < 2 ^ 31.
Proof.
  unfold toInt32. cbv zeta.
  pose proof (Z.mod_pos_bound z (2 ^ 32) ltac:(lia)).
  destruct (Z.leb_spec (2 ^ 31) (z mod 2 ^ 32)); lia.
Qed.

Lemma toInt32_idemp (z : Z) : toInt32 (toInt32 z) = toInt32 z.
Proof. apply toInt32_congr, toInt32_mod. Qed.

Lemma toInt32_small (z : Z) : - 2 ^ 31 <= z < 2 ^ 31 -> toInt32 z = z.
Proof.
  intros Hz. unfold toInt32. cbv zeta.
  destruct (Z.leb_spec (2 ^ 31) (z mod 2 ^ 32)) as [Hm | Hm].
  - destruct (Z.neg_nonneg_cases z) as [Hneg | Hpos].
    + assert (z mod 2 ^ 32 = z + 2 ^ 32); [| lia].
      symmetry. apply Z.mod_unique_pos with (q := -1); lia.
    + rewrite Z.mod_small in Hm by lia. lia.
  - destruct (Z.neg_nonneg_cases z) as [Hneg | Hpos].
    + assert (z mod 2 ^ 32 = z + 2 ^ 32) as E; [| lia].
      symmetry. apply Z.mod_unique_pos with (q := -1); lia.
    + apply Z.mod_small. lia.
Qed.

Lemma and32_diag (x : Z) : and32 x x = toInt32 x.
Proof. unfold and32. rewrite Z.land_diag. apply toInt32_idemp. Qed.

Lemma shl32_5 (x : Z) : shl32 x 5 = toInt32 (32 * x).
Proof.
  unfold shl32. change (5 mod 32) with 5.
  rewrite Z.shiftl_mul_pow2 by lia. change (2 ^ 5) with 32.
  apply toInt32_congr.
  rewrite Z.mul_comm, Zmult_mod, toInt32_mod, <- Zmult_mod. reflexivity.
Qed.

(** One turn of the loop of [simpleHash] multiplies by 31 and adds the
    character code, modulo 2^32. *)
Lemma simpleHash_step_spec (hash char : Z) :
  simpleHash_step hash char = toInt32 (31 * hash + char).
Proof.
  unfold simpleHash_step. cbv zeta. rewrite and32_diag, shl32_5.
  apply toInt32_congr.
  rewrite Zplus_mod, Zminus_mod, toInt32_mod, <- Zminus_mod, <- Zplus_mod.
  f_equal. lia.
Qed.

Lemma simpleHash_step_toInt32 (hash char : Z) :
  simpleHash_step (toInt32 hash) char = toInt32 (31 * hash + char).
Proof.
  rewrite simpleHash_step_spec. apply toInt32_congr.
  rewrite Zplus_mod, Zmult_mod, toInt32_mod, <- Zmult_mod, <- Zplus_mod.
  reflexivity.
Qed.

Lemma simpleHash_fold (str : jsstring) (p : Z) :
  fold_left simpleHash_step str (toInt32 p)
  = toInt32 (fold_left (fun hash char => 31 * hash + char) str p).
Proof.
  revert p. induction str as [| c str IH]; intros p; simpl.
  - reflexivity.
  - rewrite simpleHash_step_toInt32. apply IH.
Qed.

(** The loop of [simpleHash] leaves the signed 32-bit value of the
    polynomial in 31. *)
Lemma simpleHash_loop_poly31 (str : jsstring) :
  simpleHash_loop str = toInt32 (poly31 str).
Proof.
  unfold simpleHash_loop, poly31.
  change 0 with (toInt32 0) at 1. apply simpleHash_fold.
Qed.

Lemma spec_rollingHash_fold (str : jsstring) (p : Z) :
  fold_left (fun hash char => (hash * 31 + char) mod 2 ^ 32) str (p mod 2 ^ 32)
  = (fold_left (fun hash char => 31 * hash + char) str p) mod 2 ^ 32.
Proof.
  revert p. induction str as [| c str IH]; intros p; simpl.
  - reflexivity.
  - rewrite <- IH. f_equal.
    rewrite Zplus_mod, Zmult_mod, Zmod_mod, <- Zmult_mod, <- Zplus_mod.
    f_equal. lia.
Qed.

(** The hash of the specification is the unsigned 32-bit value of the same
    polynomial. *)
Lemma spec_rollingHash_poly31 (str : jsstring) :
  spec_rollingHash str = poly31 str mod 2 ^ 32.
Proof.
  unfold spec_rollingHash, poly31.
  change 0 with (0 mod 2 ^ 32) at 1. apply spec_rollingHash_fold.
Qed.

(** The two hashes agree as long as the signed one is not negative. *)
Lemma simpleHash_loop_nonneg (str : jsstring) :
  0 <= simpleHash_loop str ->
  Z.abs (simpleHash_loop str) = spec_rollingHash str.
Proof.
  rewrite simpleHash_loop_poly31, spec_rollingHash_poly31.
  unfold toInt32. cbv zeta.
  pose proof (Z.mod_pos_bound (poly31 str) (2 ^ 32) ltac:(lia)).
  destruct (Z.leb_spec (2 ^ 31) (poly31 str mod 2 ^ 32)); lia.
Qed.

(** ** Strings *)

Lemma startsWith_spec (s p : jsstring) :
  startsWith s p = true <-> exists post, s = p ++ post.
Proof.
  revert s. induction p as [| x p IH]; intros s.
  - destruct s; simpl; split; eauto.
  - destruct s as [| y s]; simpl.
    + split; [discriminate | intros [post Hpost]; discriminate Hpost].
    + rewrite andb_true_iff, Z.eqb_eq, IH. split.
      * intros [-> [post ->]]. exists post. reflexivity.
      * intros [post Hpost]. injection Hpost as -> ->. eauto.
Qed.

(** [includes] finds exactly the substrings. *)
Lemma includes_spec (s k : jsstring) :
  includes s k = true <-> exists pre post, s = pre ++ k ++ post.
Proof.
  induction s as [| c s IH].
  - cbn [includes]. rewrite orb_false_r, startsWith_spec. split.
    + intros [post Hpost]. exists [], post. exact Hpost.
    + intros (pre & post & Hs). destruct pre; [| discriminate Hs]. eauto.
  - cbn [includes]. rewrite orb_true_iff, startsWith_spec, IH. split.
    + intros [[post Hpost] | (pre & post & Hs)].
      * exists [], post. exact Hpost.
      * exists (c :: pre), post. rewrite Hs. reflexivity.
    + intros (pre & post & Hs). destruct pre as [| c' pre].
      * left. exists post. exact Hs.
      * right. injection Hs as _ Hs. eauto.
Qed.

Lemma digitValue_digitChar (d : Z) :
  0 <= d < 36 -> digitValue (digitChar d) = d.
Proof.
  intros Hd. unfold digitValue, digitChar.
  destruct (Z.ltb_spec d 10).
  - destruct (Z.ltb_spec (48 + d) 58); lia.
  - destruct (Z.ltb_spec (87 + d) 58); lia.
Qed.

Lemma digits_value (radix : Z) (fuel : nat) (n : Z) (acc : jsstring) :
  2 <= radix <= 36 -> 0 <= n < 2 ^ Z.of_nat fuel ->
  fold_left (fun a c => a * radix + digitValue c) (digits fuel radix n acc) 0
  = fold_left (fun a c => a * radix + digitValue c) acc n.
Proof.
  intros Hr. revert n acc. induction fuel as [| fuel IH]; intros n acc Hn.
  - simpl in *. replace n with 0 by lia. reflexivity.
  - cbn [digits].
    assert (Hmod : 0 <= n mod radix < radix) by (apply Z.mod_pos_bound; lia).
    destruct (Z.ltb_spec n radix) as [Hlt | Hge].
    + cbn [fold_left]. rewrite digitValue_digitChar by lia.
      rewrite Z.mod_small by lia. f_equal.
    + rewrite IH.
      * cbn [fold_left]. rewrite digitValue_digitChar by lia.
        f_equal. pose proof (Z.div_mod n radix ltac:(lia)). lia.
      * split; [apply Z.div_pos; lia |].
        apply Z.div_lt_upper_bound; [lia |].
        rewrite Nat2Z.inj_succ, Z.pow_succ_r in Hn by lia. nia.
Qed.

(** The digits that [toStringRadix] gives for a number that is not negative
    denote that number: the fuel is enough. *)
Lemma toStringRadix_value (radix n : Z) :
  2 <= radix <= 36 -> 0 <= n ->
  digitsValue radix (toStringRadix radix n) = n.
Proof.
  intros Hr Hn. unfold toStringRadix, digitsValue.
  destruct (Z.ltb_spec n 0); [lia |].
  rewrite digits_value; [reflexivity | exact Hr |].
  split; [exact Hn |].
  rewrite Nat2Z.inj_succ, Z2Nat.id by apply Z.log2_nonneg.
  destruct (Z.eq_dec n 0) as [-> | Hnz]; [reflexivity |].
  apply Z.log2_spec. lia.
Qed.

(** Two hashes have the same digits only if they are the same. *)
Lemma toStringRadix_inj (radix n m : Z) :
  2 <= radix <= 36 -> 0 <= n -> 0 <= m ->
  toStringRadix radix n = toStringRadix radix m -> n = m.
Proof.
  intros Hr Hn Hm Heq.
  rewrite <- (toStringRadix_value radix n), <- (toStringRadix_value radix m)
    by assumption.
  rewrite Heq. reflexivity.
Qed.

Lemma slice0_length (n : nat) (s : jsstring) : (length (slice0 n s) <= n)%nat.
Proof. unfold slice0. rewrite length_take. lia. Qed.

Lemma someIncluded_true (keywords : list jsstring) (text : jsstring) :
  someIncluded keywords text = true <->
  exists keyword, In keyword keywords /\ includes text keyword = true.
Proof. unfold someIncluded. apply existsb_exists. Qed.

Lemma someIncluded_incl (small large : list jsstring) (text : jsstring) :
  incl small large ->
  someIncluded small text = true -> someIncluded large text = true.
Proof.
  intros Hincl. rewrite !someIncluded_true.
  intros (k & Hk & Hin). exists k. split; [apply Hincl, Hk | exact Hin].
Qed.

Lemma fallbackKeywords_prefilter : incl fallbackKeywords prefilterKeywords.
Proof.
  intros k Hk. unfold fallbackKeywords in Hk. unfold prefilterKeywords.
  cbn [List.map] in *. cbn [In] in *.
  repeat (destruct Hk as [<- | Hk]; [auto 35 |]). contradiction.
Qed.

Lemma sponsorStatusKeywords_prefilter :
  incl sponsorStatusKeywords prefilterKeywords.
Proof.
  intros k Hk. unfold sponsorStatusKeywords in Hk. unfold prefilterKeywords.
  cbn [List.map] in *. cbn [In] in *.
  repeat (destruct Hk as [<- | Hk]; [auto 35 |]). contradiction.
Qed.

(** ** The threshold mapping of the popup *)

(** C4: for every riskScore in [0,100], the class derived from it is safe up
    to 40, warning from 41 to 70 and danger above 70; in particular 0 and 40
    give safe, 41 gives warning, 71 and 100 give danger. *)
Theorem scoreClass_thresholds (riskScore : Z) :
  0 <= riskScore <= 100 ->
  (riskScore <= 40 -> scoreClass riskScore = lit "safe") /\
  (41 <= riskScore <= 70 -> scoreClass riskScore = lit "warning") /\
  (riskScore > 70 -> scoreClass riskScore = lit "danger") /\
  scoreClass 0 = lit "safe" /\ scoreClass 40 = lit "safe" /\
  scoreClass 41 = lit "warning" /\
  scoreClass 71 = lit "danger" /\ scoreClass 100 = lit "danger".
Proof.
  intros _. unfold scoreClass.
  repeat split; try reflexivity; intros Hr.
  - destruct (Z.gtb_spec riskScore 70); [lia |].
    destruct (Z.gtb_spec riskScore 40); [lia | reflexivity].
  - destruct (Z.gtb_spec riskScore 70); [lia |].
    destruct (Z.gtb_spec riskScore 40); [reflexivity | lia].
  - destruct (Z.gtb_spec riskScore 70); [reflexivity | lia].
Qed.

Lemma scoreClass_thresholds_witness :
  0 <= 41 <= 100 /\ scoreClass 41 = lit "warning".
Proof.
  split; [lia |].
  apply (scoreClass_thresholds 41); lia.
Defined.

(** The summary that [addChecklistSummary] appends carries that class. *)
Lemma addChecklistSummary_last (riskScore : Z) (container : list ChecklistNode) :
  last (addChecklistSummary riskScore container)
  = Some (ChecklistSummary (scoreClass riskScore) (recommendation riskScore)
            riskScore).
Proof. unfold addChecklistSummary. apply last_snoc. Qed.

(** ** The fallback identity *)

Lemma getEmailId_noHostIdentifier (element : Element) :
  noHostIdentifier element -> getEmailId element = fallbackId element.
Proof.
  intros (Ht & Hm & Hl & He). unfold getEmailId. cbv zeta.
  rewrite Ht, Hm, Hl, He. reflexivity.
Qed.

(** C5, as the code has it: for every node without host-provided
    identifier, the identity is "content_", then the base-36 digits of the
    absolute value of the signed 32-bit hash of the first 200 code units of
    the text (multiply by 31, add the character code, modulo 2^32), then "_"
    and the position of the node among its siblings. *)
Theorem getEmailId_fallback (element : Element) :
  noHostIdentifier element ->
  getEmailId element
  = lit "content_"
    ++ toStringRadix 36
         (Z.abs (toInt32 (poly31 (slice0 200 (textContent element)))))
    ++ lit "_" ++ toStringRadix 10 (position element).
Proof.
  intros Hno. rewrite getEmailId_noHostIdentifier by exact Hno.
  unfold fallbackId, simpleHash. cbv zeta.
  rewrite simpleHash_loop_poly31. reflexivity.
Qed.

Lemma getEmailId_fallback_witness :
  noHostIdentifier testEmail /\
  getEmailId testEmail = lit "content_ghdc61_0".
Proof.
  assert (Hno : noHostIdentifier testEmail) by (repeat split; reflexivity).
  split; [exact Hno |].
  rewrite (getEmailId_fallback testEmail Hno). vm_compute. reflexivity.
Defined.

(** C5 as stated fails: on a node whose signed hash is negative the code
    takes the absolute value, which is not the hash wrapped to unsigned. *)
Lemma getEmailId_not_unsigned_wrap :
  noHostIdentifier zzzzzz /\
  simpleHash_loop (slice0 200 (textContent zzzzzz)) = -685785664 /\
  spec_rollingHash (slice0 200 (textContent zzzzzz)) = 3609181632 /\
  getEmailId zzzzzz = lit "content_bcarls_-1" /\
  spec_fallbackId zzzzzz = lit "content_1notadc_-1" /\
  getEmailId zzzzzz <> spec_fallbackId zzzzzz.
Proof.
  repeat split; try reflexivity. vm_compute. discriminate.
Qed.

(** ** The reconciler *)

Lemma existsb_flag_positive (fs : list Flag) :
  existsb (fun flag => bool_decide (flag_type flag = lit "green")) fs = true
  <-> exists flag, In flag fs /\ flag_type flag = positive.
Proof.
  rewrite existsb_exists. unfold positive.
  split; intros (flag & Hin & Hty); exists flag; split; auto.
  - apply bool_decide_eq_true in Hty. exact Hty.
  - apply bool_decide_eq_true. exact Hty.
Qed.

(** C2, as the code has it: the reconciler answers true exactly when the
    isSponsor flag is set, or companyName or offer is non-empty, or the
    riskScore is not zero and below 50, or some flag is positive; a result
    with riskScore 0 and no other signal is not a sponsor. *)
Theorem isSponsorEmail_signals (result : AnalysisResult) :
  (isSponsorEmail result = true <->
   isSponsor result = true
   \/ truthyOpt (info companyName (extractedInfo result)) = true
   \/ truthyOpt (info offer (extractedInfo result)) = true
   \/ (exists n, riskScore result = Some n /\ n <> 0 /\ n < 50)
   \/ (exists fs flag, flags result = Some fs /\ In flag fs
                       /\ flag_type flag = positive))
  /\ isSponsorEmail zeroScoreResult = false.
Proof.
  split; [| reflexivity].
  unfold isSponsorEmail. rewrite !orb_true_iff, andb_true_iff.
  split.
  - intros [[[[Hs | Hc] | Ho] | [Hn Hlt]] | Hf]; auto.
    + destruct (riskScore result) as [n |]; [| discriminate].
      right; right; right; left. exists n. simpl in Hn.
      apply negb_true_iff, Z.eqb_neq in Hn. apply Z.ltb_lt in Hlt. auto.
    + destruct (flags result) as [fs |]; [| discriminate].
      apply existsb_flag_positive in Hf as (flag & Hin & Hty).
      right; right; right; right. exists fs, flag. auto.
  - intros [Hs | [Hc | [Ho | [(n & Hn & Hnz & Hlt) | (fs & flag & Hfs & Hin & Hty)]]]];
      auto.
    + left; right. rewrite Hn. simpl. split.
      * apply negb_true_iff, Z.eqb_neq. exact Hnz.
      * apply Z.ltb_lt. exact Hlt.
    + right. rewrite Hfs. apply existsb_flag_positive. exists flag. auto.
Qed.

(** C2 as stated fails on a risk score of zero: the score is below 50 and
    the reconciler answers false. *)
Lemma isSponsorEmail_zero_score :
  ~ (isSponsorEmail zeroScoreResult = true <-> spec_isSponsor zeroScoreResult).
Proof.
  intros [_ Hspec].
  assert (Hs : spec_isSponsor zeroScoreResult).
  { right; right; right; left. exists 0. split; [reflexivity | lia]. }
  apply Hspec in Hs. discriminate Hs.
Qed.

(** ** Extraction *)

(** C8: every record that [extractEmailData] returns has a subject of at
    most 200, a sender of at most 100 and a body of at most 5000 code units,
    whichever way subject and sender were found. *)
Theorem extractEmailData_bounds `{Host} (element : Element) (emailData : EmailData) :
  extractEmailData element = Some emailData ->
  (length (subject emailData) <= 200)%nat /\
  (length (sender emailData) <= 100)%nat /\
  (length (body emailData) <= 5000)%nat.
Proof.
  unfold extractEmailData. cbv zeta.
  destruct (negb _ || _); [discriminate |].
  intros Heq. apply (inj Some) in Heq. subst emailData.
  unfold subject, sender, body.
  split; [| split]; apply slice0_length.
Qed.

Lemma extractEmailData_bounds_witness :
  exists emailData,
    @extractEmailData testHost testEmail = Some emailData /\
    subject emailData = lit "Brand Partnership Opportunity" /\
    (length (subject emailData) <= 200)%nat /\
    (length (sender emailData) <= 100)%nat /\
    (length (body emailData) <= 5000)%nat.
Proof.
  eexists. split; [vm_compute; reflexivity |].
  split; [reflexivity |].
  eapply (@extractEmailData_bounds testHost testEmail). vm_compute. reflexivity.
Defined.

(** ** The analysis client *)

Section AnalysisProperties.
Context `{Host} `{SponsorExtractors}.

Lemma addActivity_returns (activity : Activity) (s : BackgroundService) :
  exists s', addActivity activity s = (inr tt, s').
Proof. eexists. reflexivity. Qed.

(** When the awaited call throws, the [catch] block answers with the
    fallback analysis. *)
Lemma analyzeEmailWithAI_caught (fetch : jsstring -> FetchOutcome)
    (emailData : EmailData) (s : BackgroundService) (message : jsstring) :
  (forall s1, fetchResult (fetch (emailContent emailData)) s1 = (inl message, s1)) ->
  exists s',
    analyzeEmailWithAI fetch emailData s
    = (inr (fallbackAnalysis message emailData), s').
Proof.
  intros Hfetch. unfold analyzeEmailWithAI, Svc.tryCatch.
  unfold mbind, svc_bind, Svc.bind.
  destruct (addActivity_returns
              {| act_type := lit "scanned";
                 act_message := lit "Analyzing: " ++ subject emailData;
                 act_timestamp := now |} s) as [s1 ->].
  rewrite Hfetch. eexists. reflexivity.
Qed.

(** When the call succeeds, the answer is the remote object with the
    verdict of [determineSponsorStatus]; unless the verdict is sponsor and
    [extractWebsiteFromEmail] throws while the message to the popup is put
    together: then the [catch] block answers with the fallback analysis. *)
Lemma analyzeEmailWithAI_answered (fetch : jsstring -> FetchOutcome)
    (emailData : EmailData) (s : BackgroundService) (result : RemoteResult) :
  remoteSucceeded (fetch (emailContent emailData)) result ->
  exists s',
    (analyzeEmailWithAI fetch emailData s
     = (inr (finalResult result (determineSponsorStatus result emailData)
               emailData), s') /\
     (determineSponsorStatus result emailData = true ->
      exists data, sponsorData result emailData = inr data))
    \/ (determineSponsorStatus result emailData = true /\
        exists message,
          sponsorData result emailData = inl message /\
          analyzeEmailWithAI fetch emailData s
          = (inr (fallbackAnalysis message emailData), s')).
Proof.
  intros (st & Hout & Hok). unfold analyzeEmailWithAI, Svc.tryCatch.
  unfold mbind, svc_bind, Svc.bind.
  destruct (addActivity_returns
              {| act_type := lit "scanned";
                 act_message := lit "Analyzing: " ++ subject emailData;
                 act_timestamp := now |} s) as [s1 ->].
  rewrite Hout. unfold fetchResult. rewrite Hok. cbn [negb Svc.ret].
  destruct (determineSponsorStatus result emailData).
  - destruct (addActivity_returns
              {| act_type := lit "sponsor";
                 act_message := lit "Sponsor detected: " ++ subject emailData;
                 act_timestamp := now |} s1) as [s2 ->].
    unfold Svc.lift.
    destruct (sponsorData result emailData) as [message | data].
    + exists s2. right. split; [reflexivity |]. exists message.
      split; reflexivity.
    + eexists. left. split; [reflexivity |]. intros _. exists data. reflexivity.
  - eexists. left. split; [reflexivity | discriminate].
Qed.

Lemma fetchResult_failed (outcome : FetchOutcome) :
  remoteFailed outcome ->
  exists message, forall s, fetchResult outcome s = (inl message, s).
Proof.
  destruct outcome as [message | st json]; cbn [remoteFailed fetchResult].
  - intros _. exists message. reflexivity.
  - intros ->. eexists. reflexivity.
Qed.

Lemma fetchResult_total (outcome : FetchOutcome) :
  (exists message, forall s, fetchResult outcome s = (inl message, s))
  \/ (exists result, remoteSucceeded outcome result).
Proof.
  destruct outcome as [message | st json].
  - left. exists message. reflexivity.
  - destruct (response_ok st) eqn:Hok.
    + destruct json as [message | | result].
      * left. exists message. intros s. cbn [fetchResult]. rewrite Hok. reflexivity.
      * left. eexists. intros s. cbn [fetchResult]. rewrite Hok. reflexivity.
      * right. exists result, st. auto.
    + left. eexists. intros s. cbn [fetchResult]. rewrite Hok. reflexivity.
Qed.

(** C6: whatever the record and whatever becomes of the remote call,
    [analyzeEmailWithAI] raises nothing and returns a result; unless the
    call succeeded with a JSON object (so on a transport error, on a
    non-success status and on a body that does not parse) the result is
    the fallback analysis made from the caught error. *)
Theorem analyzeEmailWithAI_never_raises (fetch : jsstring -> FetchOutcome)
    (emailData : EmailData) (s : BackgroundService) :
  (exists result s', analyzeEmailWithAI fetch emailData s = (inr result, s'))
  /\ ((forall result, ~ remoteSucceeded (fetch (emailContent emailData)) result) ->
      exists message s',
        analyzeEmailWithAI fetch emailData s
        = (inr (fallbackAnalysis message emailData), s')).
Proof.
  destruct (fetchResult_total (fetch (emailContent emailData)))
    as [[message Hthrow] | [result Hok]].
  - destruct (analyzeEmailWithAI_caught fetch emailData s message Hthrow)
      as [s' Hrun].
    split; eauto.
  - split.
    + destruct (analyzeEmailWithAI_answered fetch emailData s result Hok)
        as [s' [[Hrun _] | (_ & message & _ & Hrun)]]; eauto.
    + intros Hnone. destruct (Hnone result Hok).
Qed.

(** C1, as the code has it: when the remote call fails, the answer is a
    fallback result with riskScore 50, status warning, exactly one flag,
    of the caution kind, and an isSponsor field equal to
    [fallbackSponsorDetection] on the record, which looks for the first
    eight keywords of the prefilter: a true isSponsor implies a true
    prefilter. *)
Theorem analyzeEmailWithAI_fallback (fetch : jsstring -> FetchOutcome)
    (emailData : EmailData) (s : BackgroundService) :
  remoteFailed (fetch (emailContent emailData)) ->
  exists result s',
    analyzeEmailWithAI fetch emailData s = (inr result, s') /\
    riskScore result = Some 50 /\
    status result = Some (lit "warning") /\
    (exists message,
       flags result
       = Some [ {| flag_type := caution; flag_message := message |} ]) /\
    isSponsor result = fallbackSponsorDetection emailData /\
    (isSponsor result = true -> hasSponsortKeywords emailData = true).
Proof.
  intros Hfailed.
  destruct (fetchResult_failed _ Hfailed) as [message Hthrow].
  destruct (analyzeEmailWithAI_caught fetch emailData s message Hthrow)
    as [s' Hrun].
  exists (fallbackAnalysis message emailData), s'.
  split; [exact Hrun |]. cbn [fallbackAnalysis riskScore status flags isSponsor].
  repeat split.
  - eexists. reflexivity.
  - unfold fallbackSponsorDetection, hasSponsortKeywords.
    apply someIncluded_incl, fallbackKeywords_prefilter.
Qed.

(** C9, as the code has it: on a successful remote analysis the isSponsor
    field of the answer is true only if the lowercased subject and body
    contain a keyword of the list of [determineSponsorStatus] and, besides,
    the riskScore is not zero and below 40, or a company name or website
    was extracted, or the sender is a non-empty string in which none of
    gmail.com, yahoo.com and hotmail.com occurs.  The last test is on the
    whole sender string as it is spelt, not on a domain: for a sender
    without any domain a keyword is enough. *)
Theorem analyzeEmailWithAI_sponsor_only_if (fetch : jsstring -> FetchOutcome)
    (emailData : EmailData) (s : BackgroundService) (remote : RemoteResult) :
  remoteSucceeded (fetch (emailContent emailData)) remote ->
  exists result s',
    analyzeEmailWithAI fetch emailData s = (inr result, s') /\
    (isSponsor result = true ->
     (exists keyword,
        In keyword sponsorStatusKeywords /\
        includes (toLowerCase (subject emailData ++ lit " " ++ body emailData))
          keyword = true) /\
     ((exists n, r_riskScore remote = Some n /\ n <> 0 /\ n < 40)
      \/ (truthyOpt (info companyName (r_extractedInfo remote)) = true
          \/ truthyOpt (info website (r_extractedInfo remote)) = true)
      \/ (sender emailData <> [] /\
          includes (sender emailData) (lit "gmail.com") = false /\
          includes (sender emailData) (lit "yahoo.com") = false /\
          includes (sender emailData) (lit "hotmail.com") = false))).
Proof.
  intros Hok.
  assert (Hdet : determineSponsorStatus remote emailData = true ->
    (exists keyword,
        In keyword sponsorStatusKeywords /\
        includes (toLowerCase (subject emailData ++ lit " " ++ body emailData))
          keyword = true) /\
     ((exists n, r_riskScore remote = Some n /\ n <> 0 /\ n < 40)
      \/ (truthyOpt (info companyName (r_extractedInfo remote)) = true
          \/ truthyOpt (info website (r_extractedInfo remote)) = true)
      \/ (sender emailData <> [] /\
          includes (sender emailData) (lit "gmail.com") = false /\
          includes (sender emailData) (lit "yahoo.com") = false /\
          includes (sender emailData) (lit "hotmail.com") = false))).
  { unfold determineSponsorStatus. cbv zeta.
    rewrite andb_true_iff, !orb_true_iff. intros [Hkw Hsignal].
    split.
    - apply someIncluded_true in Hkw. exact Hkw.
    - destruct Hsignal as [[Hlow | Hinfo] | Hpro].
      + left. unfold lowRisk in Hlow. apply andb_true_iff in Hlow as [Hnz Hlt].
        destruct (r_riskScore remote) as [n |]; [| discriminate].
        exists n. split; [reflexivity |]. split; [| apply Z.ltb_lt, Hlt].
        cbn [truthyNum] in Hnz. apply negb_true_iff, Z.eqb_neq in Hnz.
        exact Hnz.
      + right; left. unfold hasBusinessInfo in Hinfo.
        apply orb_true_iff in Hinfo. exact Hinfo.
      + right; right. unfold professionalSender in Hpro.
        rewrite !andb_true_iff, !negb_true_iff in Hpro.
        destruct Hpro as [[[Hs Hg] Hy] Hh].
        split; [| auto].
        intros Hnil. rewrite Hnil in Hs. discriminate Hs. }
  destruct (analyzeEmailWithAI_answered fetch emailData s remote Hok)
    as [s' [[Hrun _] | (Hyes & message & _ & Hrun)]].
  - eexists; exists s'. split; [exact Hrun |]. cbn [isSponsor finalResult].
    exact Hdet.
  - eexists; exists s'. split; [exact Hrun |]. intros _. exact (Hdet Hyes).
Qed.

End AnalysisProperties.

Lemma analyzeEmailWithAI_fallback_witness :
  remoteFailed (FetchRejected (lit "Failed to fetch")) /\
  exists result s',
    @analyzeEmailWithAI testHost testExtractors
      (fun _ => FetchRejected (lit "Failed to fetch")) testRecord newService
    = (inr result, s') /\
    riskScore result = Some 50 /\
    isSponsor result = true.
Proof.
  split; [exact I |].
  destruct (@analyzeEmailWithAI_fallback testHost testExtractors
              (fun _ => FetchRejected (lit "Failed to fetch")) testRecord
              newService I)
    as (result & s' & Hrun & Hscore & _ & _ & Hsponsor & _).
  exists result, s'. split; [exact Hrun |]. split; [exact Hscore |].
  rewrite Hsponsor. vm_compute. reflexivity.
Defined.

(** C1 as stated fails: on a record that mentions youtube and none of the
    eight fallback keywords the prefilter is true and the isSponsor field of
    the fallback result is false. *)
Lemma fallback_isSponsor_not_prefilter :
  remoteFailed (FetchRejected (lit "Failed to fetch")) /\
  hasSponsortKeywords youtubeRecord = true /\
  exists result s',
    @analyzeEmailWithAI testHost testExtractors
      (fun _ => FetchRejected (lit "Failed to fetch")) youtubeRecord newService
    = (inr result, s') /\
    isSponsor result = false /\
    isSponsor result <> hasSponsortKeywords youtubeRecord.
Proof.
  split; [exact I |]. split; [vm_compute; reflexivity |].
  eexists. eexists. split; [vm_compute; reflexivity |].
  split; [vm_compute; reflexivity |]. vm_compute. discriminate.
Qed.

Lemma analyzeEmailWithAI_sponsor_only_if_witness :
  remoteSucceeded (Response 200 (JsonObject readmeResponse)) readmeResponse /\
  exists result s',
    @analyzeEmailWithAI testHost testExtractors
      (fun _ => Response 200 (JsonObject readmeResponse)) testRecord newService
    = (inr result, s') /\
    (isSponsor result = true ->
     exists keyword,
       In keyword sponsorStatusKeywords /\
       includes (toLowerCase (subject testRecord ++ lit " " ++ body testRecord))
         keyword = true).
Proof.
  assert (Hok : remoteSucceeded (Response 200 (JsonObject readmeResponse))
                  readmeResponse).
  { exists 200. split; reflexivity. }
  split; [exact Hok |].
  destruct (@analyzeEmailWithAI_sponsor_only_if testHost testExtractors
              (fun _ => Response 200 (JsonObject readmeResponse)) testRecord
              newService readmeResponse Hok)
    as (result & s' & Hrun & Honly).
  exists result, s'. split; [exact Hrun |].
  intros Hsponsor. exact (proj1 (Honly Hsponsor)).
Defined.

(** C9 as stated fails: the endpoint answers a pitch from 'Unknown Sender'
    with a risk score of 90 and no extracted company or website; the
    sender has no domain at all, and the answer says sponsor. *)
Lemma sponsor_with_keyword_alone :
  remoteSucceeded (Response 200 (JsonObject highRiskResponse)) highRiskResponse /\
  exists result s',
    @analyzeEmailWithAI testHost pitchExtractors
      (fun _ => Response 200 (JsonObject highRiskResponse)) pitchRecord newService
    = (inr result, s') /\
    isSponsor result = true /\
    error result = None /\
    r_riskScore highRiskResponse = Some 90 /\
    truthyOpt (info companyName (r_extractedInfo highRiskResponse)) = false /\
    truthyOpt (info website (r_extractedInfo highRiskResponse)) = false /\
    sender pitchRecord = lit "Unknown Sender" /\
    includes (sender pitchRecord) (lit "@") = false.
Proof.
  split; [exists 200; split; reflexivity |].
  eexists. eexists. split; [vm_compute; reflexivity |].
  repeat split.
Qed.

(** On that input the answer is indeed a sponsor. *)
Example analyzeEmailWithAI_readme_sponsor :
  exists result s',
    @analyzeEmailWithAI testHost testExtractors
      (fun _ => Response 200 (JsonObject readmeResponse)) testRecord newService
    = (inr result, s') /\
    isSponsor result = true /\ length (sentMessages s') = 3%nat.
Proof. eexists. eexists. split; [vm_compute; reflexivity |]. split; reflexivity. Qed.

(** ** The pipeline *)

Section PipelineProperties.
Context `{Host}.

Lemma processEmail_start_marks (element : Element) (a : SponsorGuardAgent) :
  getEmailId element ∈ processedEmails (processEmail_start element a).1.1.
Proof.
  unfold processEmail_start. cbv zeta. case_bool_decide as Hin; simpl.
  - exact Hin.
  - set_solver.
Qed.

Lemma processEmail_start_quiet (element : Element) (a : SponsorGuardAgent)
    (emailId : jsstring) (emailData : EmailData) :
  EvAnalyze emailId emailData ∉ (processEmail_start element a).1.2.
Proof.
  unfold processEmail_start. cbv zeta. case_bool_decide; simpl; intros Hin;
    repeat (apply elem_of_cons in Hin as [Hin | Hin]; [discriminate Hin |]);
    apply elem_of_nil in Hin; exact Hin.
Qed.

Lemma processEmail_afterAnalysis_ledger (emailId : jsstring) (element : Element)
    (emailData : EmailData) (result : AnalysisResult) (a : SponsorGuardAgent) :
  processedEmails
    (processEmail_afterAnalysis emailId element emailData result a).1
  = processedEmails a.
Proof.
  unfold processEmail_afterAnalysis.
  destruct (truthyOpt (error result)); [reflexivity |].
  destruct (isSponsorEmail result); reflexivity.
Qed.

Lemma markAsSponsorEmail_quiet (emailId : jsstring) (element : Element)
    (result : AnalysisResult) (e : Event) :
  e ∈ markAsSponsorEmail emailId element result ->
  forall emailId', isAnalysisOf emailId' e = false.
Proof.
  unfold markAsSponsorEmail. destruct (has_sponsor_label element).
  - intros Hin. apply elem_of_nil in Hin. destruct Hin.
  - intros Hin%list_elem_of_singleton. subst e. reflexivity.
Qed.

Lemma processEmail_afterAnalysis_quiet (emailId : jsstring) (element : Element)
    (emailData : EmailData) (result : AnalysisResult) (a : SponsorGuardAgent)
    (e : Event) :
  e ∈ (processEmail_afterAnalysis emailId element emailData result a).2 ->
  forall emailId', isAnalysisOf emailId' e = false.
Proof.
  unfold processEmail_afterAnalysis.
  destruct (truthyOpt (error result)); simpl.
  - apply markAsSponsorEmail_quiet.
  - destruct (isSponsorEmail result); simpl.
    + intros [Hin | Hin%list_elem_of_singleton]%elem_of_app.
      * eapply markAsSponsorEmail_quiet, Hin.
      * subst e. reflexivity.
    + intros Hin. apply elem_of_nil in Hin. destruct Hin.
Qed.

End PipelineProperties.

(** ** At most one analysis for an identity *)

Lemma analysesOf_app (emailId : jsstring) (l1 l2 : list Event) :
  analysesOf emailId (l1 ++ l2)
  = (analysesOf emailId l1 + analysesOf emailId l2)%nat.
Proof. unfold analysesOf. rewrite List.filter_app, length_app. reflexivity. Qed.

Lemma pendingSaves_app (emailId : jsstring) (l1 l2 : list Task) :
  pendingSaves emailId (l1 ++ l2)
  = (pendingSaves emailId l1 + pendingSaves emailId l2)%nat.
Proof. unfold pendingSaves. rewrite List.filter_app, length_app. reflexivity. Qed.

Lemma analysesOf_cons (emailId : jsstring) (e : Event) (l : list Event) :
  analysesOf emailId (e :: l)
  = ((if isAnalysisOf emailId e then 1 else 0) + analysesOf emailId l)%nat.
Proof. unfold analysesOf. simpl. destruct (isAnalysisOf emailId e); reflexivity. Qed.

Lemma analysesOf_nil (emailId : jsstring) : analysesOf emailId [] = 0%nat.
Proof. reflexivity. Qed.

Lemma pendingSaves_cons (emailId : jsstring) (t : Task) (l : list Task) :
  pendingSaves emailId (t :: l)
  = ((if isAwaitSave emailId t then 1 else 0) + pendingSaves emailId l)%nat.
Proof. unfold pendingSaves. simpl. destruct (isAwaitSave emailId t); reflexivity. Qed.

Lemma pendingSaves_nil (emailId : jsstring) : pendingSaves emailId [] = 0%nat.
Proof. reflexivity. Qed.

(** Counting over the lists that a step builds. *)
Ltac count_steps :=
  rewrite ?analysesOf_app, ?pendingSaves_app, ?analysesOf_cons,
    ?pendingSaves_cons, ?analysesOf_nil, ?pendingSaves_nil;
  cbn [isAwaitSave isAnalysisOf];
  repeat case_bool_decide; subst; try congruence; try lia.

Lemma analysesOf_quiet (emailId : jsstring) (ev : list Event) :
  (forall e, e ∈ ev -> isAnalysisOf emailId e = false) ->
  analysesOf emailId ev = 0%nat.
Proof.
  unfold analysesOf. induction ev as [| e ev IH]; intros Hq; simpl.
  - reflexivity.
  - rewrite (Hq e) by apply list_elem_of_here. apply IH.
    intros e' He'. apply Hq. apply list_elem_of_further, He'.
Qed.


Lemma insertedBefore_mono (emailId : jsstring) (k k' : nat) (tr ev : list Event) :
  insertedBefore emailId k tr -> (k <= k')%nat ->
  insertedBefore emailId k' (tr ++ ev).
Proof.
  intros (i & Hlt & Hhas & Hadd) Hle. exists i. split; [lia |].
  split; apply lookup_app_l_Some; assumption.
Qed.

Lemma ledgerInvariant_start `{Host} (stored : gset jsstring) :
  ledgerInvariant (startSession stored).
Proof.
  split; simpl.
  - intros emailId. cbn. lia.
  - intros emailId. cbn. lia.
  - intros emailId Hin. apply elem_of_nil in Hin. destruct Hin.
  - intros k emailId emailData Hk. rewrite lookup_nil in Hk. discriminate Hk.
Qed.

Section Invariant.
Context `{Host}.

(** A step that starts nothing new: what it sends to the analysis, it
    takes from the invocations suspended at the save. *)
Lemma ledgerInvariant_extend (s : Session) (a' : SponsorGuardAgent)
    (tasks' : list Task) (ev : list Event) :
  ledgerInvariant s ->
  processedEmails (agent s) ⊆ processedEmails a' ->
  (forall emailId,
     (analysesOf emailId ev + pendingSaves emailId tasks'
      <= pendingSaves emailId (inFlight s))%nat) ->
  (forall emailId, AwaitSave emailId ∈ tasks' -> AwaitSave emailId ∈ inFlight s) ->
  (forall j emailId emailData,
     ev !! j = Some (EvAnalyze emailId emailData) ->
     AwaitSave emailId ∈ inFlight s) ->
  ledgerInvariant {| agent := a'; inFlight := tasks'; trace := trace s ++ ev |}.
Proof.
  intros [Honce Hmarked Hpending Hanalysed] Hsub Hsum Htasks Hev.
  split; cbn [agent inFlight trace].
  - intros emailId. rewrite analysesOf_app.
    specialize (Honce emailId). specialize (Hsum emailId). lia.
  - intros emailId Hpos. rewrite analysesOf_app in Hpos.
    apply Hsub, Hmarked. specialize (Hsum emailId). lia.
  - intros emailId Hin. rewrite length_app.
    eapply insertedBefore_mono; [apply Hpending, Htasks, Hin | lia].
  - intros k emailId emailData Hk.
    apply lookup_app_Some in Hk as [Hk | [Hge Hk]].
    + eapply insertedBefore_mono; [eapply Hanalysed, Hk | lia].
    + eapply insertedBefore_mono; [eapply Hpending, Hev, Hk | lia].
Qed.

Lemma ledgerInvariant_call (element : Element) (s : Session) :
  ledgerInvariant s -> ledgerInvariant (call element s).
Proof.
  intros Hinv. unfold call, processEmail_start. cbv zeta.
  case_bool_decide as Hin.
  - (* already in the ledger: the invocation returns *)
    apply ledgerInvariant_extend; [exact Hinv | reflexivity | | auto |].
    + intros emailId. count_steps.
    + intros j emailId emailData Hj. destruct j; discriminate Hj.
  - (* new identity: the insert, then the save *)
    destruct Hinv as [Honce Hmarked Hpending Hanalysed].
    set (emailId0 := getEmailId element) in *.
    assert (Hfresh : (analysesOf emailId0 (trace s)
                      + pendingSaves emailId0 (inFlight s) = 0)%nat).
    { destruct (Nat.eq_dec (analysesOf emailId0 (trace s)
                            + pendingSaves emailId0 (inFlight s))%nat 0%nat)
        as [Hz | Hnz]; [exact Hz |].
      exfalso. apply Hin, Hmarked. lia. }
    split; cbn [agent inFlight trace processedEmails].
    + intros emailId. specialize (Honce emailId). count_steps.
    + intros emailId. destruct (decide (emailId = emailId0)) as [-> | Hne].
      * intros _. apply elem_of_union_r, elem_of_singleton. reflexivity.
      * intros Hpos. apply elem_of_union_l, Hmarked. revert Hpos. count_steps.
    + intros emailId [Hold | Hnew%list_elem_of_singleton]%elem_of_app.
      * rewrite length_app. eapply insertedBefore_mono; [apply Hpending, Hold | lia].
      * injection Hnew as ->. exists (length (trace s)).
        rewrite length_app. cbn [length]. split; [lia |].
        split.
        -- rewrite lookup_app_r by lia. rewrite Nat.sub_diag. reflexivity.
        -- rewrite lookup_app_r by lia.
           replace (S (length (trace s)) - length (trace s))%nat with 1%nat by lia.
           reflexivity.
    + intros k emailId emailData Hk.
      apply lookup_app_Some in Hk as [Hk | [Hge Hk]].
      * eapply insertedBefore_mono; [eapply Hanalysed, Hk | lia].
      * destruct (k - length (trace s))%nat as [| [| [| n]]]; discriminate Hk.
Qed.

Lemma ledgerInvariant_resume (i : nat) (element : Element)
    (result : AnalysisResult) (s : Session) :
  ledgerInvariant s -> ledgerInvariant (resume i element result s).
Proof.
  intros Hinv. unfold resume.
  destruct (inFlight s !! i) as [t |] eqn:Hi; [| exact Hinv].
  pose proof (take_drop_middle _ _ _ Hi) as Hsplit.
  pose proof (lookup_lt_Some _ _ _ Hi) as Hlen.
  destruct t as [emailId | emailId emailData].
  - (* after the save *)
    unfold processEmail_afterSave.
    destruct (extractEmailData element) as [emailData |].
    + destruct (negb (hasSponsortKeywords emailData)).
      * rewrite delete_take_drop.
        apply ledgerInvariant_extend; [exact Hinv | reflexivity | | |].
        -- intros e. rewrite <- Hsplit at 3. count_steps.
        -- intros e. rewrite <- Hsplit at 3.
           rewrite !elem_of_app, elem_of_cons. tauto.
        -- intros j e d Hj. destruct j; discriminate Hj.
      * rewrite insert_take_drop by exact Hlen.
        apply ledgerInvariant_extend; [exact Hinv | reflexivity | | |].
        -- intros e. rewrite <- Hsplit at 3. count_steps.
        -- intros e. rewrite <- Hsplit at 3.
           rewrite !elem_of_app, !elem_of_cons.
           intros [Hl | [Hneq | Hr]]; [tauto | discriminate Hneq | tauto].
        -- intros j e d Hj. destruct j as [| j]; [| destruct j; discriminate Hj].
           injection Hj as -> _. rewrite <- Hsplit.
           apply elem_of_app. right. apply list_elem_of_here.
    + rewrite delete_take_drop.
      apply ledgerInvariant_extend; [exact Hinv | reflexivity | | |].
      * intros e. rewrite <- Hsplit at 3. count_steps.
      * intros e. rewrite <- Hsplit at 3.
        rewrite !elem_of_app, elem_of_cons. tauto.
      * intros j e d Hj. destruct j; discriminate Hj.
  - (* after the reply *)
    pose proof (processEmail_afterAnalysis_ledger emailId element emailData
                  result (agent s)) as Hledger.
    pose proof (processEmail_afterAnalysis_quiet emailId element emailData
                  result (agent s)) as Hquiet.
    destruct (processEmail_afterAnalysis emailId element emailData result
                (agent s)) as [a ev].
    cbn [fst snd] in Hledger, Hquiet.
    rewrite delete_take_drop.
    apply ledgerInvariant_extend; [exact Hinv | | | |].
    + rewrite Hledger. reflexivity.
    + intros e. rewrite analysesOf_quiet by (intros e' He'; apply (Hquiet e' He')).
      rewrite <- Hsplit at 3. count_steps.
    + intros e. rewrite <- Hsplit at 3.
      rewrite !elem_of_app, elem_of_cons. tauto.
    + intros j e d Hj. apply list_elem_of_lookup_2 in Hj.
      specialize (Hquiet _ Hj e). cbn in Hquiet.
      rewrite bool_decide_eq_true_2 in Hquiet by reflexivity. discriminate Hquiet.
Qed.

Lemma reachable_ledgerInvariant (s : Session) :
  reachable s -> ledgerInvariant s.
Proof.
  induction 1 as [stored | s s' _ IH Hstep].
  - apply ledgerInvariant_start.
  - destruct Hstep.
    + apply ledgerInvariant_call, IH.
    + apply ledgerInvariant_resume, IH.
Qed.

(** In a session whose ledger is never cleared, however the invocations
    of [processEmail] interleave, at most one 'analyzeEmail' message is
    sent for an identity, and when one is sent the identity is in the
    ledger, which was asked for it, found it absent and took it in
    before. *)
Lemma analysis_at_most_once (s : Session) (emailId : jsstring) :
  reachable s ->
  (analysesOf emailId (trace s) <= 1)%nat /\
  (forall k emailData,
     trace s !! k = Some (EvAnalyze emailId emailData) ->
     emailId ∈ processedEmails (agent s) /\
     insertedBefore emailId k (trace s)).
Proof.
  intros Hreach. apply reachable_ledgerInvariant in Hreach as Hinv.
  destruct Hinv as [Honce Hmarked Hpending Hanalysed].
  split.
  - specialize (Honce emailId). lia.
  - intros k emailData Hk. split; [| eapply Hanalysed, Hk].
    apply Hmarked.
    assert (0 < analysesOf emailId (trace s))%nat; [| lia].
    apply take_drop_middle in Hk. rewrite <- Hk.
    count_steps.
Qed.


End Invariant.

(** ** Sessions with clears of the ledger *)

Lemma clearsOf_app (l1 l2 : list Event) :
  clearsOf (l1 ++ l2) = (clearsOf l1 + clearsOf l2)%nat.
Proof. unfold clearsOf. rewrite List.filter_app, length_app. reflexivity. Qed.

Lemma insertsOf_app (emailId : jsstring) (l1 l2 : list Event) :
  insertsOf emailId (l1 ++ l2)
  = (insertsOf emailId l1 + insertsOf emailId l2)%nat.
Proof. unfold insertsOf. rewrite List.filter_app, length_app. reflexivity. Qed.

Lemma ledgerQuiet_counts (ev : list Event) (emailId : jsstring) :
  ledgerQuiet ev -> clearsOf ev = 0%nat /\ insertsOf emailId ev = 0%nat.
Proof.
  unfold clearsOf, insertsOf. induction ev as [| e ev IH]; intros Hq.
  - split; reflexivity.
  - destruct (Hq e (list_elem_of_here _ _)) as [Hc Hi]. cbn [List.filter].
    rewrite Hc, (Hi emailId). apply IH.
    intros e' He'. apply Hq, list_elem_of_further, He'.
Qed.

Lemma epochInvariant_start `{Host} (stored : gset jsstring) :
  epochInvariant (startSession stored).
Proof.
  split; simpl.
  - intros emailId. cbn. lia.
  - intros emailId. cbn. lia.
  - intros emailId Hin. apply elem_of_nil in Hin. destruct Hin.
  - intros k emailId emailData Hk. rewrite lookup_nil in Hk. discriminate Hk.
Qed.

Section Epochs.
Context `{Host}.

(** A step that leaves the ledger alone: what it sends to the analysis, it
    takes from the invocations suspended at the save. *)
Lemma epochInvariant_extend (s : Session) (a' : SponsorGuardAgent)
    (tasks' : list Task) (ev : list Event) :
  epochInvariant s ->
  processedEmails a' = processedEmails (agent s) ->
  ledgerQuiet ev ->
  (forall emailId,
     (analysesOf emailId ev + pendingSaves emailId tasks'
      <= pendingSaves emailId (inFlight s))%nat) ->
  (forall emailId, AwaitSave emailId ∈ tasks' -> AwaitSave emailId ∈ inFlight s) ->
  (forall j emailId emailData,
     ev !! j = Some (EvAnalyze emailId emailData) ->
     AwaitSave emailId ∈ inFlight s) ->
  epochInvariant {| agent := a'; inFlight := tasks'; trace := trace s ++ ev |}.
Proof.
  intros [Hinserts Hanalyses Hpending Hanalysed] Hledger Hquiet Hsum Htasks Hev.
  split; cbn [agent inFlight trace].
  - intros emailId. rewrite insertsOf_app, clearsOf_app, Hledger.
    destruct (ledgerQuiet_counts ev emailId Hquiet) as [-> ->].
    specialize (Hinserts emailId). lia.
  - intros emailId. rewrite analysesOf_app, insertsOf_app.
    destruct (ledgerQuiet_counts ev emailId Hquiet) as [_ ->].
    specialize (Hanalyses emailId). specialize (Hsum emailId). lia.
  - intros emailId Hin. rewrite length_app.
    eapply insertedBefore_mono; [apply Hpending, Htasks, Hin | lia].
  - intros k emailId emailData Hk.
    apply lookup_app_Some in Hk as [Hk | [Hge Hk]].
    + eapply insertedBefore_mono; [eapply Hanalysed, Hk | lia].
    + eapply insertedBefore_mono; [eapply Hpending, Hev, Hk | lia].
Qed.

Lemma epochInvariant_call (element : Element) (s : Session) :
  epochInvariant s -> epochInvariant (call element s).
Proof.
  intros Hinv. unfold call, processEmail_start. cbv zeta.
  case_bool_decide as Hin.
  - (* already in the ledger: the invocation returns *)
    apply epochInvariant_extend; [exact Hinv | reflexivity | | | auto |].
    + intros e He. apply list_elem_of_singleton in He. subst e.
      split; [reflexivity | intros emailId; reflexivity].
    + intros emailId. count_steps.
    + intros j emailId emailData Hj. destruct j; discriminate Hj.
  - (* new identity: the insert, then the save *)
    destruct Hinv as [Hinserts Hanalyses Hpending Hanalysed].
    set (emailId0 := getEmailId element) in *.
    split; cbn [agent inFlight trace processedEmails].
    + intros emailId. specialize (Hinserts emailId).
      rewrite insertsOf_app, clearsOf_app.
      unfold insertsOf at 2, clearsOf at 2. cbn [List.filter isInsertOf isClear].
      destruct (decide (emailId0 = emailId)) as [Heq | Hne].
      * subst emailId. rewrite bool_decide_eq_true_2 by reflexivity.
        rewrite bool_decide_eq_false_2 in Hinserts by exact Hin.
        rewrite bool_decide_eq_true_2
          by (apply elem_of_union_r, elem_of_singleton; reflexivity).
        cbn [length]. lia.
      * rewrite (bool_decide_eq_false_2 (emailId0 = emailId)) by exact Hne.
        cbn [length].
        destruct (decide (emailId ∈ processedEmails (agent s))) as [Hold | Hnew].
        -- rewrite bool_decide_eq_true_2 by (apply elem_of_union_l, Hold).
           rewrite bool_decide_eq_true_2 in Hinserts by exact Hold. lia.
        -- rewrite bool_decide_eq_false_2 in Hinserts by exact Hnew.
           destruct (bool_decide (emailId ∈ processedEmails (agent s) ∪ {[emailId0]}));
             lia.
    + intros emailId. specialize (Hanalyses emailId).
      rewrite insertsOf_app.
      unfold insertsOf at 2. cbn [List.filter isInsertOf].
      destruct (decide (emailId0 = emailId)) as [Heq | Hne].
      * subst emailId. rewrite bool_decide_eq_true_2 by reflexivity.
        cbn [length]. count_steps.
      * rewrite (bool_decide_eq_false_2 (emailId0 = emailId)) by exact Hne.
        cbn [length]. count_steps.
    + intros emailId [Hold | Hnew%list_elem_of_singleton]%elem_of_app.
      * rewrite length_app. eapply insertedBefore_mono; [apply Hpending, Hold | lia].
      * injection Hnew as ->. exists (length (trace s)).
        rewrite length_app. cbn [length]. split; [lia |].
        split.
        -- rewrite lookup_app_r by lia. rewrite Nat.sub_diag. reflexivity.
        -- rewrite lookup_app_r by lia.
           replace (S (length (trace s)) - length (trace s))%nat with 1%nat by lia.
           reflexivity.
    + intros k emailId emailData Hk.
      apply lookup_app_Some in Hk as [Hk | [Hge Hk]].
      * eapply insertedBefore_mono; [eapply Hanalysed, Hk | lia].
      * destruct (k - length (trace s))%nat as [| [| [| n]]]; discriminate Hk.
Qed.

Lemma processEmail_afterAnalysis_ledgerQuiet (emailId : jsstring)
    (element : Element) (emailData : EmailData) (result : AnalysisResult)
    (a : SponsorGuardAgent) :
  ledgerQuiet (processEmail_afterAnalysis emailId element emailData result a).2.
Proof.
  unfold processEmail_afterAnalysis, markAsSponsorEmail, ledgerQuiet.
  destruct (truthyOpt (error result)); [| destruct (isSponsorEmail result)];
    destruct (has_sponsor_label element); cbn [snd app];
    intros e He;
    repeat (apply elem_of_cons in He as [He | He];
            [subst e; split; [reflexivity | intros emailId'; reflexivity] |]);
    apply elem_of_nil in He; destruct He.
Qed.

Lemma epochInvariant_resume (i : nat) (element : Element)
    (result : AnalysisResult) (s : Session) :
  epochInvariant s -> epochInvariant (resume i element result s).
Proof.
  intros Hinv. unfold resume.
  destruct (inFlight s !! i) as [t |] eqn:Hi; [| exact Hinv].
  pose proof (take_drop_middle _ _ _ Hi) as Hsplit.
  pose proof (lookup_lt_Some _ _ _ Hi) as Hlen.
  destruct t as [emailId | emailId emailData].
  - (* after the save *)
    unfold processEmail_afterSave.
    destruct (extractEmailData element) as [emailData |].
    + destruct (negb (hasSponsortKeywords emailData)).
      * rewrite delete_take_drop.
        apply epochInvariant_extend; [exact Hinv | reflexivity | | | |].
        -- intros e He. apply elem_of_nil in He. destruct He.
        -- intros e. rewrite <- Hsplit at 3. count_steps.
        -- intros e. rewrite <- Hsplit at 3.
           rewrite !elem_of_app, elem_of_cons. tauto.
        -- intros j e d Hj. destruct j; discriminate Hj.
      * rewrite insert_take_drop by exact Hlen.
        apply epochInvariant_extend; [exact Hinv | reflexivity | | | |].
        -- intros e He. apply list_elem_of_singleton in He. subst e.
           split; [reflexivity | intros emailId'; reflexivity].
        -- intros e. rewrite <- Hsplit at 3. count_steps.
        -- intros e. rewrite <- Hsplit at 3.
           rewrite !elem_of_app, !elem_of_cons.
           intros [Hl | [Hneq | Hr]]; [tauto | discriminate Hneq | tauto].
        -- intros j e d Hj. destruct j as [| j]; [| destruct j; discriminate Hj].
           injection Hj as -> _. rewrite <- Hsplit.
           apply elem_of_app. right. apply list_elem_of_here.
    + rewrite delete_take_drop.
      apply epochInvariant_extend; [exact Hinv | reflexivity | | | |].
      * intros e He. apply elem_of_nil in He. destruct He.
      * intros e. rewrite <- Hsplit at 3. count_steps.
      * intros e. rewrite <- Hsplit at 3.
        rewrite !elem_of_app, elem_of_cons. tauto.
      * intros j e d Hj. destruct j; discriminate Hj.
  - (* after the reply *)
    pose proof (processEmail_afterAnalysis_ledger emailId element emailData
                  result (agent s)) as Hledger.
    pose proof (processEmail_afterAnalysis_quiet emailId element emailData
                  result (agent s)) as Hquiet.
    pose proof (processEmail_afterAnalysis_ledgerQuiet emailId element emailData
                  result (agent s)) as Hplain.
    destruct (processEmail_afterAnalysis emailId element emailData result
                (agent s)) as [a ev].
    cbn [fst snd] in Hledger, Hquiet, Hplain.
    rewrite delete_take_drop.
    apply epochInvariant_extend; [exact Hinv | exact Hledger | exact Hplain | | |].
    + intros e. rewrite analysesOf_quiet by (intros e' He'; apply (Hquiet e' He')).
      rewrite <- Hsplit at 3. count_steps.
    + intros e. rewrite <- Hsplit at 3.
      rewrite !elem_of_app, elem_of_cons. tauto.
    + intros j e d Hj. apply list_elem_of_lookup_2 in Hj.
      specialize (Hquiet _ Hj e). cbn in Hquiet.
      rewrite bool_decide_eq_true_2 in Hquiet by reflexivity. discriminate Hquiet.
Qed.

(** A clear of the ledger, with the events [ev] that follow the clear at
    once and do not touch the ledger. *)
Lemma epochInvariant_cleared (s : Session) (ev : list Event) :
  epochInvariant s ->
  ledgerQuiet ev ->
  (forall emailId e, e ∈ ev -> isAnalysisOf emailId e = false) ->
  epochInvariant {| agent := clearProcessed (agent s);
                    inFlight := inFlight s;
                    trace := trace s ++ EvClear :: ev |}.
Proof.
  intros [Hinserts Hanalyses Hpending Hanalysed] Hquiet Hplain.
  split; cbn [agent inFlight trace clearProcessed processedEmails].
  - intros emailId. specialize (Hinserts emailId).
    rewrite insertsOf_app, clearsOf_app.
    unfold insertsOf at 2, clearsOf at 2. cbn [List.filter isInsertOf isClear].
    destruct (ledgerQuiet_counts ev emailId Hquiet) as [Hc Hi].
    unfold clearsOf in Hc. unfold insertsOf in Hi. cbn [length]. rewrite Hc, Hi.
    destruct (bool_decide (emailId ∈ processedEmails (agent s))); lia.
  - intros emailId. specialize (Hanalyses emailId).
    rewrite insertsOf_app, analysesOf_app, analysesOf_cons.
    cbn [isAnalysisOf].
    rewrite (analysesOf_quiet emailId ev) by (intros e He; apply Hplain, He).
    lia.
  - intros emailId Hin. rewrite length_app.
    eapply insertedBefore_mono; [apply Hpending, Hin | lia].
  - intros k emailId emailData Hk.
    apply lookup_app_Some in Hk as [Hk | [Hge Hk]].
    + eapply insertedBefore_mono; [eapply Hanalysed, Hk | lia].
    + apply list_elem_of_lookup_2 in Hk.
      apply elem_of_cons in Hk as [Hk | Hk]; [discriminate Hk |].
      specialize (Hplain emailId _ Hk). cbn in Hplain.
      rewrite bool_decide_eq_true_2 in Hplain by reflexivity. discriminate Hplain.
Qed.

Lemma sessionReachable_epochInvariant (s : Session) :
  sessionReachable s -> epochInvariant s.
Proof.
  induction 1 as [stored | s s' _ IH Hstep].
  - apply epochInvariant_start.
  - destruct Hstep as [s s' Hstep | s | s].
    + destruct Hstep.
      * apply epochInvariant_call, IH.
      * apply epochInvariant_resume, IH.
    + apply epochInvariant_cleared; [exact IH | |].
      * intros e He. apply elem_of_nil in He. destruct He.
      * intros emailId e He. apply elem_of_nil in He. destruct He.
    + apply epochInvariant_cleared; [exact IH | |].
      * intros e He. apply list_elem_of_singleton in He. subst e.
        split; [reflexivity | intros emailId; reflexivity].
      * intros emailId e He. apply list_elem_of_singleton in He. subst e.
        reflexivity.
Qed.

(** C3, as the code has it.  In every session, however the invocations of
    [processEmail] interleave with each other and with the clears of the
    ledger ([rescanEmails], and the 'resetProcessed' message of the popup's
    Refresh), the 'analyzeEmail' messages sent for an identity are at most
    one more than the clears: at most one in a session without clear.
    Whenever one is sent, the ledger was asked for the identity, found it
    absent and took it in before. *)
Theorem analysis_at_most_once_per_clear (s : Session) (emailId : jsstring) :
  sessionReachable s ->
  (analysesOf emailId (trace s) <= S (clearsOf (trace s)))%nat /\
  (clearsOf (trace s) = 0%nat -> (analysesOf emailId (trace s) <= 1)%nat) /\
  (forall k emailData,
     trace s !! k = Some (EvAnalyze emailId emailData) ->
     insertedBefore emailId k (trace s)).
Proof.
  intros Hreach. apply sessionReachable_epochInvariant in Hreach as Hinv.
  destruct Hinv as [Hinserts Hanalyses Hpending Hanalysed].
  specialize (Hinserts emailId). specialize (Hanalyses emailId).
  assert (Hbound : (analysesOf emailId (trace s) <= S (clearsOf (trace s)))%nat).
  { destruct (bool_decide (emailId ∈ processedEmails (agent s))); lia. }
  split; [exact Hbound |]. split; [lia |].
  intros k emailData Hk. eapply Hanalysed, Hk.
Qed.

End Epochs.

(** ** Scans that await each invocation *)

Section Sequential.
Context `{Host}.

(** An invocation that nothing interrupts is a call followed by the two
    resumptions of its task. *)
Lemma processEmail_reachable (analysis : EmailData -> AnalysisResult)
    (element : Reads) (a : SponsorGuardAgent) (tr : list Event) :
  reachable {| agent := a; inFlight := []; trace := tr |} ->
  reachable {| agent := (processEmail analysis element a).1;
               inFlight := [];
               trace := tr ++ (processEmail analysis element a).2 |}.
Proof.
  intros Hreach. set (s := {| agent := a; inFlight := []; trace := tr |}) in *.
  pose proof (reachable_step _ _ Hreach (step_call (atCall element) s)) as H1.
  unfold processEmail. unfold call in H1. cbn [agent inFlight trace s] in H1.
  destruct (processEmail_start (atCall element) a) as [[a1 ev1] [emailId |]];
    cbn [fst snd]; [| exact H1].
  set (s1 := {| agent := a1; inFlight := [] ++ [AwaitSave emailId];
                trace := tr ++ ev1 |}) in *.
  pose proof (reachable_step _ _ H1
                (step_resume 0 (afterSave element) zeroScoreResult s1)) as H2.
  revert H2. unfold resume. cbn [agent inFlight trace s1 app lookup list_lookup].
  destruct (processEmail_afterSave emailId (afterSave element))
    as [ev2 [emailData |]];
    cbn [fst snd delete list_delete insert list_insert]; intros H2.
  - set (s2 := {| agent := a1; inFlight := [AwaitAnalysis emailId emailData];
                  trace := (tr ++ ev1) ++ ev2 |}) in *.
    pose proof (reachable_step _ _ H2 (step_resume 0 (afterReply element)
                  (analysis emailData) s2)) as H3.
    revert H3. unfold resume. cbn [agent inFlight trace s2 lookup list_lookup].
    destruct (processEmail_afterAnalysis emailId (afterReply element) emailData
                (analysis emailData) a1) as [a3 ev3].
    cbn [fst snd delete list_delete]. rewrite <- !app_assoc. auto.
  - rewrite <- app_assoc in H2. exact H2.
Qed.

Lemma processAll_reachable (analysis : EmailData -> AnalysisResult)
    (elements : list Reads) (a : SponsorGuardAgent) (tr : list Event) :
  reachable {| agent := a; inFlight := []; trace := tr |} ->
  reachable {| agent := (processAll analysis elements a).1;
               inFlight := [];
               trace := tr ++ (processAll analysis elements a).2 |}.
Proof.
  revert a tr. induction elements as [| element rest IH]; intros a tr Hreach.
  - simpl. rewrite app_nil_r. exact Hreach.
  - simpl.
    pose proof (processEmail_reachable analysis element a tr Hreach) as H1.
    destruct (processEmail analysis element a) as [a1 ev1].
    specialize (IH a1 (tr ++ ev1) H1).
    destruct (processAll analysis rest a1) as [a2 ev2].
    cbn [fst snd] in *. rewrite app_assoc. exact IH.
Qed.

(** A scan of a fresh session sends at most one 'analyzeEmail' message for
    an identity, however often the identity comes back in the scan. *)
Corollary processAll_at_most_once (analysis : EmailData -> AnalysisResult)
    (elements : list Reads) (emailId : jsstring) :
  (analysesOf emailId (processAll analysis elements newAgent).2 <= 1)%nat.
Proof.
  pose proof (processAll_reachable analysis elements newAgent []
                (reachable_start ∅)) as Hreach.
  apply reachable_ledgerInvariant in Hreach.
  pose proof (inv_once _ Hreach emailId) as Honce.
  cbn [trace app] in Honce. lia.
Qed.

End Sequential.



(** The prefilter lowers the text as the engine does: a Kelvin sign counts
    as a 'k', so that this subject has the keyword 'marketing'. *)
Example kelvin_sign_keyword :
  toLowerCase (lit "MAR" ++ [8490] ++ lit "ETING") = lit "marketing" /\
  hasSponsortKeywords
    {| id := lit "msg_3";
       subject := lit "MAR" ++ [8490] ++ lit "ETING";
       sender := lit "fan@gmail.com";
       body := lit "See you on Friday.";
       timestamp := lit "2024-01-01T00:00:00.000Z";
       url := lit "https://mail.google.com/mail/u/0/" |} = true.
Proof. split; vm_compute; reflexivity. Qed.

Lemma analysis_at_most_once_per_clear_witness :
  sessionReachable (H := testHost) refreshedSession /\
  (analysesOf (getEmailId testEmail) (trace refreshedSession) <= 2)%nat.
Proof.
  assert (Hreach : sessionReachable (H := testHost) refreshedSession).
  { unfold refreshedSession.
    eapply session_next; [| apply session_invocation, step_resume].
    eapply session_next; [| apply session_invocation, step_call].
    eapply session_next; [| apply session_reset].
    eapply session_next; [| apply session_invocation, step_resume].
    eapply session_next; [| apply session_invocation, step_call].
    apply (session_start ∅). }
  split; [exact Hreach |].
  apply (analysis_at_most_once_per_clear (H := testHost) _
           (getEmailId testEmail) Hreach).
Defined.

(** C3 as stated fails: the test email is sent to the analysis, the Refresh
    of the popup clears the ledger, and the scan that follows sends the
    same identity to the analysis again, in the same session. *)
Lemma analysed_again_after_refresh :
  sessionReachable (H := testHost) refreshedSession /\
  analysesOf (getEmailId testEmail) (trace refreshedSession) = 2%nat /\
  List.map (fun e => match e with
                     | EvHas _ found => Some found
                     | _ => None
                     end) (trace refreshedSession)
  = [Some false; None; None; None; None; None; Some false; None; None; None].
Proof.
  split.
  { unfold refreshedSession.
    eapply session_next; [| apply session_invocation, step_resume].
    eapply session_next; [| apply session_invocation, step_call].
    eapply session_next; [| apply session_reset].
    eapply session_next; [| apply session_invocation, step_resume].
    eapply session_next; [| apply session_invocation, step_call].
    apply (session_start ∅). }
  split; vm_compute; reflexivity.
Qed.

(** In a session without clear the test email is sent to the analysis
    once, by the first call; the second call finds it in the ledger. *)
Example test_email_analysed_once :
  List.map (fun e => match e with
                     | EvHas _ found => Some found
                     | _ => None
                     end)
    (trace (call testEmail
              (resume (H := testHost) 0 testEmail zeroScoreResult
                 (call testEmail newSession))))
  = [Some false; None; None; None; Some true]
  /\ analysesOf (getEmailId testEmail)
       (trace (call testEmail
                 (resume (H := testHost) 0 testEmail zeroScoreResult
                    (call testEmail newSession)))) = 1%nat.
Proof. split; vm_compute; reflexivity. Qed.

(** * Further properties of the content script *)

(** ** Extraction *)

(** X1: [extractEmailData] gives no record exactly when the text of the node
    (its [textContent], or its [innerText] when that is empty) has fewer
    than 20 code units; an empty text is one of these. *)
Theorem extractEmailData_none_iff `{Host} (element : Element) :
  extractEmailData element = None <->
  (length (if truthyStr (textContent element)
           then textContent element else innerText element) < 20)%nat.
Proof.
  unfold extractEmailData. cbv zeta.
  set (text := if truthyStr (textContent element)
               then textContent element else innerText element).
  destruct (negb (truthyStr text) || (Z.of_nat (length text) <? 20)) eqn:Hshort.
  - split; [intros _ | reflexivity].
    apply orb_true_iff in Hshort as [Hempty | Hlt].
    + destruct text; [simpl; lia | discriminate Hempty].
    + apply Z.ltb_lt in Hlt. lia.
  - split; [discriminate |]. intros Hlt.
    apply orb_false_iff in Hshort as [_ Hge]. apply Z.ltb_ge in Hge. lia.
Qed.

Lemma slice0_short (n : nat) (s : jsstring) :
  (length s <= n)%nat -> slice0 n s = s.
Proof. intros Hle. unfold slice0. apply take_ge. exact Hle. Qed.

Lemma slice0_long (n : nat) (s : jsstring) :
  (n <= length s)%nat -> length (slice0 n s) = n.
Proof. intros Hle. unfold slice0. rewrite length_take. lia. Qed.

Lemma slice0_not_placeholder (s : jsstring) :
  s <> lit "No Subject" -> slice0 200 s <> lit "No Subject".
Proof.
  intros Hne Heq. destruct (le_lt_dec (length s) 200) as [Hle | Hgt].
  - rewrite slice0_short in Heq by exact Hle. contradiction.
  - apply (f_equal length) in Heq. rewrite slice0_long in Heq by lia.
    discriminate Heq.
Qed.

Lemma ellipsis_not_placeholder (s : jsstring) :
  s ++ lit "..." <> lit "No Subject".
Proof.
  intros Heq. apply (f_equal (@last Z)) in Heq.
  change (lit "...") with ([46; 46] ++ [46]) in Heq.
  rewrite app_assoc, last_snoc in Heq. discriminate Heq.
Qed.

(** X2: the subject of a record is never the placeholder 'No Subject'.
    When the subject element gives none (there is no such element, or its
    text is empty or the placeholder itself) and neither pattern matches
    the text, the subject is the first 50 code units of the first line of
    the text, followed by '...'. *)
Theorem extractEmailData_subject_found `{Host} (element : Element)
    (emailData : EmailData) :
  extractEmailData element = Some emailData ->
  subject emailData <> lit "No Subject" /\
  (orStr (subjectElement element) (lit "No Subject") = lit "No Subject" ->
   matchSubjectMarker (if truthyStr (textContent element)
                       then textContent element else innerText element) = None ->
   matchLeadingLine (if truthyStr (textContent element)
                     then textContent element else innerText element) = None ->
   subject emailData
   = slice0 50 (firstLine (if truthyStr (textContent element)
                           then textContent element else innerText element))
     ++ lit "...").
Proof.
  unfold extractEmailData. cbv zeta.
  set (text := if truthyStr (textContent element)
               then textContent element else innerText element).
  destruct (negb _ || _); [discriminate |].
  intros Heq. apply (inj Some) in Heq. subst emailData. unfold subject.
  assert (Hshort : (length (slice0 50 (firstLine text) ++ lit "...") <= 200)%nat).
  { rewrite length_app. pose proof (slice0_length 50 (firstLine text)) as Hlen.
    change (length (lit "...")) with 3%nat. lia. }
  split.
  - case_bool_decide as Hplaceholder.
    + rewrite slice0_short by exact Hshort. apply ellipsis_not_placeholder.
    + apply slice0_not_placeholder. exact Hplaceholder.
  - intros Hnone Hmarker Hline. rewrite Hnone, Hmarker, Hline.
    rewrite (bool_decide_eq_true_2 (lit "No Subject" = lit "No Subject"))
      by reflexivity.
    rewrite orb_true_r. cbv iota.
    rewrite (bool_decide_eq_true_2 (lit "No Subject" = lit "No Subject"))
      by reflexivity.
    apply slice0_short. exact Hshort.
Qed.

Lemma extractEmailData_subject_found_witness :
  exists emailData,
    @extractEmailData quietHost plainEmail = Some emailData /\
    subject emailData
    = lit "Lunch on Friday at noon? Let me know, see you then...".
Proof.
  destruct (@extractEmailData quietHost plainEmail) as [emailData |] eqn:Hextract;
    [| vm_compute in Hextract; discriminate Hextract].
  exists emailData. split; [reflexivity |].
  destruct (@extractEmailData_subject_found quietHost plainEmail emailData
              Hextract) as [_ Hsubject].
  rewrite Hsubject; reflexivity.
Defined.

(** X3: a subject element with a text of its own, and a sender element with an
    email attribute, decide subject and sender: the patterns are not
    consulted. *)
Theorem extractEmailData_structured_first `{Host} (element : Element)
    (subjectText email : jsstring) (se : SenderElement) :
  (20 <= length (textContent element))%nat ->
  subjectElement element = Some subjectText ->
  subjectText <> [] -> subjectText <> lit "No Subject" ->
  senderElement element = Some se ->
  se_email se = Some email -> email <> [] -> email <> lit "Unknown Sender" ->
  exists emailData,
    extractEmailData element = Some emailData /\
    subject emailData = slice0 200 subjectText /\
    sender emailData = slice0 100 email.
Proof.
  intros Hlen Hsubj Hne Hnp Hsender Hemail Hene Henp.
  unfold extractEmailData. cbv zeta.
  assert (Htext : truthyStr (textContent element) = true).
  { destruct (textContent element); [simpl in Hlen; lia | reflexivity]. }
  rewrite Htext. cbv iota. rewrite Htext, Hsubj, Hsender, Hemail.
  destruct (Z.ltb_spec (Z.of_nat (length (textContent element))) 20); [lia |].
  cbn [negb orb]. eexists. split; [reflexivity |].
  assert (Hts : truthyStr subjectText = true).
  { destruct subjectText; [exfalso; apply Hne; reflexivity | reflexivity]. }
  assert (Hte : truthyStr email = true).
  { destruct email; [exfalso; apply Hene; reflexivity | reflexivity]. }
  cbn [subject sender orStr truthyOpt default]. rewrite Hts, Hte.
  rewrite (bool_decide_eq_true_2 (is_Some (Some subjectText))) by eauto.
  rewrite (bool_decide_eq_true_2 (is_Some (Some se))) by eauto.
  rewrite (bool_decide_eq_false_2 (subjectText = lit "No Subject")) by exact Hnp.
  rewrite (bool_decide_eq_false_2 (email = lit "Unknown Sender")) by exact Henp.
  cbn [negb orb]. cbv iota.
  rewrite (bool_decide_eq_false_2 (subjectText = lit "No Subject")) by exact Hnp.
  split; reflexivity.
Qed.

Lemma extractEmailData_structured_first_witness :
  exists emailData,
    @extractEmailData testHost threadRow = Some emailData /\
    subject emailData = lit "Partnership proposal for your channel" /\
    sender emailData = lit "deals@acme.example".
Proof.
  destruct (@extractEmailData_structured_first testHost threadRow
              (lit "Partnership proposal for your channel")
              (lit "deals@acme.example")
              {| se_email := Some (lit "deals@acme.example");
                 se_name := Some (lit "Acme Corp");
                 se_textContent := lit "Acme Corp" |})
    as (emailData & Hextract & Hsubject & Hsender);
    try reflexivity; try discriminate.
  - vm_compute. lia.
  - exists emailData. split; [exact Hextract |].
    rewrite Hsubject, Hsender. split; reflexivity.
Defined.

(** ** Identities *)

(** The first code unit of an identity tells which attribute it was made
    from: t, m, l, e, or c for the content hash. *)
Lemma getEmailId_head (element : Element) :
  hd 0 (getEmailId element)
  = if truthyOpt (data_thread_id element) then 116
    else if truthyOpt (data_message_id element) then 109
    else if truthyOpt (data_legacy_thread_id element) then 108
    else if truthyStr (element_id element) then 101
    else 99.
Proof.
  unfold getEmailId. cbv zeta.
  destruct (truthyOpt (data_thread_id element)); [reflexivity |].
  destruct (truthyOpt (data_message_id element)); [reflexivity |].
  destruct (truthyOpt (data_legacy_thread_id element)); [reflexivity |].
  destruct (truthyStr (element_id element)); reflexivity.
Qed.

Lemma getEmailId_truthy (element : Element) :
  truthyStr (getEmailId element) = true.
Proof.
  pose proof (getEmailId_head element) as Hhd.
  destruct (getEmailId element) as [| c rest]; [| reflexivity].
  simpl in Hhd. repeat (destruct (truthyOpt _) || destruct (truthyStr _));
    discriminate Hhd.
Qed.

(** X4: a node with a thread identifier has the identity of another node
    exactly when that node has the same thread identifier: text, position
    and the other attributes of the two nodes play no part, and no message,
    legacy, element or content identity is ever taken for it. *)
Theorem getEmailId_thread (element other : Element) :
  truthyOpt (data_thread_id element) = true ->
  (getEmailId other = getEmailId element <->
   data_thread_id other = data_thread_id element).
Proof.
  intros Hthread. split.
  - intros Heq. pose proof (f_equal (hd 0) Heq) as Hhd.
    rewrite !getEmailId_head, Hthread in Hhd.
    destruct (truthyOpt (data_thread_id other)) eqn:Hother.
    + unfold getEmailId in Heq. cbv zeta in Heq. rewrite Hthread, Hother in Heq.
      apply app_inv_head in Heq.
      destruct (data_thread_id other), (data_thread_id element);
        try discriminate; simpl in Heq; congruence.
    + repeat (destruct (truthyOpt _) || destruct (truthyStr _));
        discriminate Hhd.
  - intros Heq. unfold getEmailId. cbv zeta. rewrite Heq, Hthread. reflexivity.
Qed.

Lemma getEmailId_thread_witness :
  truthyOpt (data_thread_id threadRow) = true /\
  getEmailId testEmail <> getEmailId threadRow.
Proof.
  split; [reflexivity |].
  intros Heq. apply (getEmailId_thread threadRow testEmail) in Heq;
    [discriminate Heq | reflexivity].
Defined.

Lemma digits_length_le (radix : Z) (fuel : nat) :
  2 <= radix ->
  forall (k : nat) (n : Z) (acc : jsstring),
    0 <= n < radix ^ Z.of_nat (S k) ->
    (length (digits fuel radix n acc) <= S k + length acc)%nat.
Proof.
  intros Hr. induction fuel as [| fuel IH]; intros k n acc Hn.
  - simpl. lia.
  - cbn [digits]. destruct (Z.ltb_spec n radix) as [Hlt | Hge].
    + simpl. lia.
    + destruct k as [| k].
      * change (Z.of_nat 1) with 1 in Hn. rewrite Z.pow_1_r in Hn. lia.
      * specialize (IH k (n / radix) (digitChar (n mod radix) :: acc)).
        cbn [length] in IH. etransitivity; [apply IH | lia].
        split; [apply Z.div_pos; lia |].
        apply Z.div_lt_upper_bound; [lia |].
        rewrite (Nat2Z.inj_succ (S k)), Z.pow_succ_r in Hn by lia. lia.
Qed.

Lemma digits_length_ge (radix : Z) (fuel : nat) (n : Z) (acc : jsstring) :
  (S (length acc) <= length (digits (S fuel) radix n acc))%nat.
Proof.
  revert n acc. induction fuel as [| fuel IH]; intros n acc.
  - cbn [digits]. destruct (n <? radix); simpl; lia.
  - cbn [digits]. cbn [digits] in IH. destruct (n <? radix).
    + simpl. lia.
    + specialize (IH (n / radix) (digitChar (n mod radix) :: acc)).
      cbn [length] in IH. lia.
Qed.

(** X5: the hash that [simpleHash] returns has between one and six characters,
    whatever the length of the text. *)
Theorem simpleHash_length (str : jsstring) :
  (1 <= length (simpleHash str) <= 6)%nat.
Proof.
  unfold simpleHash. rewrite simpleHash_loop_poly31.
  pose proof (toInt32_range (poly31 str)) as Hrange.
  set (h := Z.abs (toInt32 (poly31 str))).
  assert (Hh : 0 <= h <= 2 ^ 31) by (unfold h; lia).
  unfold toStringRadix. destruct (Z.ltb_spec h 0); [lia |].
  split.
  - pose proof (digits_length_ge 36 (Z.to_nat (Z.log2 h)) h []) as Hge.
    cbn [length] in Hge. exact Hge.
  - pose proof (digits_length_le 36 (S (Z.to_nat (Z.log2 h))) ltac:(lia) 5 h [])
      as Hle.
    simpl length in Hle. rewrite Nat.add_0_r in Hle. apply Hle.
    change (36 ^ Z.of_nat 6) with 2176782336.
    change (2 ^ 31) with 2147483648 in Hh. lia.
Qed.

(** ** The ledger across invocations and scans *)

(** Membership of an event in a trace that a phase builds. *)
Ltac split_events Hev :=
  repeat first
    [ apply elem_of_nil in Hev; destruct Hev
    | apply elem_of_app in Hev as [Hev | Hev]
    | apply elem_of_cons in Hev as [Hev | Hev] ];
  try discriminate Hev.

Section LedgerProperties.
Context `{Host}.

Lemma processEmail_start_known (element : Element) (a : SponsorGuardAgent) :
  getEmailId element ∈ processedEmails a ->
  processEmail_start element a = (a, [EvHas (getEmailId element) true], None).
Proof.
  intros Hin. unfold processEmail_start. cbv zeta.
  rewrite bool_decide_eq_true_2 by exact Hin. reflexivity.
Qed.

Lemma processEmail_known (analysis : EmailData -> AnalysisResult)
    (element : Reads) (a : SponsorGuardAgent) :
  getEmailId (atCall element) ∈ processedEmails a ->
  processEmail analysis element a
  = (a, [EvHas (getEmailId (atCall element)) true]).
Proof.
  intros Hin. unfold processEmail.
  rewrite processEmail_start_known by exact Hin. reflexivity.
Qed.

(** An invocation adds the identity that its node has when it is called to
    the ledger and leaves the rest of the ledger as it was. *)
Lemma processEmail_ledger (analysis : EmailData -> AnalysisResult)
    (element : Reads) (a : SponsorGuardAgent) :
  processedEmails (processEmail analysis element a).1
  = processedEmails a ∪ {[ getEmailId (atCall element) ]}.
Proof.
  unfold processEmail, processEmail_start. cbv zeta.
  case_bool_decide as Hin.
  - cbn [fst]. apply set_eq. intros x.
    rewrite elem_of_union, elem_of_singleton. split; [auto |].
    intros [Hx | ->]; assumption.
  - destruct (processEmail_afterSave (getEmailId (atCall element))
                (afterSave element))
      as [ev2 [emailData |]]; [| reflexivity].
    match goal with
    | |- context [processEmail_afterAnalysis ?i ?e ?d ?r ?a0] =>
        pose proof (processEmail_afterAnalysis_ledger i e d r a0) as Hledger;
        destruct (processEmail_afterAnalysis i e d r a0) as [a3 ev3]
    end.
    exact Hledger.
Qed.

(** The same for an invocation that runs to its end with nothing else in
    between: a record without keyword ends it without an 'analyzeEmail'
    message, and the identity of the call is in the ledger. *)
Lemma processEmail_alone_no_keywords (analysis : EmailData -> AnalysisResult)
    (element : Reads) (emailData : EmailData) (a : SponsorGuardAgent) :
  extractEmailData (afterSave element) = Some emailData ->
  hasSponsortKeywords emailData = false ->
  (forall emailId sent,
     EvAnalyze emailId sent ∉ (processEmail analysis element a).2) /\
  getEmailId (atCall element) ∈ processedEmails (processEmail analysis element a).1.
Proof.
  intros Hextract Hkw. split.
  - unfold processEmail.
    pose proof (processEmail_start_quiet (atCall element) a) as Hquiet.
    destruct (processEmail_start (atCall element) a) as [[a1 ev1] [emailId |]];
      simpl in Hquiet; [| exact Hquiet].
    unfold processEmail_afterSave. rewrite Hextract, Hkw. simpl.
    intros emailId' sent. rewrite app_nil_r. apply Hquiet.
  - rewrite processEmail_ledger. apply elem_of_union_r, elem_of_singleton.
    reflexivity.
Qed.

(** X6: once an invocation has run for a node, an invocation for a node
    that resolves to the same identity when it is called (the same node or
    another one, whatever else has changed on the page) finds the identity
    in the ledger and returns after the membership check, whatever the
    reply would be. *)
Theorem processEmail_twice (analysis analysis' : EmailData -> AnalysisResult)
    (first second : Reads) (a : SponsorGuardAgent) :
  getEmailId (atCall second) = getEmailId (atCall first) ->
  processEmail analysis' second (processEmail analysis first a).1
  = ((processEmail analysis first a).1,
     [EvHas (getEmailId (atCall first)) true]).
Proof.
  intros Hsame. rewrite <- Hsame. apply processEmail_known.
  rewrite processEmail_ledger, Hsame.
  apply elem_of_union_r, elem_of_singleton. reflexivity.
Qed.

Lemma identities_cons (element : Reads) (rest : list Reads) :
  identities (element :: rest)
  = {[ getEmailId (atCall element) ]} ∪ identities rest.
Proof. reflexivity. Qed.

Lemma processAll_ledger_union (analysis : EmailData -> AnalysisResult)
    (elements : list Reads) (a : SponsorGuardAgent) :
  processedEmails (processAll analysis elements a).1
  = processedEmails a ∪ identities elements.
Proof.
  revert a. induction elements as [| element rest IH]; intros a.
  - simpl. unfold identities. simpl. apply set_eq. intros x.
    rewrite elem_of_union, elem_of_empty. tauto.
  - cbn [processAll].
    pose proof (processEmail_ledger analysis element a) as Hone.
    destruct (processEmail analysis element a) as [a1 ev1].
    specialize (IH a1).
    destruct (processAll analysis rest a1) as [a2 ev2].
    cbn [fst] in *. rewrite IH, Hone, identities_cons.
    apply set_eq. intros x. rewrite !elem_of_union. tauto.
Qed.

(** X7: after the nodes of a list were processed one after the other, the
    ledger holds what it held before and, for every node of the list, the
    identity that the node had when its invocation was called, analysed or
    not, and nothing else. *)
Theorem processAll_ledger (analysis : EmailData -> AnalysisResult)
    (elements : list Reads) (a : SponsorGuardAgent) :
  processedEmails (processAll analysis elements a).1
  = processedEmails a ∪ identities elements
  /\ (forall element, In element elements ->
      getEmailId (atCall element)
      ∈ processedEmails (processAll analysis elements a).1).
Proof.
  split; [apply processAll_ledger_union |].
  intros element Hin. rewrite processAll_ledger_union.
  apply elem_of_union_r. unfold identities.
  apply elem_of_list_to_set, list_elem_of_In.
  apply (in_map (fun element => getEmailId (atCall element))), Hin.
Qed.

(** X8: the 'saveToGoogleDocs' message is only sent for a reply without error
    that the reconciler takes for a sponsor, to a record that passed the
    prefilter, from a node that was not in the ledger. *)
Theorem processEmail_export_only_sponsor (analysis : EmailData -> AnalysisResult)
    (element : Reads) (a : SponsorGuardAgent) (result : AnalysisResult) :
  EvGoogleDocs result ∈ (processEmail analysis element a).2 ->
  (getEmailId (atCall element) ∉ processedEmails a) /\
  exists emailData,
    extractEmailData (afterSave element) = Some emailData /\
    hasSponsortKeywords emailData = true /\
    result = analysis emailData /\
    truthyOpt (error result) = false /\
    isSponsorEmail result = true.
Proof.
  unfold processEmail, processEmail_start. cbv zeta.
  case_bool_decide as Hin; [cbn [snd]; intros Hev; split_events Hev |].
  unfold processEmail_afterSave.
  destruct (extractEmailData (afterSave element)) as [emailData |];
    [| cbn [snd]; intros Hev; split_events Hev].
  destruct (hasSponsortKeywords emailData) eqn:Hkw; cbn [negb];
    [| cbn [snd]; intros Hev; split_events Hev].
  unfold processEmail_afterAnalysis, markAsSponsorEmail.
  destruct (truthyOpt (error (analysis emailData))) eqn:Herr;
    [destruct (has_sponsor_label (afterReply element)); cbn [snd]; intros Hev;
     split_events Hev |].
  destruct (isSponsorEmail (analysis emailData)) eqn:Hsp;
    [| cbn [snd]; intros Hev; split_events Hev].
  destruct (has_sponsor_label (afterReply element)); cbn [snd]; intros Hev;
    split_events Hev; injection Hev as ->;
    (split; [exact Hin | exists emailData; auto]).
Qed.

End LedgerProperties.

(** ** Statistics *)

Section StatsProperties.
Context `{Host}.

Lemma processEmail_afterAnalysis_push (emailId : jsstring) (element : Element)
    (emailData : EmailData) (result : AnalysisResult) (a : SponsorGuardAgent) :
  (length (sponsorEmails
             (processEmail_afterAnalysis emailId element emailData result a).1)
   <= S (length (sponsorEmails a)))%nat.
Proof.
  unfold processEmail_afterAnalysis, pushSponsor.
  destruct (truthyOpt (error result)); [| destruct (isSponsorEmail result)];
    cbn [fst sponsorEmails]; rewrite ?length_app; cbn [length]; lia.
Qed.

(** Every sponsor on record and every invocation in flight has an identity
    of its own in the ledger. *)
Lemma reachable_sponsors_bound (s : Session) :
  reachable s ->
  (length (sponsorEmails (agent s)) + length (inFlight s)
   <= size (processedEmails (agent s)))%nat.
Proof.
  induction 1 as [stored | s s' _ IH Hstep].
  - cbn. lia.
  - destruct Hstep as [element s | i element result s].
    + unfold call, processEmail_start. cbv zeta. case_bool_decide as Hin.
      * exact IH.
      * cbn [agent inFlight processedEmails sponsorEmails].
        rewrite length_app, size_union, size_singleton.
        -- cbn [length]. lia.
        -- intros x Hx Hx'. apply elem_of_singleton in Hx'. subst x. auto.
    + unfold resume. destruct (inFlight s !! i) as [t |] eqn:Hi; [| exact IH].
      pose proof (lookup_lt_Some _ _ _ Hi) as Hlen.
      destruct t as [emailId | emailId emailData].
      * destruct (processEmail_afterSave emailId element) as [ev [d |]];
          cbn [agent inFlight].
        -- rewrite length_insert. exact IH.
        -- rewrite length_delete by eauto. lia.
      * pose proof (processEmail_afterAnalysis_push emailId element emailData
                      result (agent s)) as Hpush.
        pose proof (processEmail_afterAnalysis_ledger emailId element emailData
                      result (agent s)) as Hledger.
        destruct (processEmail_afterAnalysis emailId element emailData result
                    (agent s)) as [a ev].
        cbn [fst agent inFlight] in *. rewrite Hledger.
        rewrite length_delete by eauto. lia.
Qed.

(** X9: in a session without rescan, [getStats] never reports more sponsor
    emails than processed emails, at any point of any interleaving. *)
Theorem getStats_sponsors_le_processed (s : Session) :
  reachable s ->
  (stats_sponsorEmails (getStats (agent s))
   <= stats_processedEmails (getStats (agent s)))%nat.
Proof.
  intros Hreach. apply reachable_sponsors_bound in Hreach.
  unfold getStats. cbn [stats_sponsorEmails stats_processedEmails]. lia.
Qed.

End StatsProperties.

Lemma getStats_sponsors_le_processed_witness :
  reachable (H := testHost)
    (resume (H := testHost) 0 testEmail zeroScoreResult
       (resume (H := testHost) 0 testEmail zeroScoreResult
          (call testEmail newSession))) /\
  (stats_sponsorEmails
     (getStats (agent
        (resume (H := testHost) 0 testEmail zeroScoreResult
           (resume (H := testHost) 0 testEmail zeroScoreResult
              (call testEmail newSession)))))
   <= stats_processedEmails
        (getStats (agent
           (resume (H := testHost) 0 testEmail zeroScoreResult
              (resume (H := testHost) 0 testEmail zeroScoreResult
                 (call testEmail newSession))))))%nat.
Proof.
  assert (Hreach : reachable (H := testHost)
            (resume (H := testHost) 0 testEmail zeroScoreResult
               (resume (H := testHost) 0 testEmail zeroScoreResult
                  (call testEmail newSession)))).
  { eapply reachable_step; [| apply step_resume].
    eapply reachable_step; [| apply step_resume].
    eapply reachable_step; [| apply step_call].
    apply (reachable_start ∅). }
  split; [exact Hreach |].
  apply (getStats_sponsors_le_processed (H := testHost) _ Hreach).
Defined.

(** ** Scans *)

Section ScanProperties.
Context `{Host}.

(** X10: a node that [getEmailElements] keeps has more than 50 code units of
    text and no label, so that [extractEmailData] gives a record for it. *)
Theorem getEmailElements_extractable (found : list Element) (element : Element) :
  In element (getEmailElements found) ->
  In element found /\
  has_sponsor_label element = false /\
  exists emailData,
    extractEmailData element = Some emailData /\
    (50 < length (body emailData) \/ length (body emailData) = 5000)%nat.
Proof.
  unfold getEmailElements. rewrite List.filter_In.
  intros [Hin Hkeep]. split; [exact Hin |].
  unfold hasMeaningfulContent in Hkeep. cbv zeta in Hkeep.
  rewrite !andb_true_iff, negb_true_iff in Hkeep.
  destruct Hkeep as [[Htruthy Hlong] Hlabel]. split; [exact Hlabel |].
  apply Z.ltb_lt in Hlong.
  unfold extractEmailData. cbv zeta.
  set (text := if truthyStr (textContent element)
               then textContent element else innerText element) in *.
  rewrite Htruthy. destruct (Z.ltb_spec (Z.of_nat (length text)) 20); [lia |].
  cbn [negb orb]. eexists. split; [reflexivity |].
  cbn [body]. unfold slice0. rewrite length_take. lia.
Qed.

Lemma processEmail_ledger_mono (analysis : EmailData -> AnalysisResult)
    (element : Reads) (a : SponsorGuardAgent) :
  processedEmails a ⊆ processedEmails (processEmail analysis element a).1.
Proof. rewrite processEmail_ledger. apply union_subseteq_l. Qed.

Lemma isNewEmail_false (a : SponsorGuardAgent) (element : Element) :
  isNewEmail a element = false -> getEmailId element ∈ processedEmails a.
Proof.
  unfold isNewEmail. cbv zeta. rewrite getEmailId_truthy. cbn [andb].
  intros Hnew. apply negb_false_iff, bool_decide_eq_true in Hnew. exact Hnew.
Qed.

Lemma processAll_skip_known (analysis : EmailData -> AnalysisResult)
    (nodes : list ScannedNode) (a0 a : SponsorGuardAgent) :
  Forall (fun node => getEmailId (atCall (reads node))
                      = getEmailId (asFound node)) nodes ->
  processedEmails a0 ⊆ processedEmails a ->
  (processAll analysis
     (List.map reads
        (List.filter (fun node => isNewEmail a0 (asFound node)) nodes)) a).1
  = (processAll analysis (List.map reads nodes) a).1 /\
  List.filter (fun e => negb (isSkip e))
    (processAll analysis
       (List.map reads
          (List.filter (fun node => isNewEmail a0 (asFound node)) nodes)) a).2
  = List.filter (fun e => negb (isSkip e))
      (processAll analysis (List.map reads nodes) a).2.
Proof.
  intros Hstable. revert a.
  induction Hstable as [| node rest Hnode _ IH]; intros a Hsub.
  - split; reflexivity.
  - cbn [List.filter]. destruct (isNewEmail a0 (asFound node)) eqn:Hnew.
    + cbn [List.map processAll].
      pose proof (processEmail_ledger_mono analysis (reads node) a) as Hmono.
      destruct (processEmail analysis (reads node) a) as [a1 ev1].
      cbn [fst] in Hmono.
      destruct (IH a1 ltac:(etransitivity; eassumption)) as [IHa IHev].
      destruct (processAll analysis
                  (List.map reads
                     (List.filter (fun node => isNewEmail a0 (asFound node))
                        rest)) a1)
        as [a2 ev2].
      destruct (processAll analysis (List.map reads rest) a1) as [a2' ev2'].
      cbn [fst snd] in *. split; [exact IHa |].
      rewrite !List.filter_app, IHev. reflexivity.
    + (* in the ledger when the scan started: left out, or skipped *)
      apply isNewEmail_false in Hnew. rewrite <- Hnode in Hnew.
      cbn [List.map processAll].
      rewrite (processEmail_known analysis (reads node) a)
        by (apply Hsub, Hnew).
      destruct (IH a Hsub) as [IHa IHev].
      destruct (processAll analysis (List.map reads rest) a) as [a2 ev2].
      cbn [fst snd app List.filter isSkip negb] in *. auto.
Qed.

Lemma Forall_filter_keep {A} (P : A -> Prop) (p : A -> bool) (l : list A) :
  Forall P l -> Forall P (List.filter p l).
Proof.
  induction 1 as [| x l Hx _ IH]; [constructor |]. cbn [List.filter].
  destruct (p x); [constructor; assumption | assumption].
Qed.

(** X11: when every node resolves, at the call of its invocation, to the
    identity that it had when the scan collected it, [processNewEmails]
    leaves the agent as [processExistingEmails] does and does the same
    things in the same order; only the invocations that would find their
    identity in the ledger of the start are not made. *)
Theorem processNewEmails_as_scan (analysis : EmailData -> AnalysisResult)
    (found : list ScannedNode) (a : SponsorGuardAgent) :
  Forall (fun node => getEmailId (atCall (reads node))
                      = getEmailId (asFound node)) found ->
  (processNewEmails analysis found a).1
  = (processExistingEmails analysis found a).1 /\
  List.filter (fun e => negb (isSkip e)) (processNewEmails analysis found a).2
  = List.filter (fun e => negb (isSkip e))
      (processExistingEmails analysis found a).2.
Proof.
  intros Hstable.
  unfold processNewEmails, processExistingEmails. cbv zeta.
  pose proof (processAll_skip_known analysis (scanEmailElements found) a a
                (Forall_filter_keep _ _ _ Hstable) ltac:(reflexivity)) as Hskip.
  destruct (List.filter (fun node => isNewEmail a (asFound node))
              (scanEmailElements found)) eqn:Hnew.
  - exact Hskip.
  - exact Hskip.
Qed.

End ScanProperties.

(** ** Rescans *)

Section RescanProperties.
Context `{Host}.

Lemma ledgerInvariant_idle (a : SponsorGuardAgent) :
  ledgerInvariant {| agent := a; inFlight := []; trace := [] |}.
Proof.
  split; cbn [agent inFlight trace].
  - intros emailId. cbn. lia.
  - intros emailId. cbn. lia.
  - intros emailId Hin. apply elem_of_nil in Hin. destruct Hin.
  - intros k emailId emailData Hk. rewrite lookup_nil in Hk. discriminate Hk.
Qed.

(** An invocation that nothing interrupts, as steps of the session. *)
Lemma processEmail_steps (analysis : EmailData -> AnalysisResult)
    (element : Reads) (a : SponsorGuardAgent) (tr : list Event) :
  exists r1 r2,
    {| agent := (processEmail analysis element a).1;
       inFlight := [];
       trace := tr ++ (processEmail analysis element a).2 |}
    = resume 0 (afterReply element) r2
        (resume 0 (afterSave element) r1
           (call (atCall element)
              {| agent := a; inFlight := []; trace := tr |})).
Proof.
  unfold processEmail, call. cbn [agent inFlight trace].
  destruct (processEmail_start (atCall element) a) as [[a1 ev1] [emailId |]];
    cbn [fst snd].
  - unfold resume at 2. cbn [agent inFlight trace app lookup list_lookup].
    destruct (processEmail_afterSave emailId (afterSave element))
      as [ev2 [emailData |]];
      cbn [fst snd delete list_delete insert list_insert].
    + exists zeroScoreResult, (analysis emailData).
      unfold resume. cbn [agent inFlight trace lookup list_lookup].
      destruct (processEmail_afterAnalysis emailId (afterReply element)
                  emailData (analysis emailData) a1) as [a3 ev3].
      cbn [fst snd delete list_delete]. rewrite <- !app_assoc. reflexivity.
    + exists zeroScoreResult, zeroScoreResult.
      unfold resume. cbn [agent inFlight trace lookup list_lookup].
      rewrite <- app_assoc. reflexivity.
  - exists zeroScoreResult, zeroScoreResult. reflexivity.
Qed.

Lemma processEmail_invariant (analysis : EmailData -> AnalysisResult)
    (element : Reads) (a : SponsorGuardAgent) (tr : list Event) :
  ledgerInvariant {| agent := a; inFlight := []; trace := tr |} ->
  ledgerInvariant {| agent := (processEmail analysis element a).1;
                     inFlight := [];
                     trace := tr ++ (processEmail analysis element a).2 |}.
Proof.
  intros Hinv.
  destruct (processEmail_steps analysis element a tr) as (r1 & r2 & ->).
  apply ledgerInvariant_resume, ledgerInvariant_resume, ledgerInvariant_call.
  exact Hinv.
Qed.

Lemma processAll_invariant (analysis : EmailData -> AnalysisResult)
    (elements : list Reads) (a : SponsorGuardAgent) (tr : list Event) :
  ledgerInvariant {| agent := a; inFlight := []; trace := tr |} ->
  ledgerInvariant {| agent := (processAll analysis elements a).1;
                     inFlight := [];
                     trace := tr ++ (processAll analysis elements a).2 |}.
Proof.
  revert a tr. induction elements as [| element rest IH]; intros a tr Hinv.
  - simpl. rewrite app_nil_r. exact Hinv.
  - simpl.
    pose proof (processEmail_invariant analysis element a tr Hinv) as H1.
    destruct (processEmail analysis element a) as [a1 ev1].
    specialize (IH a1 (tr ++ ev1) H1).
    destruct (processAll analysis rest a1) as [a2 ev2].
    cbn [fst snd] in *. rewrite app_assoc. exact IH.
Qed.

Lemma processAll_app (analysis : EmailData -> AnalysisResult)
    (l1 l2 : list Reads) (a : SponsorGuardAgent) :
  processAll analysis (l1 ++ l2) a
  = ((processAll analysis l2 (processAll analysis l1 a).1).1,
     (processAll analysis l1 a).2
     ++ (processAll analysis l2 (processAll analysis l1 a).1).2).
Proof.
  revert a. induction l1 as [| element l1 IH]; intros a.
  - simpl. destruct (processAll analysis l2 a). reflexivity.
  - simpl. destruct (processEmail analysis element a) as [a1 ev1].
    rewrite IH. destruct (processAll analysis l1 a1) as [a2 ev2].
    cbn [fst snd]. rewrite app_assoc. reflexivity.
Qed.

Lemma elem_of_identities (emailId : jsstring) (elements : list Reads) :
  emailId ∈ identities elements <->
  exists element, In element elements /\ getEmailId (atCall element) = emailId.
Proof.
  unfold identities. rewrite elem_of_list_to_set, list_elem_of_In, in_map_iff.
  split; intros (element & H1 & H2); exists element; auto.
Qed.

(** A new identity with a keyword is sent to the analysis. *)
Lemma processEmail_new_analysed (analysis : EmailData -> AnalysisResult)
    (element : Reads) (emailData : EmailData) (a : SponsorGuardAgent) :
  getEmailId (atCall element) ∉ processedEmails a ->
  extractEmailData (afterSave element) = Some emailData ->
  hasSponsortKeywords emailData = true ->
  (1 <= analysesOf (getEmailId (atCall element))
          (processEmail analysis element a).2)%nat.
Proof.
  intros Hnew Hextract Hkw. unfold processEmail, processEmail_start.
  cbv zeta. rewrite bool_decide_eq_false_2 by exact Hnew.
  unfold processEmail_afterSave. rewrite Hextract, Hkw. cbn [negb].
  destruct (processEmail_afterAnalysis _ _ _ _ _) as [a3 ev3].
  cbn [snd]. count_steps.
Qed.

(** X12: a rescan forgets the ledger.  When nothing else runs during its
    scan, the first node of the scan that resolves to a given identity at
    the call of its invocation, if the record extracted from it after the
    save has a keyword, is sent to the analysis under that identity once,
    and once only, during the rescan, whatever the ledger held before. *)
Theorem rescanEmails_analyses_again (analysis : EmailData -> AnalysisResult)
    (found pre post : list ScannedNode) (node : ScannedNode)
    (emailData : EmailData) (a : SponsorGuardAgent) :
  scanEmailElements found = pre ++ node :: post ->
  (forall n, In n pre ->
     getEmailId (atCall (reads n)) <> getEmailId (atCall (reads node))) ->
  extractEmailData (afterSave (reads node)) = Some emailData ->
  hasSponsortKeywords emailData = true ->
  analysesOf (getEmailId (atCall (reads node)))
    (rescanEmails analysis found a).2 = 1%nat.
Proof.
  intros Hscan Hfirst Hextract Hkw.
  unfold rescanEmails, processExistingEmails. cbv zeta.
  set (emailId := getEmailId (atCall (reads node))).
  pose proof (processAll_invariant analysis
                (List.map reads (scanEmailElements found))
                (clearProcessed a) [] (ledgerInvariant_idle _)) as Hinv.
  pose proof (inv_once _ Hinv emailId) as Honce.
  cbn [trace inFlight app] in Honce.
  rewrite pendingSaves_nil, Nat.add_0_r in Honce.
  assert (Hsent : (1 <= analysesOf emailId
                          (processAll analysis
                             (List.map reads (scanEmailElements found))
                             (clearProcessed a)).2)%nat).
  { rewrite Hscan, List.map_app, processAll_app. cbn [snd].
    rewrite analysesOf_app. cbn [List.map processAll].
    set (a1 := (processAll analysis (List.map reads pre) (clearProcessed a)).1).
    assert (Hnew : emailId ∉ processedEmails a1).
    { unfold a1. rewrite processAll_ledger_union.
      cbn [clearProcessed processedEmails].
      intros [Hempty | Hpre]%elem_of_union.
      - apply elem_of_empty in Hempty. exact Hempty.
      - apply elem_of_identities in Hpre as (e & Hin & Heq).
        apply in_map_iff in Hin as (n & <- & Hin).
        exact (Hfirst n Hin Heq). }
    pose proof (processEmail_new_analysed analysis (reads node) emailData a1
                  Hnew Hextract Hkw) as Hone.
    fold emailId in Hone.
    destruct (processEmail analysis (reads node) a1) as [a2 ev2].
    destruct (processAll analysis (List.map reads post) a2) as [a3 ev3].
    cbn [snd] in *. rewrite analysesOf_app. lia. }
  destruct (processAll analysis (List.map reads (scanEmailElements found))
              (clearProcessed a)) as [a1 ev].
  cbn [snd] in *. rewrite analysesOf_cons. cbn [isAnalysisOf]. lia.
Qed.

End RescanProperties.

Lemma processEmail_twice_witness :
  getEmailId (labelled (lit "HIGH") threadRow) = getEmailId threadRow /\
  (@processEmail testHost (fun _ => zeroScoreResult)
     (still (labelled (lit "HIGH") threadRow))
     (@processEmail testHost (fun _ => sponsorReply) (still threadRow)
        newAgent).1).2
  = [EvHas (lit "thread_18c2f0a9") true].
Proof.
  split; [reflexivity |].
  rewrite (@processEmail_twice testHost (fun _ => sponsorReply)
             (fun _ => zeroScoreResult) (still threadRow)
             (still (labelled (lit "HIGH") threadRow)) newAgent eq_refl).
  reflexivity.
Defined.

(** A node without identifier attribute resolves to another identity once
    it has its label: an invocation for the test email after the first one
    labelled it sends it to the analysis a second time. *)
Example labelled_test_email_analysed_again :
  getEmailId testEmail = lit "content_ghdc61_0" /\
  getEmailId (labelled (lit "HIGH") testEmail) = lit "content_xppx5m_0" /\
  List.map (fun e => match e with
                     | EvHas emailId found => Some (emailId, found)
                     | _ => None
                     end)
    (@processEmail testHost (fun _ => sponsorReply)
       (still (labelled (lit "HIGH") testEmail))
       (@processEmail testHost (fun _ => sponsorReply) (still testEmail)
          newAgent).1).2
  = [Some (lit "content_xppx5m_0", false); None; None; None; None]
  /\ analysesOf (lit "content_xppx5m_0")
       (@processEmail testHost (fun _ => sponsorReply)
          (still (labelled (lit "HIGH") testEmail))
          (@processEmail testHost (fun _ => sponsorReply) (still testEmail)
             newAgent).1).2 = 1%nat.
Proof. repeat split; vm_compute; reflexivity. Qed.

Lemma processEmail_export_only_sponsor_witness :
  EvGoogleDocs sponsorReply
  ∈ (@processEmail testHost (fun _ => sponsorReply) (still testEmail)
       newAgent).2 /\
  isSponsorEmail sponsorReply = true.
Proof.
  assert (Hev : EvGoogleDocs sponsorReply
                ∈ (@processEmail testHost (fun _ => sponsorReply)
                     (still testEmail) newAgent).2).
  { apply list_elem_of_In. vm_compute. do 5 right. left. reflexivity. }
  split; [exact Hev |].
  destruct (@processEmail_export_only_sponsor testHost (fun _ => sponsorReply)
              (still testEmail) newAgent sponsorReply Hev)
    as (_ & emailData & _ & _ & _ & _ & Hsponsor).
  exact Hsponsor.
Defined.

Lemma getEmailElements_extractable_witness :
  In testEmail (getEmailElements [plainEmail; testEmail]) /\
  exists emailData, @extractEmailData testHost testEmail = Some emailData.
Proof.
  assert (Hin : In testEmail (getEmailElements [plainEmail; testEmail])).
  { vm_compute. right. left. reflexivity. }
  split; [exact Hin |].
  destruct (@getEmailElements_extractable testHost [plainEmail; testEmail]
              testEmail Hin) as (_ & _ & emailData & Hextract & _).
  exists emailData. exact Hextract.
Defined.

Lemma processNewEmails_as_scan_witness :
  (@processNewEmails testHost (fun _ => sponsorReply)
     [unchanged threadRow; unchanged testEmail] seenTestEmail).1
  = (@processExistingEmails testHost (fun _ => sponsorReply)
       [unchanged threadRow; unchanged testEmail] seenTestEmail).1.
Proof.
  apply (@processNewEmails_as_scan testHost (fun _ => sponsorReply)
           [unchanged threadRow; unchanged testEmail] seenTestEmail).
  repeat constructor.
Defined.

Lemma rescanEmails_analyses_again_witness :
  getEmailId testEmail ∈ processedEmails seenTestEmail /\
  analysesOf (getEmailId testEmail)
    (@rescanEmails testHost (fun _ => sponsorReply) [unchanged testEmail]
       seenTestEmail).2
  = 1%nat.
Proof.
  split.
  { unfold seenTestEmail. cbn [processedEmails].
    rewrite elem_of_singleton. reflexivity. }
  eapply (@rescanEmails_analyses_again testHost (fun _ => sponsorReply)
            [unchanged testEmail] [] [] (unchanged testEmail) _ seenTestEmail).
  - vm_compute. reflexivity.
  - intros e [].
  - vm_compute. reflexivity.
  - vm_compute. reflexivity.
Defined.

(** * Further properties of the service *)

(** ** Keyword lists *)

Lemma fallbackKeywords_sponsorStatus :
  incl fallbackKeywords sponsorStatusKeywords.
Proof.
  intros k Hk. unfold fallbackKeywords in Hk. unfold sponsorStatusKeywords.
  cbn [List.map] in *. cbn [In] in *.
  repeat (destruct Hk as [<- | Hk]; [auto 25 |]). contradiction.
Qed.

(** X13: the three keyword checks are nested: what the fallback detection
    accepts has a keyword of [determineSponsorStatus], and what
    [determineSponsorStatus] takes for a sponsor passes the prefilter of the
    content script. *)
Theorem keyword_checks_nested (remote : RemoteResult) (emailData : EmailData) :
  (fallbackSponsorDetection emailData = true ->
   someIncluded sponsorStatusKeywords (emailText emailData) = true) /\
  (determineSponsorStatus remote emailData = true ->
   hasSponsortKeywords emailData = true).
Proof.
  split.
  - apply someIncluded_incl, fallbackKeywords_sponsorStatus.
  - unfold determineSponsorStatus. cbv zeta. intros [Hkw _]%andb_true_iff.
    revert Hkw. apply someIncluded_incl, sponsorStatusKeywords_prefilter.
Qed.

(** X14: when no sender was found on the node, the record carries the
    placeholder 'Unknown Sender', which [determineSponsorStatus] takes for
    a professional sender: a keyword is then enough to make a sponsor. *)
Theorem unknown_sender_is_professional `{Host} (element : Element)
    (emailData : EmailData) (remote : RemoteResult) :
  extractEmailData element = Some emailData ->
  senderElement element = None ->
  matchEmailAddress (if truthyStr (textContent element)
                     then textContent element else innerText element) = None ->
  sender emailData = lit "Unknown Sender" /\
  determineSponsorStatus remote emailData
  = someIncluded sponsorStatusKeywords (emailText emailData).
Proof.
  intros Hextract Hnone Hmatch.
  assert (Hsender : sender emailData = lit "Unknown Sender").
  { unfold extractEmailData in Hextract. cbv zeta in Hextract.
    destruct (negb _ || _); [discriminate |].
    apply (inj Some) in Hextract. subst emailData. unfold sender.
    rewrite Hnone, Hmatch. reflexivity. }
  split; [exact Hsender |].
  unfold determineSponsorStatus, professionalSender. cbv zeta.
  rewrite Hsender.
  change (truthyStr (lit "Unknown Sender")
          && negb (includes (lit "Unknown Sender") (lit "gmail.com"))
          && negb (includes (lit "Unknown Sender") (lit "yahoo.com"))
          && negb (includes (lit "Unknown Sender") (lit "hotmail.com")))
    with true.
  rewrite orb_true_r, andb_true_r. reflexivity.
Qed.

Lemma unknown_sender_is_professional_witness :
  exists emailData,
    @extractEmailData quietHost plainEmail = Some emailData /\
    sender emailData = lit "Unknown Sender".
Proof.
  eexists. split; [vm_compute; reflexivity |].
  eapply (@unknown_sender_is_professional quietHost plainEmail _ readmeResponse).
  - vm_compute. reflexivity.
  - reflexivity.
  - reflexivity.
Defined.

(** ** The activity log and the messages of an analysis *)

Lemma unshift_pop_take {A} (max : nat) (x : A) (l : list A) :
  (length l <= max)%nat ->
  (if (max <? length (x :: l))%nat then removelast (x :: l) else x :: l)
  = take max (x :: l).
Proof.
  intros Hle. cbn [length]. destruct (Nat.ltb_spec max (S (length l))).
  - rewrite removelast_firstn_len. cbn [length Nat.pred].
    replace (length l) with max by lia. reflexivity.
  - symmetry. apply take_ge. cbn [length]. lia.
Qed.

(** [addActivity] puts the activity first and keeps the twenty most recent
    ones. *)
Lemma addActivity_run (activity : Activity) (s : BackgroundService) :
  (length (recentActivities s) <= maxActivities)%nat ->
  addActivity activity s
  = (inr tt,
     {| recentActivities := take maxActivities (activity :: recentActivities s);
        sentMessages := sentMessages s ++ [MsgActivity activity] |}).
Proof.
  intros Hle. unfold addActivity, sendMessage, Svc.modify, mbind, svc_bind,
    Svc.bind.
  cbn [recentActivities sentMessages].
  rewrite unshift_pop_take by exact Hle. reflexivity.
Qed.

Section ServiceProperties.
Context `{Host} `{SponsorExtractors}.

(** The website of the details: found when one is at hand, and then
    taken from the body only if the answer has none; else the exception
    of [matchAll]. *)
Lemma orThrowing_website (given : option jsstring) (emailData : EmailData) :
  (websiteAtHand given emailData /\
   exists found,
     orThrowing given (extractWebsiteFromEmail emailData) = inr found /\
     truthyStr found = true /\
     (truthyOpt given = true -> given = Some found) /\
     (truthyOpt given = false ->
      startsWith found (lit "www.") = true /\
      exists domain,
        In domain (matchUrlDomains (body emailData)) /\
        usableDomain domain = true /\
        found = if startsWith domain (lit "www.") then domain
                else lit "www." ++ domain))
  \/ (~ websiteAtHand given emailData /\
      orThrowing given (extractWebsiteFromEmail emailData)
      = inl matchAllNonGlobal).
Proof.
  unfold orThrowing, websiteAtHand.
  destruct (truthyOpt given) eqn:Hgiven.
  - left. split; [left; reflexivity |].
    destruct given as [found |]; [| discriminate Hgiven].
    exists found. cbn [default]. repeat split; auto; discriminate.
  - unfold extractWebsiteFromEmail. cbv zeta.
    destruct (List.find usableDomain (matchUrlDomains (body emailData)))
      as [domain |] eqn:Hfind.
    + left. apply List.find_some in Hfind as [Hin Husable].
      split; [right; exists domain; auto |].
      eexists. split; [reflexivity |]. split; [| split; [discriminate |]].
      * destruct (startsWith domain (lit "www.")) eqn:Hwww; [| reflexivity].
        unfold usableDomain in Husable.
        rewrite !andb_true_iff in Husable. tauto.
      * intros _. split; [| exists domain; auto].
        destruct (startsWith domain (lit "www.")) eqn:Hwww;
          [exact Hwww |].
        change (lit "www." ++ domain) with (119 :: 119 :: 119 :: 46 :: domain).
        cbn [lit list_ascii_of_string List.map startsWith].
        destruct domain; reflexivity.
    + right. split; [| reflexivity].
      intros [Hyes | (domain & Hin & Husable)]; [discriminate Hyes |].
      rewrite (List.find_none _ _ Hfind domain Hin) in Husable.
      discriminate Husable.
Qed.

Lemma sponsorData_cases (remote : RemoteResult) (emailData : EmailData) :
  (websiteAtHand (info website (r_extractedInfo remote)) emailData /\
   exists data, sponsorData remote emailData = inr data)
  \/ (~ websiteAtHand (info website (r_extractedInfo remote)) emailData /\
      sponsorData remote emailData = inl matchAllNonGlobal).
Proof.
  unfold sponsorData. cbv zeta.
  destruct (orThrowing_website (info website (r_extractedInfo remote)) emailData)
    as [(Hyes & found & -> & _) | (Hno & ->)].
  - left. split; [exact Hyes |]. eexists. reflexivity.
  - right. split; [exact Hno | reflexivity].
Qed.

(** The four ways in which [analyzeEmailWithAI] ends, with the state that
    each leaves. *)
Lemma analyzeEmailWithAI_run (fetch : jsstring -> FetchOutcome)
    (emailData : EmailData) (s : BackgroundService) :
  let scanned := {| act_type := lit "scanned";
                    act_message := lit "Analyzing: " ++ subject emailData;
                    act_timestamp := now |} in
  let sponsor := {| act_type := lit "sponsor";
                    act_message := lit "Sponsor detected: " ++ subject emailData;
                    act_timestamp := now |} in
  let s1 := (addActivity scanned s).2 in
  (exists message,
     (forall remote, ~ remoteSucceeded (fetch (emailContent emailData)) remote) /\
     analyzeEmailWithAI fetch emailData s
     = (inr (fallbackAnalysis message emailData), s1))
  \/ (exists remote,
        remoteSucceeded (fetch (emailContent emailData)) remote /\
        ((determineSponsorStatus remote emailData = false /\
          analyzeEmailWithAI fetch emailData s
          = (inr (finalResult remote false emailData), s1))
         \/ (determineSponsorStatus remote emailData = true /\
             exists data,
               sponsorData remote emailData = inr data /\
               analyzeEmailWithAI fetch emailData s
               = (inr (finalResult remote true emailData),
                  (sendMessage (MsgSponsorDetected data)
                     (addActivity sponsor s1).2).2))
         \/ (determineSponsorStatus remote emailData = true /\
             exists message,
               sponsorData remote emailData = inl message /\
               analyzeEmailWithAI fetch emailData s
               = (inr (fallbackAnalysis message emailData),
                  (addActivity sponsor s1).2)))).
Proof.
  cbv zeta. unfold analyzeEmailWithAI, Svc.tryCatch.
  unfold mbind, svc_bind, Svc.bind.
  destruct (addActivity_returns
              {| act_type := lit "scanned";
                 act_message := lit "Analyzing: " ++ subject emailData;
                 act_timestamp := now |} s) as [s1 Hs1].
  rewrite !Hs1. cbn [snd].
  destruct (fetch (emailContent emailData)) as [message | st json] eqn:Hout.
  - left. exists message. split; [| reflexivity].
    intros remote (st & Heq & _). discriminate Heq.
  - cbn [fetchResult]. destruct (response_ok st) eqn:Hok; cbn [negb].
    + destruct json as [message | | remote].
      * left. exists message. split; [| reflexivity].
        intros remote (st' & Heq & _). discriminate Heq.
      * left. eexists. split; [| reflexivity].
        intros remote (st' & Heq & _). discriminate Heq.
      * right. exists remote. cbn [Svc.ret].
        assert (Hsucc : remoteSucceeded (Response st (JsonObject remote)) remote)
          by (exists st; auto).
        split; [exact Hsucc |].
        destruct (determineSponsorStatus remote emailData) eqn:Hdet.
        -- destruct (addActivity_returns
              {| act_type := lit "sponsor";
                 act_message := lit "Sponsor detected: " ++ subject emailData;
                 act_timestamp := now |} s1) as [s2 Hs2].
           rewrite !Hs2. cbn [snd]. unfold Svc.lift.
           destruct (sponsorData remote emailData) as [message | data].
           ++ right; right. split; [reflexivity |]. exists message.
              split; reflexivity.
           ++ right; left. split; [reflexivity |]. exists data.
              split; reflexivity.
        -- left. split; reflexivity.
    + left. eexists. split; [| reflexivity].
      intros remote (st' & Heq & Hok'). injection Heq as -> _. congruence.
Qed.


(** X16: the 'sponsorDetected' message goes to the popup exactly when the
    remote call succeeded, [determineSponsorStatus] says sponsor and a
    website is at hand (in the answer, or as a usable URL in the body).
    Without one, [extractWebsiteFromEmail] throws while the message is put
    together: nothing is sent and the answer is the fallback analysis, as
    it is when the remote call fails. *)
Theorem analyzeEmailWithAI_sponsor_message (fetch : jsstring -> FetchOutcome)
    (emailData : EmailData) (s : BackgroundService) :
  (length (recentActivities s) <= 20)%nat ->
  exists result s' sent,
    analyzeEmailWithAI fetch emailData s = (inr result, s') /\
    sentMessages s' = sentMessages s ++ sent /\
    ((exists data, In (MsgSponsorDetected data) sent) <->
     (exists remote,
        remoteSucceeded (fetch (emailContent emailData)) remote /\
        determineSponsorStatus remote emailData = true /\
        websiteAtHand (info website (r_extractedInfo remote)) emailData)) /\
    (forall remote,
       remoteSucceeded (fetch (emailContent emailData)) remote ->
       determineSponsorStatus remote emailData = true ->
       ~ websiteAtHand (info website (r_extractedInfo remote)) emailData ->
       result = fallbackAnalysis matchAllNonGlobal emailData).
Proof.
  intros Hle.
  pose proof (analyzeEmailWithAI_run fetch emailData s) as Hrun.
  cbv zeta in Hrun. rewrite addActivity_run in Hrun by exact Hle.
  cbn [snd] in Hrun.
  set (scanned := {| act_type := lit "scanned";
                     act_message := lit "Analyzing: " ++ subject emailData;
                     act_timestamp := now |}) in *.
  set (sponsor := {| act_type := lit "sponsor";
                     act_message := lit "Sponsor detected: " ++ subject emailData;
                     act_timestamp := now |}) in *.
  assert (Hlen1 : (length (take maxActivities (scanned :: recentActivities s))
                   <= maxActivities)%nat).
  { rewrite length_take. lia. }
  assert (Hsame : forall remote remote',
             remoteSucceeded (fetch (emailContent emailData)) remote ->
             remoteSucceeded (fetch (emailContent emailData)) remote' ->
             remote' = remote).
  { intros remote remote' (st & Heq & _) (st' & Heq' & _).
    rewrite Heq in Heq'. injection Heq' as _ <-. reflexivity. }
  destruct Hrun as [(message & Hnone & Hrun)
                   | (remote & Hsucc & [[Hno Hrun]
                                       | [(Hyes & data & Hdata & Hrun)
                                         | (Hyes & message & Hdata & Hrun)]])].
  - eexists. eexists. exists [MsgActivity scanned].
    split; [exact Hrun |]. split; [reflexivity |]. split; [split |].
    + intros (data & [Hd | []]). discriminate Hd.
    + intros (remote & Hsucc & _). destruct (Hnone remote Hsucc).
    + intros remote Hsucc. destruct (Hnone remote Hsucc).
  - eexists. eexists. exists [MsgActivity scanned].
    split; [exact Hrun |]. split; [reflexivity |]. split; [split |].
    + intros (data & [Hd | []]). discriminate Hd.
    + intros (remote' & Hsucc' & Hdet' & _).
      rewrite (Hsame _ _ Hsucc Hsucc') in Hdet'. congruence.
    + intros remote' Hsucc' Hdet'.
      rewrite (Hsame _ _ Hsucc Hsucc') in Hdet'. congruence.
  - rewrite addActivity_run in Hrun by exact Hlen1.
    destruct (sponsorData_cases remote emailData)
      as [[Hhand _] | [_ Hthrow]]; [| congruence].
    eexists. eexists.
    exists [MsgActivity scanned; MsgActivity sponsor; MsgSponsorDetected data].
    split; [exact Hrun |]. split; [| split; [split |]].
    + cbn [snd sendMessage Svc.modify sentMessages].
      rewrite <- !app_assoc. reflexivity.
    + intros _. exists remote. auto.
    + intros _. exists data. right. right. left. reflexivity.
    + intros remote' Hsucc' _ Hnot.
      rewrite (Hsame _ _ Hsucc Hsucc') in Hnot. contradiction.
  - rewrite addActivity_run in Hrun by exact Hlen1.
    destruct (sponsorData_cases remote emailData)
      as [[_ [data Hdata']] | [Hnot Hthrow]]; [congruence |].
    assert (message = matchAllNonGlobal) as -> by congruence.
    eexists. eexists. exists [MsgActivity scanned; MsgActivity sponsor].
    split; [exact Hrun |]. split; [| split; [split |]].
    + cbn [snd sentMessages]. rewrite <- !app_assoc. reflexivity.
    + intros (data & [Hd | [Hd | []]]); discriminate.
    + intros (remote' & Hsucc' & _ & Hhand).
      rewrite (Hsame _ _ Hsucc Hsucc') in Hhand. contradiction.
    + intros _ _ _ _. reflexivity.
Qed.

End ServiceProperties.


Lemma analyzeEmailWithAI_sponsor_message_witness :
  (length (recentActivities newService) <= 20)%nat /\
  exists result s' sent,
    @analyzeEmailWithAI testHost testExtractors
      (fun _ => Response 200 (JsonObject highRiskResponse)) testRecord newService
    = (inr result, s') /\
    sentMessages s' = sentMessages newService ++ sent /\
    result = @fallbackAnalysis testHost matchAllNonGlobal testRecord.
Proof.
  assert (Hle : (length (recentActivities newService) <= 20)%nat)
    by (simpl; lia).
  split; [exact Hle |].
  destruct (@analyzeEmailWithAI_sponsor_message testHost testExtractors
              (fun _ => Response 200 (JsonObject highRiskResponse)) testRecord
              newService Hle) as (result & s' & sent & Hrun & Hsent & _ & Hthrow).
  exists result, s', sent. split; [exact Hrun |]. split; [exact Hsent |].
  apply (Hthrow highRiskResponse).
  - exists 200. split; reflexivity.
  - vm_compute. reflexivity.
  - intros [Hgiven | (domain & Hin & _)]; [discriminate Hgiven | destruct Hin].
Defined.

(** The same email with the answer of the README, which carries a
    website, and with an answer that carries none: the message goes to the
    popup, or the answer is the fallback analysis, with the error of
    [matchAll], and nothing goes to the popup. *)
Example analyzeEmailWithAI_without_website :
  (exists result s',
     @analyzeEmailWithAI testHost testExtractors
       (fun _ => Response 200 (JsonObject readmeResponse)) testRecord newService
     = (inr result, s') /\
     error result = None /\ riskScore result = Some 25 /\
     List.map (fun m => match m with
                        | MsgActivity _ => false
                        | MsgSponsorDetected _ => true
                        end) (sentMessages s') = [false; false; true]) /\
  (exists result s',
     @analyzeEmailWithAI testHost testExtractors
       (fun _ => Response 200 (JsonObject highRiskResponse)) testRecord newService
     = (inr result, s') /\
     error result = Some matchAllNonGlobal /\ riskScore result = Some 50 /\
     List.map (fun m => match m with
                        | MsgActivity _ => false
                        | MsgSponsorDetected _ => true
                        end) (sentMessages s') = [false; false]).
Proof.
  split; eexists; eexists; (split; [vm_compute; reflexivity |]);
    repeat split.
Qed.

(** ** A failed remote call, seen from the content script *)

Section FailureProperties.
Context `{Host} `{SponsorExtractors}.



End FailureProperties.


(** ** The message handler and its counters *)

Section HandlerProperties.
Context `{Host} `{SponsorExtractors}.

Lemma analyzeEmailWithAI_returns (fetch : jsstring -> FetchOutcome)
    (emailData : EmailData) (s : BackgroundService) :
  exists result s', analyzeEmailWithAI fetch emailData s = (inr result, s').
Proof.
  destruct (fetchResult_total (fetch (emailContent emailData)))
    as [[message Hthrow] | [result Hok]].
  - destruct (analyzeEmailWithAI_caught fetch emailData s message Hthrow)
      as [s' Hrun].
    eauto.
  - destruct (analyzeEmailWithAI_answered fetch emailData s result Hok)
      as [s' [[Hrun _] | (_ & message & _ & Hrun)]]; eauto.
Qed.

(** X18: handling an 'analyzeEmail' message counts one scanned email, whatever
    becomes of the remote call and of the storage; when the storage works,
    the reply is the analysis and the sponsor counter goes up by one exactly
    when the analysis says sponsor. *)
Theorem handleAnalyzeEmail_counts (fetch : jsstring -> FetchOutcome)
    (storageSet : StatType -> Z -> option jsstring) (emailData : EmailData)
    (service : BackgroundService) (stats : ServiceStats) :
  let out := handleAnalyzeEmail fetch storageSet emailData service stats in
  st_scannedEmails out.2 = st_scannedEmails stats + 1 /\
  st_docsUpdates out.2 = st_docsUpdates stats /\
  ((forall statType value, storageSet statType value = None) ->
   analyzeEmailWithAI fetch emailData service = (inr out.1.1, out.1.2) /\
   st_sponsorEmails out.2
   = st_sponsorEmails stats + (if isSponsor out.1.1 then 1 else 0)).
Proof.
  cbv zeta. unfold handleAnalyzeEmail.
  destruct (analyzeEmailWithAI_returns fetch emailData service)
    as (analysis & service1 & Hrun).
  rewrite Hrun. unfold updateStats. cbv zeta.
  destruct (storageSet ScannedEmails
              (getStat ScannedEmails (incrementStat ScannedEmails stats)))
    eqn:Hset1.
  - split; [| split]; [cbn; lia | cbn; lia |].
    intros Hworks. rewrite Hworks in Hset1. discriminate Hset1.
  - destruct (isSponsor analysis) eqn:Hsp.
    + destruct (storageSet SponsorEmails _) eqn:Hset2.
      * split; [| split]; [cbn; lia | cbn; lia |].
        intros Hworks. rewrite Hworks in Hset2. discriminate Hset2.
      * split; [| split]; [cbn; lia | cbn; lia |].
        intros _. cbn. rewrite Hsp. split; [reflexivity | lia].
    + split; [| split]; [cbn; lia | cbn; lia |].
      intros _. cbn. rewrite Hsp. split; [reflexivity | lia].
Qed.


(** X20: the simplified service of background-simple.js keeps no activity
    log and sends no message.  It gives the same verdict as the full
    service (error, isSponsor, riskScore, status and flags agree, and on
    success the whole result) on every outcome of the remote call but one:
    when the call succeeds with a sponsor verdict and the full service
    throws while it puts the message to the popup together, the full
    service answers with its fallback analysis and the simplified one with
    the remote answer. *)
Theorem simple_service_same_verdict (fetch : jsstring -> FetchOutcome)
    (emailData : EmailData) (s : BackgroundService) :
  exists full s' simple,
    analyzeEmailWithAI fetch emailData s = (inr full, s') /\
    simple_analyzeEmailWithAI fetch emailData s = (inr simple, s) /\
    originalEmail full = originalEmail simple /\
    ((forall remote,
        remoteSucceeded (fetch (emailContent emailData)) remote ->
        determineSponsorStatus remote emailData = true ->
        exists data, sponsorData remote emailData = inr data) ->
     verdict full = verdict simple /\
     ((exists remote, remoteSucceeded (fetch (emailContent emailData)) remote) ->
      full = simple)) /\
    (forall remote message,
       remoteSucceeded (fetch (emailContent emailData)) remote ->
       determineSponsorStatus remote emailData = true ->
       sponsorData remote emailData = inl message ->
       simple = finalResult remote true emailData /\
       full = fallbackAnalysis message emailData).
Proof.
  assert (Hsame : forall remote remote',
             remoteSucceeded (fetch (emailContent emailData)) remote ->
             remoteSucceeded (fetch (emailContent emailData)) remote' ->
             remote' = remote).
  { intros remote remote' (st & Heq & _) (st' & Heq' & _).
    rewrite Heq in Heq'. injection Heq' as _ <-. reflexivity. }
  destruct (fetchResult_total (fetch (emailContent emailData)))
    as [[message Hthrow] | [remote Hok]].
  - destruct (analyzeEmailWithAI_caught fetch emailData s message Hthrow)
      as [s' Hrun].
    assert (Hnone : forall remote,
               ~ remoteSucceeded (fetch (emailContent emailData)) remote).
    { intros remote (st & Hout & Hok). specialize (Hthrow s).
      rewrite Hout in Hthrow. cbn [fetchResult] in Hthrow.
      rewrite Hok in Hthrow. discriminate Hthrow. }
    exists (fallbackAnalysis message emailData), s',
      (simple_fallbackAnalysis message emailData).
    split; [exact Hrun |]. split.
    { unfold simple_analyzeEmailWithAI, Svc.tryCatch, mbind, svc_bind, Svc.bind.
      rewrite Hthrow. reflexivity. }
    split; [reflexivity |]. split.
    + intros _. split; [reflexivity |].
      intros (remote & Hsucc). destruct (Hnone remote Hsucc).
    + intros remote message' Hsucc. destruct (Hnone remote Hsucc).
  - assert (Hsimple : simple_analyzeEmailWithAI fetch emailData s
                      = (inr (finalResult remote
                                (determineSponsorStatus remote emailData)
                                emailData), s)).
    { destruct Hok as (st & Hout & Hst).
      unfold simple_analyzeEmailWithAI, Svc.tryCatch, mbind, svc_bind, Svc.bind.
      rewrite Hout. cbn [fetchResult]. rewrite Hst. reflexivity. }
    destruct (analyzeEmailWithAI_answered fetch emailData s remote Hok)
      as [s' [[Hrun Hbuilt] | (Hyes & message & Hdata & Hrun)]].
    + eexists. exists s'. eexists. split; [exact Hrun |].
      split; [exact Hsimple |]. split; [reflexivity |].
      split.
      * intros _. split; [reflexivity |]. intros _. reflexivity.
      * intros remote' message' Hsucc' Hdet' Hdata'.
        rewrite (Hsame _ _ Hok Hsucc') in Hdet', Hdata'.
        destruct (Hbuilt Hdet') as [data Hdata]. congruence.
    + eexists. exists s'. eexists. split; [exact Hrun |].
      split; [exact Hsimple |]. split; [reflexivity |].
      split.
      * intros Hbuilt. destruct (Hbuilt remote Hok Hyes) as [data Hdata'].
        congruence.
      * intros remote' message' Hsucc' Hdet' Hdata'.
        pose proof (Hsame _ _ Hok Hsucc'). subst remote'.
        rewrite Hyes. split; [reflexivity | congruence].
Qed.

End HandlerProperties.


(** * Further properties of the popup *)

(** X21: the four readings of a risk score in the popup (the class of the
    summary, its recommendation, the status of the risk row and the risk
    level) change at the same two thresholds, 40 and 70. *)
Theorem risk_tiers_agree (score : Z) :
  (score > 70 /\ scoreClass score = lit "danger"
   /\ recommendation score = lit "NOT RECOMMENDED"
   /\ riskStatus score = lit "failed"
   /\ getRiskLevel score = lit "HIGH RISK")
  \/ (40 < score <= 70 /\ scoreClass score = lit "warning"
      /\ recommendation score = lit "PROCEED WITH CAUTION"
      /\ riskStatus score = lit "warning"
      /\ getRiskLevel score = lit "MEDIUM RISK")
  \/ (score <= 40 /\ scoreClass score = lit "safe"
      /\ recommendation score = lit "SAFE TO PROCEED"
      /\ riskStatus score = lit "passed"
      /\ getRiskLevel score = lit "LOW RISK").
Proof.
  unfold scoreClass, recommendation, riskStatus, getRiskLevel.
  destruct (Z.gtb_spec score 70).
  - left. repeat split; try reflexivity. lia.
  - destruct (Z.gtb_spec score 40).
    + right; left. repeat split; try reflexivity; lia.
    + right; right. repeat split; try reflexivity; lia.
Qed.

Lemma hasType_filter (ty : string) (about : Flag -> bool) (flags : list Flag) :
  hasType ty (List.filter about flags) = true <->
  exists flag,
    In flag flags /\ about flag = true /\ flag_type flag = lit ty.
Proof.
  unfold hasType. rewrite existsb_exists. split.
  - intros (flag & Hin & Hty). apply List.filter_In in Hin as [Hin Habout].
    apply bool_decide_eq_true in Hty. eauto.
  - intros (flag & Hin & Habout & Hty). exists flag. split.
    + apply List.filter_In. auto.
    + apply bool_decide_eq_true. exact Hty.
Qed.

Lemma hasType_nil (ty : string) (fs : list Flag) :
  (length fs =? 0)%nat = true -> hasType ty fs = false.
Proof. destruct fs; [reflexivity | discriminate]. Qed.

(** X22: the domain check passes exactly when some flag about the domain (its
    message mentions 'domain' and not 'temporary', in any case) is green,
    and fails exactly when none is green and one is red; flags about other
    matters, whatever their colour, do not count. *)
Theorem getDomainStatus_verdict (flags : list Flag) :
  (getDomainStatus flags = lit "passed" <->
   exists flag, In flag flags /\ aboutDomain flag = true
                /\ flag_type flag = lit "green") /\
  (getDomainStatus flags = lit "failed" <->
   (~ exists flag, In flag flags /\ aboutDomain flag = true
                   /\ flag_type flag = lit "green") /\
   exists flag, In flag flags /\ aboutDomain flag = true
                /\ flag_type flag = lit "red").
Proof.
  rewrite <- !hasType_filter. unfold getDomainStatus. cbv zeta.
  set (fs := List.filter aboutDomain flags).
  destruct (length fs =? 0)%nat eqn:Hlen.
  - rewrite !(hasType_nil _ fs Hlen). split; split; try discriminate.
    intros [_ Hred]. discriminate Hred.
  - destruct (hasType "green" fs); [| destruct (hasType "red" fs)];
      split; split; try discriminate; try reflexivity; auto.
    + intros [Hg _]. exfalso. apply Hg. reflexivity.
    + intros [_ Hr]. discriminate Hr.
Qed.

(** X23: the website check and the LinkedIn check follow the same rule, each
    over the flags about its own matter. *)
Theorem website_linkedin_verdict (flags : list Flag) :
  ((getWebsiteStatus flags).1 = lit "passed" <->
   exists flag, In flag flags /\ aboutWebsite flag = true
                /\ flag_type flag = lit "green") /\
  ((getWebsiteStatus flags).1 = lit "failed" <->
   (~ exists flag, In flag flags /\ aboutWebsite flag = true
                   /\ flag_type flag = lit "green") /\
   exists flag, In flag flags /\ aboutWebsite flag = true
                /\ flag_type flag = lit "red") /\
  ((extractLinkedInFromFlags flags).1 = lit "passed" <->
   exists flag, In flag flags /\ aboutLinkedIn flag = true
                /\ flag_type flag = lit "green") /\
  ((extractLinkedInFromFlags flags).1 = lit "failed" <->
   (~ exists flag, In flag flags /\ aboutLinkedIn flag = true
                   /\ flag_type flag = lit "green") /\
   exists flag, In flag flags /\ aboutLinkedIn flag = true
                /\ flag_type flag = lit "red").
Proof.
  rewrite <- !hasType_filter.
  unfold getWebsiteStatus, extractLinkedInFromFlags. cbv zeta.
  set (ws := List.filter aboutWebsite flags).
  set (ls := List.filter aboutLinkedIn flags).
  assert (Hw : ((if (length ws =? 0)%nat then (lit "warning", lit "Not checked")
                 else if hasType "green" ws then (lit "passed", lit "Accessible")
                 else if hasType "red" ws then (lit "failed", lit "Not accessible")
                 else (lit "warning", lit "Needs verification")).1
                = lit "passed" <-> hasType "green" ws = true) /\
               ((if (length ws =? 0)%nat then (lit "warning", lit "Not checked")
                 else if hasType "green" ws then (lit "passed", lit "Accessible")
                 else if hasType "red" ws then (lit "failed", lit "Not accessible")
                 else (lit "warning", lit "Needs verification")).1
                = lit "failed" <->
                hasType "green" ws <> true /\ hasType "red" ws = true)).
  { destruct (length ws =? 0)%nat eqn:Hlen.
    - rewrite !(hasType_nil _ ws Hlen). split; split; try discriminate.
      intros [_ Hred]. discriminate Hred.
    - destruct (hasType "green" ws); [| destruct (hasType "red" ws)];
        split; split; try discriminate; try reflexivity; auto.
      + intros [Hg _]. exfalso. apply Hg. reflexivity.
      + intros [_ Hr]. discriminate Hr. }
  assert (Hl : ((if (length ls =? 0)%nat then (lit "warning", lit "Not checked")
                 else if hasType "green" ls
                 then (lit "passed", lit "Profile verified")
                 else if hasType "red" ls
                 then (lit "failed", lit "Profile not found")
                 else (lit "warning", lit "Needs verification")).1
                = lit "passed" <-> hasType "green" ls = true) /\
               ((if (length ls =? 0)%nat then (lit "warning", lit "Not checked")
                 else if hasType "green" ls
                 then (lit "passed", lit "Profile verified")
                 else if hasType "red" ls
                 then (lit "failed", lit "Profile not found")
                 else (lit "warning", lit "Needs verification")).1
                = lit "failed" <->
                hasType "green" ls <> true /\ hasType "red" ls = true)).
  { destruct (length ls =? 0)%nat eqn:Hlen.
    - rewrite !(hasType_nil _ ls Hlen). split; split; try discriminate.
      intros [_ Hred]. discriminate Hred.
    - destruct (hasType "green" ls); [| destruct (hasType "red" ls)];
        split; split; try discriminate; try reflexivity; auto.
      + intros [Hg _]. exfalso. apply Hg. reflexivity.
      + intros [_ Hr]. discriminate Hr. }
  destruct Hw as [Hw1 Hw2], Hl as [Hl1 Hl2]. auto.
Qed.

Lemma take_app_take {A} (n : nat) (xs ys : list A) :
  take n (xs ++ take n ys) = take n (xs ++ ys).
Proof.
  rewrite !take_app, take_take. f_equal. f_equal. lia.
Qed.

Lemma popup_addActivity_take {A} (activity : A) (activities : list A) :
  (length activities <= popupMaxActivities)%nat ->
  popup_addActivity activity activities
  = take popupMaxActivities (activity :: activities).
Proof. intros Hle. unfold popup_addActivity. apply unshift_pop_take, Hle. Qed.

Lemma popup_activities_from {A} (added shown : list A) :
  (length shown <= popupMaxActivities)%nat ->
  fold_left (fun activities activity => popup_addActivity activity activities)
    added shown
  = take popupMaxActivities (rev added ++ shown).
Proof.
  revert shown. induction added as [| activity added IH]; intros shown Hle.
  - simpl. symmetry. apply take_ge. exact Hle.
  - cbn [fold_left]. rewrite popup_addActivity_take by exact Hle.
    rewrite IH by (rewrite length_take; lia).
    rewrite take_app_take. cbn [rev]. rewrite <- app_assoc. reflexivity.
Qed.

(** X24: after any number of activities, the popup that started empty shows the
    ten most recent ones, the newest first. *)
Theorem popup_shows_ten_most_recent {A} (added : list A) :
  fold_left (fun activities activity => popup_addActivity activity activities)
    added []
  = take 10 (rev added).
Proof.
  rewrite popup_activities_from by (simpl; lia).
  rewrite app_nil_r. reflexivity.
Qed.

(** * Further properties of sponsor details and summaries *)

Lemma limitText_length (text : jsstring) (maxLength : Z) :
  3 <= maxLength -> Z.of_nat (length (limitText text maxLength)) <= maxLength.
Proof.
  intros Hmax. unfold limitText, sliceTo.
  destruct (Z.leb_spec (Z.of_nat (length text)) maxLength); [assumption |].
  destruct (Z.ltb_spec (maxLength - 3) 0); [lia |].
  rewrite length_app, length_take. change (length (lit "...")) with 3%nat. lia.
Qed.

(** X25: [limitText] returns a text of at most [maxLength] code units, for a
    limit of three or more: a text within the limit as it is, a longer one
    cut to [maxLength - 3] code units and followed by '...'. *)
Theorem limitText_bound (text : jsstring) (maxLength : Z) :
  3 <= maxLength ->
  Z.of_nat (length (limitText text maxLength)) <= maxLength /\
  (Z.of_nat (length text) <= maxLength -> limitText text maxLength = text) /\
  (maxLength < Z.of_nat (length text) ->
   limitText text maxLength
   = take (Z.to_nat (maxLength - 3)) text ++ lit "..." /\
   Z.of_nat (length (limitText text maxLength)) = maxLength).
Proof.
  intros Hmax. unfold limitText, sliceTo.
  destruct (Z.leb_spec (Z.of_nat (length text)) maxLength) as [Hle | Hgt].
  - split; [exact Hle |]. split; [reflexivity | lia].
  - destruct (Z.ltb_spec (maxLength - 3) 0); [lia |].
    assert (Hlen : Z.of_nat (length (take (Z.to_nat (maxLength - 3)) text
                                     ++ lit "...")) = maxLength).
    { rewrite length_app, length_take.
      change (length (lit "...")) with 3%nat. lia. }
    split; [lia |]. split; [lia |]. intros _. split; [reflexivity | exact Hlen].
Qed.

Lemma limitText_bound_witness :
  3 <= 10 /\
  limitText (lit "Sponsored video series") 10 = lit "Sponsor...".
Proof.
  split; [lia |].
  destruct (limitText_bound (lit "Sponsored video series") 10 ltac:(lia))
    as (_ & _ & Hcut).
  destruct Hcut as [-> _]; [vm_compute; reflexivity | reflexivity].
Defined.

Lemma orStr_truthy (a : option jsstring) (b : jsstring) :
  truthyStr b = true -> truthyStr (orStr a b) = true.
Proof.
  intros Hb. unfold orStr. destruct a as [s |]; [| exact Hb].
  destruct (truthyStr s) eqn:Hs; [exact Hs | exact Hb].
Qed.

Lemma limitText_truthy (text : jsstring) (maxLength : Z) :
  truthyStr text = true -> truthyStr (limitText text maxLength) = true.
Proof.
  intros Ht. unfold limitText.
  destruct (Z.of_nat (length text) <=? maxLength); [exact Ht |].
  destruct (sliceTo (maxLength - 3) text); reflexivity.
Qed.

Lemma orStr_falsy (a : option jsstring) (b : jsstring) :
  truthyOpt a = false -> orStr a b = b.
Proof.
  unfold orStr, truthyOpt. destruct a as [s |]; [| reflexivity].
  intros ->. reflexivity.
Qed.

(** X26: [extractSponsorDetails] throws, with the TypeError of [matchAll],
    exactly when no website is at hand: the result carries none and the
    body has no usable URL.  When it returns, the agenda has at most 120
    code units and none of company, website, agenda, contact and money is
    empty; company, contact and money are the fixed texts 'Unknown
    Company', 'Not specified' and 'Not specified' when neither the result
    nor the email gives them; and a website that the result does not
    carry is a usable domain found in the body, with 'www.' in front
    unless it starts with it, and never the fixed text 'Not provided'. *)
Theorem extractSponsorDetails_filled `{SponsorExtractors}
    (result : AnalysisResult) (emailData : EmailData) :
  (extractSponsorDetails result emailData = inl matchAllNonGlobal <->
   ~ websiteAtHand (info website (extractedInfo result)) emailData) /\
  (forall message,
     extractSponsorDetails result emailData = inl message ->
     message = matchAllNonGlobal) /\
  (forall details,
     extractSponsorDetails result emailData = inr details ->
     (length (sd_agenda details) <= 120)%nat /\
     sd_companyName details <> [] /\
     sd_website details <> [] /\
     sd_agenda details <> [] /\
     sd_contactPerson details <> [] /\
     sd_moneyOffered details <> [] /\
     (truthyOpt (info companyName (extractedInfo result)) = false ->
      truthyOpt (extractCompanyFromEmail emailData) = false ->
      sd_companyName details = lit "Unknown Company") /\
     (truthyOpt (info website (extractedInfo result)) = false ->
      sd_website details <> lit "Not provided" /\
      exists domain,
        In domain (matchUrlDomains (body emailData)) /\
        usableDomain domain = true /\
        sd_website details = if startsWith domain (lit "www.") then domain
                             else lit "www." ++ domain) /\
     (truthyOpt (info contactPerson (extractedInfo result)) = false ->
      truthyOpt (extractContactFromEmail emailData) = false ->
      sender emailData = [] ->
      sd_contactPerson details = lit "Not specified") /\
     (extractMoneyFromEmail emailData = [] ->
      sd_moneyOffered details = lit "Not specified")).
Proof.
  unfold extractSponsorDetails. cbv zeta.
  destruct (orThrowing_website (info website (extractedInfo result)) emailData)
    as [(Hyes & found & -> & Htruthy & _ & Hwww) | (Hno & ->)].
  - split; [split; [discriminate | contradiction] |].
    split; [discriminate |].
    intros details Heq. apply (inj inr) in Heq. subst details.
    cbn [sd_agenda sd_companyName sd_website sd_contactPerson sd_moneyOffered].
    assert (Hne : forall s : jsstring, truthyStr s = true -> s <> []).
    { intros s Hs ->. discriminate Hs. }
    split.
    { match goal with
      | |- (length (limitText ?t 120) <= 120)%nat =>
          pose proof (limitText_length t 120 ltac:(lia))
      end.
      lia. }
    split; [apply Hne; repeat apply orStr_truthy; reflexivity |].
    split; [apply Hne; repeat apply orStr_truthy; reflexivity |].
    split; [apply Hne, limitText_truthy; repeat apply orStr_truthy;
            reflexivity |].
    split; [apply Hne; repeat apply orStr_truthy; reflexivity |].
    split; [apply Hne; repeat apply orStr_truthy; reflexivity |].
    split; [intros H1 H2; rewrite !orStr_falsy by assumption; reflexivity |].
    split.
    { intros Hnone. destruct (Hwww Hnone) as [Hstarts Hdomain].
      unfold orStr. rewrite Htruthy. split; [| exact Hdomain].
      intros Heq. rewrite Heq in Hstarts. discriminate Hstarts. }
    split.
    { intros H1 H2 H3. rewrite !orStr_falsy by assumption. rewrite H3.
      reflexivity. }
    intros ->. reflexivity.
  - split; [split; [intros _; exact Hno | reflexivity] |].
    split; [intros message Heq; apply (inj inl) in Heq; congruence |].
    discriminate.
Qed.

(** The call of [sponsorGuardTest]: the test result carries no website and
    the body of its record has no URL, so that the call throws. *)
Example extractSponsorDetails_test_throws :
  @extractSponsorDetails sponsorGuardTestExtractors sponsorGuardTestResult
    sponsorGuardTestData
  = inl matchAllNonGlobal.
Proof. reflexivity. Qed.

Lemma filter_take_none {A} (p : A -> bool) (n : nat) (l : list A) :
  List.filter p l = [] -> List.filter p (take n l) = [].
Proof.
  revert n. induction l as [| x l IH]; intros n Hnone.
  - rewrite take_nil. reflexivity.
  - destruct n as [| n]; [reflexivity |]. cbn [take List.filter] in *.
    destruct (p x); [discriminate Hnone | apply IH, Hnone].
Qed.

Lemma filter_filter_negb {A} (p : A -> bool) (l : list A) :
  List.filter p (List.filter (fun x => negb (p x)) l) = [].
Proof.
  induction l as [| x l IH]; [reflexivity |]. cbn [List.filter].
  destruct (p x) eqn:Hp; cbn [negb List.filter]; [exact IH |].
  rewrite Hp. exact IH.
Qed.

(** X27: saving a summary writes a list of at most 100 summaries that starts
    with the new one and has no other summary of the same email; and when
    the stored emails were all different, they still are. *)
Theorem saveEmailSummary_list (emailData : EmailData) (summary : Summary)
    (summaries : list SummaryData) :
  let saved := saveEmailSummary emailData summary summaries in
  (length saved <= 100)%nat /\
  (exists rest,
     saved = {| sum_id := id emailData;
                sum_subject := subject emailData;
                sum_sender := sender emailData;
                sum_timestamp := timestamp emailData;
                sum_summary := summary;
                sum_url := url emailData |} :: rest) /\
  length (List.filter (fun s => bool_decide (sum_id s = id emailData)) saved)
  = 1%nat /\
  (List.NoDup (List.map sum_id summaries) ->
   List.NoDup (List.map sum_id saved)).
Proof.
  cbv zeta. unfold saveEmailSummary. cbv zeta.
  set (new := {| sum_id := id emailData;
                 sum_subject := subject emailData;
                 sum_sender := sender emailData;
                 sum_timestamp := timestamp emailData;
                 sum_summary := summary;
                 sum_url := url emailData |}).
  set (others := List.filter
                   (fun s => negb (bool_decide (sum_id s = id emailData)))
                   summaries).
  change (take 100 (new :: others)) with (new :: take 99 others).
  assert (Hnone : List.filter (fun s => bool_decide (sum_id s = id emailData))
                    (take 99 others) = []).
  { apply filter_take_none.
    apply (filter_filter_negb
             (fun s => bool_decide (sum_id s = id emailData))). }
  split; [cbn [length]; rewrite length_take; lia |].
  split; [eexists; reflexivity |].
  split.
  - cbn [List.filter sum_id new]. rewrite bool_decide_eq_true_2 by reflexivity.
    rewrite Hnone. reflexivity.
  - intros Hnodup. cbn [List.map]. constructor.
    + intros Hin. apply in_map_iff in Hin as (s & Hid & Hin).
      assert (Hs : In s (List.filter
                           (fun s => bool_decide (sum_id s = id emailData))
                           (take 99 others))).
      { apply List.filter_In. split; [exact Hin |].
        apply bool_decide_eq_true. exact Hid. }
      rewrite Hnone in Hs. destruct Hs.
    + assert (Hothers : List.NoDup (List.map sum_id others)).
      { unfold others. clear -Hnodup.
        induction summaries as [| s summaries IH]; [constructor |].
        cbn [List.map] in Hnodup. inversion Hnodup as [| ? ? Hnotin Hrest].
        subst. cbn [List.filter].
        destruct (negb (bool_decide (sum_id s = id emailData)));
          [| apply IH, Hrest].
        cbn [List.map]. constructor; [| apply IH, Hrest].
        intros Hin. apply Hnotin. apply in_map_iff in Hin as (s' & Hid & Hin).
        apply List.filter_In in Hin as [Hin _].
        apply in_map_iff. eauto. }
      rewrite <- (take_drop 99 others) in Hothers.
      rewrite List.map_app in Hothers.
      apply List.NoDup_app_remove_r in Hothers. exact Hothers.
Qed.

(** What [splitSentences] gives on the edges: a run counts once, and a run
    at either end leaves an empty piece there. *)
Example splitSentences_edges :
  splitSentences (lit "Hi there... Call me!") = [lit "Hi there"; lit " Call me"; []]
  /\ splitSentences (lit "?no") = [[]; lit "no"]
  /\ splitSentences [] = [[]].
Proof. repeat split. Qed.

Lemma splitSentences_from_pieces (s cur : jsstring) (inRun : bool) :
  Forall (fun c => isSentenceEnd c = false) cur ->
  Forall (Forall (fun c => isSentenceEnd c = false))
    (splitSentences_from s cur inRun).
Proof.
  revert cur inRun. induction s as [| c s IH]; intros cur inRun Hcur.
  - cbn [splitSentences_from]. constructor; [| constructor].
    apply Forall_rev, Hcur.
  - cbn [splitSentences_from]. destruct (isSentenceEnd c) eqn:Hc.
    + destruct inRun; [apply IH, Hcur |].
      constructor; [apply Forall_rev, Hcur | apply IH; constructor].
    + apply IH. constructor; assumption.
Qed.

(** No piece holds a '.', a '!' or a '?'. *)
Lemma splitSentences_pieces (s : jsstring) :
  Forall (Forall (fun c => isSentenceEnd c = false)) (splitSentences s).
Proof. apply splitSentences_from_pieces. constructor. Qed.

Lemma generateFallbackSummary_action_cases (emailData : EmailData) :
  In (line2 (generateFallbackSummary emailData))
    [lit "Review and respond if interested";
     lit "Check calendar and respond";
     lit "Review payment details";
     lit "Requires immediate attention";
     lit "Read and respond as needed"]
  \/ exists first rest,
       List.filter (fun s => (10 <? length (trim s))%nat)
         (splitSentences (body emailData)) = first :: rest
       /\ line2 (generateFallbackSummary emailData)
          = slice0 80 (trim first) ++ lit "...".
Proof.
  unfold generateFallbackSummary. cbv zeta.
  destruct (_ || _ || _); [left; cbn; auto |].
  destruct (_ || _ || _); [left; cbn; auto |].
  destruct (_ || _ || _); [left; cbn; auto |].
  destruct (_ || _ || _); [left; cbn; auto 6 |].
  destruct (List.filter _ _) as [| first rest].
  - left. cbn. auto 6.
  - right. exists first, rest. split; reflexivity.
Qed.

(** X28: the second line of a fallback summary is one of five fixed texts,
    or the first 80 code units of the first sentence of the body that has
    more than 10 code units once trimmed, followed by '...' (a sentence
    being a piece between runs of '.', '!' and '?'); so it is never empty
    and has at most 83 code units. *)
Theorem generateFallbackSummary_line2 (emailData : EmailData) :
  (In (line2 (generateFallbackSummary emailData))
     [lit "Review and respond if interested";
      lit "Check calendar and respond";
      lit "Review payment details";
      lit "Requires immediate attention";
      lit "Read and respond as needed"]
   \/ exists first rest,
        List.filter (fun s => (10 <? length (trim s))%nat)
          (splitSentences (body emailData)) = first :: rest
        /\ line2 (generateFallbackSummary emailData)
           = slice0 80 (trim first) ++ lit "...") /\
  (1 <= length (line2 (generateFallbackSummary emailData)) <= 83)%nat.
Proof.
  pose proof (generateFallbackSummary_action_cases emailData) as Hcases.
  split; [exact Hcases |].
  destruct Hcases as [Hfixed | (first & rest & _ & Hcut)].
  - cbn [In] in Hfixed.
    destruct Hfixed as [<- | [<- | [<- | [<- | [<- | []]]]]];
      vm_compute; lia.
  - rewrite Hcut, length_app. pose proof (slice0_length 80 (trim first)).
    change (length (lit "...")) with 3%nat. lia.
Qed.
